(** * Task-card synchronisation engine of trello-claude-sync

    A shallow embedding of the TypeScript sources
    ([services/simple-auto-sync.ts] in its two revisions,
    [utils/session.ts], [slash-commands.ts], [services/todo-sync.ts])
    together with the properties of the engine stated over it.

    JavaScript strings are sequences of UTF-16 code units, and the regular
    expressions of the sources carry no [u] flag, so they work on code
    units as well.  Strings are therefore modelled as [list N]. *)

From Stdlib Require Import List NArith Arith Bool Lia Ascii String DecimalString.
Import ListNotations.

Set Implicit Arguments.

(* ================================================================= *)
(** ** JavaScript strings as code-unit sequences *)

Module Js.

Definition str := list N.

(** A code point as one code unit, or as a surrogate pair. *)
Definition units (cp : N) : str :=
  if (cp <? 65536)%N then [cp]
  else [(55296 + N.shiftr (cp - 65536) 10)%N;
        (56320 + N.land (cp - 65536) 1023)%N].

Definition cont (b : N) : N := N.land b 63.

(** The code units of a text given by its UTF-8 bytes. *)
Fixpoint decode (bytes : list N) : str :=
  match bytes with
  | [] => []
  | b0 :: r0 =>
      if (b0 <? 192)%N then b0 :: decode r0
      else
        match r0 with
        | [] => [b0]
        | b1 :: r1 =>
            if (b0 <? 224)%N
            then units (N.shiftl (N.land b0 31) 6 + cont b1) ++ decode r1
            else
              match r1 with
              | [] => [b0; b1]
              | b2 :: r2 =>
                  if (b0 <? 240)%N
                  then units (N.shiftl (N.land b0 15) 12
                              + N.shiftl (cont b1) 6 + cont b2) ++ decode r2
                  else
                    match r2 with
                    | [] => [b0; b1; b2]
                    | b3 :: r3 =>
                        units (N.shiftl (N.land b0 7) 18
                               + N.shiftl (cont b1) 12
                               + N.shiftl (cont b2) 6 + cont b3) ++ decode r3
                    end
              end
        end
  end.

(** A string literal of the sources: the file holds it in UTF-8, the
    program sees its UTF-16 code units. *)
Definition lit (s : string) : str :=
  decode (map N_of_ascii (list_ascii_of_string s)).

Definition nl : str := [10%N].
Definition quote : str := [34%N].

Definition eqb (a b : str) : bool :=
  if list_eq_dec N.eq_dec a b then true else false.

(** Truthiness of an optional string: [undefined] and [''] are falsy. *)
Definition truthy (o : option str) : bool :=
  match o with
  | Some (_ :: _) => true
  | _ => false
  end.

(** [a || b] on an optional string with a string default. *)
Definition orElse (o : option str) (d : str) : str :=
  match o with
  | Some (c :: s) => c :: s
  | _ => d
  end.

(** White space and line terminators: what [trim] removes and what [\s]
    matches. *)
Definition isLineTerminator (c : N) : bool :=
  ((c =? 10) || (c =? 13) || (c =? 8232) || (c =? 8233))%N.

Definition isSpace (c : N) : bool :=
  ((c =? 9) || (c =? 11) || (c =? 12) || (c =? 32) || (c =? 160)
   || (c =? 5760) || ((8192 <=? c) && (c <=? 8202))
   || (c =? 8239) || (c =? 8287) || (c =? 12288) || (c =? 65279)
   || isLineTerminator c)%N.

Fixpoint dropWhile (p : N -> bool) (s : str) : str :=
  match s with
  | [] => []
  | c :: r => if p c then dropWhile p r else s
  end.

Definition trimStart (s : str) : str := dropWhile isSpace s.
Definition trimEnd (s : str) : str := rev (dropWhile isSpace (rev s)).
Definition trim (s : str) : str := trimEnd (trimStart s).

Fixpoint startsWith (p s : str) : bool :=
  match p, s with
  | [], _ => true
  | a :: p', b :: s' => (a =? b)%N && startsWith p' s'
  | _ :: _, [] => false
  end.

(** [s.includes(p)] *)
Fixpoint includes (s p : str) : bool :=
  startsWith p s ||
  match s with
  | [] => false
  | _ :: r => includes r p
  end.

(** [s.split(sep)] for a separator of one code unit. *)
Fixpoint split (sep : N) (s : str) : list str :=
  match s with
  | [] => [[]]
  | c :: r =>
      if (c =? sep)%N then [] :: split sep r
      else match split sep r with
           | l :: ls => (c :: l) :: ls
           | [] => [[c]]
           end
  end.

(** [lines.join(sep)] *)
Fixpoint join (sep : str) (l : list str) : str :=
  match l with
  | [] => []
  | [a] => a
  | a :: r => a ++ sep ++ join sep r
  end.

(** Decimal rendering of a number inside a template literal. *)
Definition ofNat (n : nat) : str :=
  lit (NilZero.string_of_uint (Nat.to_uint n)).

(** [toLowerCase] on code units.  It is exact on every unit whose
    lower-case form holds an ASCII unit (the Latin capitals, U+0130 and
    the Kelvin sign U+212A); the remaining units are kept.  The callers
    either remove every unit outside [a-z0-9] and white space from the
    result or look for ASCII words in it, so they cannot tell the
    difference. *)
Definition lowerUnit (c : N) : str :=
  if ((65 <=? c) && (c <=? 90))%N then [(c + 32)%N]
  else if (c =? 304)%N then [105%N; 775%N]
  else if (c =? 8490)%N then [107%N]
  else [c].

Definition toLowerCase (s : str) : str := flat_map lowerUnit s.

End Js.

(* ================================================================= *)
(** ** Regular expressions over code units *)

Module Re.

Inductive t : Type :=
| Void
| Eps
| Sym (p : N -> bool)
| Seq (a b : t)
| Alt (a b : t)
| Star (a : t).

Definition plus (r : t) : t := Seq r (Star r).
Definition opt (r : t) : t := Alt r Eps.

Fixpoint nullable (r : t) : bool :=
  match r with
  | Void => false
  | Eps => true
  | Sym _ => false
  | Seq a b => nullable a && nullable b
  | Alt a b => nullable a || nullable b
  | Star _ => true
  end.

Fixpoint deriv (c : N) (r : t) : t :=
  match r with
  | Void => Void
  | Eps => Void
  | Sym p => if p c then Eps else Void
  | Seq a b =>
      if nullable a then Alt (Seq (deriv c a) b) (deriv c b)
      else Seq (deriv c a) b
  | Alt a b => Alt (deriv c a) (deriv c b)
  | Star a => Seq (deriv c a) (Star a)
  end.

(** [s.match(/^r/)] is not null: some prefix of [s] is a word of [r]. *)
Fixpoint test (r : t) (s : Js.str) : bool :=
  nullable r ||
  match s with
  | [] => false
  | c :: s' => test (deriv c r) s'
  end.

End Re.

(* ================================================================= *)
(** ** Data model ([types/index.ts]) *)

(** [status] is typed ['pending' | 'in_progress' | 'completed'], yet it is a
    string at run time and the code switches on it with a default branch,
    so it is kept as a string. *)
Record TodoTask : Type := mkTask {
  content : Js.str;
  status : Js.str;
  activeForm : Js.str
}.

Definition s_pending : Js.str := Js.lit "pending".
Definition s_in_progress : Js.str := Js.lit "in_progress".
Definition s_completed : Js.str := Js.lit "completed".

Definition icon_completed : Js.str := Js.lit "✅".
Definition icon_in_progress : Js.str := Js.lit "⚙️".
Definition icon_pending : Js.str := Js.lit "📋".

(** The character class [[✅⚙️📋]] of a regular expression without the
    [u] flag: any one of the five code units U+2705, U+2699, U+FE0F,
    U+D83D, U+DCCB. *)
Definition isIconUnit (c : N) : bool :=
  existsb (N.eqb c) (icon_completed ++ icon_in_progress ++ icon_pending).

Record TrelloCard : Type := mkCard {
  card_id : Js.str;
  card_name : Js.str;
  card_desc : option Js.str;
  card_idList : Js.str;
  card_url : Js.str;
  card_shortUrl : Js.str;
  card_dateLastActivity : Js.str
}.

Record TrelloList : Type := mkList {
  list_id : Js.str;
  list_name : Js.str;
  list_pos : nat
}.

(** A checklist item as the services read it: [id], [name] and [state],
    which is ['complete'] or ['incomplete']. *)
Record CheckItem : Type := mkItem {
  item_id : Js.str;
  item_name : Js.str;
  item_state : Js.str
}.

Record Checklist : Type := mkChecklist {
  checklist_id : Js.str;
  checklist_name : Js.str;
  checkItems : option (list CheckItem)
}.

Inductive ListRole : Type := todo | inProgress | review | done.

(** [listIds] of [TrelloConfig]: every role is optional. *)
Record ListIds : Type := mkListIds {
  ids_todo : option Js.str;
  ids_inProgress : option Js.str;
  ids_review : option Js.str;
  ids_done : option Js.str
}.

Record TrelloConfig : Type := mkConfig {
  apiKey : Js.str;
  token : Js.str;
  boardId : Js.str;
  listIds : option ListIds
}.

Inductive SyncAction : Type := created | updated | moved | skipped.

Record SyncResult : Type := mkResult {
  r_success : bool;
  r_cardId : option Js.str;
  r_error : option Js.str;
  r_action : SyncAction
}.

(** [SyncOptions]; an absent flag counts as [false] wherever it is read. *)
Record SyncOptions : Type := mkOptions {
  createMissingLists : bool;
  syncOnlyActiveSession : bool;
  addLabels : bool;
  includeTimestamps : bool
}.

(** [SessionState] of [utils/session.ts]; an absent key is [None]. *)
Record SessionState : Type := mkSession {
  currentCardId : option Js.str;
  currentCardName : option Js.str;
  linkedTasks : option (list TodoTask);
  createdAt : option Js.str;
  lastActivity : option Js.str
}.

Definition emptySession : SessionState :=
  mkSession None None None None None.

(** What [syncTasks] of the auto-sync service resolves to; [completed],
    [total] and [error] are optional keys. *)
Record SyncOutcome : Type := mkOutcome {
  success : bool;
  message : Js.str;
  completed : option nat;
  total : option nat;
  error : option Js.str
}.

(* ================================================================= *)
(** ** Effects: exceptions, the session file, the board client *)

(** What a [catch (error)] clause receives: an [Error] with its message, or
    some other value, given here by what [String(error)] returns; both
    stand for values that [JSON.stringify] serialises.  [Unprintable v t]
    is a value that is like [v] for [instanceof Error], [.message] and
    [String], and on which [JSON.stringify] throws [t]: the [TypeError] of
    a circular structure or of a BigInt inside, or what a [toJSON] method
    throws. *)
Inductive Thrown : Type :=
| ErrorObj (message : Js.str)
| OtherValue (asString : Js.str)
| Unprintable (value thrown : Thrown).

Inductive Result (A : Type) : Type :=
| Ok (a : A)
| Throw (e : Thrown).
Arguments Ok {A} a.
Arguments Throw {A} e.

(** [.trello-session.json]: missing, unreadable as JSON, or holding a
    session record. *)
Inductive SessionFile : Type :=
| Absent
| Corrupt
| Stored (s : SessionState).

(** The local environment: the session file, whether [writeFileSync]
    succeeds, what [new Date().toISOString()] and [Date.now()] read, and
    the variable [LOG_LEVEL] of the process. *)
Record Disk : Type := mkDisk {
  file : SessionFile;
  writable : bool;
  now : Js.str;
  millis : nat;
  LOG_LEVEL : option Js.str
}.

(* ================================================================= *)
(** ** The logger ([utils/logger.ts]) *)

Inductive LogLevel : Type := DEBUG | INFO | WARN | ERROR.

Module Logger.

(** The values of the [enum]. *)
Definition rank (level : LogLevel) : nat :=
  match level with
  | DEBUG => 0
  | INFO => 1
  | WARN => 2
  | ERROR => 3
  end.

(** [getLogLevel], on [process.env.LOG_LEVEL]. *)
Definition getLogLevel (env : option Js.str) : LogLevel :=
  let level := Js.orElse (option_map Js.toLowerCase env) (Js.lit "info") in
  if Js.eqb level (Js.lit "debug") then DEBUG
  else if Js.eqb level (Js.lit "info") then INFO
  else if Js.eqb level (Js.lit "warn") then WARN
  else if Js.eqb level (Js.lit "error") then ERROR
  else INFO.

(** [shouldLog]: [level >= this.level]. *)
Definition shouldLog (this_level level : LogLevel) : bool :=
  rank this_level <=? rank level.

(** [JSON.stringify(data, null, 2)] in [formatMessage], for a caught
    value as [data]: what it throws, if it throws.  A falsy value is not
    serialised at all, and is printable. *)
Definition stringify (data : Thrown) : option Thrown :=
  match data with
  | Unprintable _ t => Some t
  | _ => None
  end.

End Logger.

(** Every use the services make of [TrelloMCPClient] and [getConfig],
    with its arguments. *)
Inductive Call : Type :=
| Construct
| GetConfig
| Connect
| AutoDiscoverLists
| HealthCheck
| GetCard (cardId : Js.str)
| UpdateCard (cardId : Js.str) (name description : option Js.str)
| MoveCard (cardId targetListId : Js.str)
| AddComment (cardId comment : Js.str)
| SearchCards (query : Js.str)
| GetLists
| GetListId (listType : ListRole)
| CreateCard (name : Js.str) (description listId : option Js.str)
| GetCardChecklists (cardId : Js.str)
| CreateChecklist (cardId name : Js.str) (itemNames : list Js.str)
| UpdateChecklistItem (cardId itemId : Js.str) (completed : bool)
| EnsureLabel (name color : Js.str)
| AddLabelToCard (cardId labelId : Js.str).

Definition Resp (c : Call) : Type :=
  match c with
  | Construct => unit
  | GetConfig => TrelloConfig
  | Connect => unit
  | AutoDiscoverLists => unit
  | HealthCheck => bool
  | GetCard _ => TrelloCard
  | UpdateCard _ _ _ => TrelloCard
  | MoveCard _ _ => TrelloCard
  | AddComment _ _ => unit
  | SearchCards _ => list TrelloCard
  | GetLists => list TrelloList
  | GetListId _ => option Js.str
  | CreateCard _ _ _ => TrelloCard
  | GetCardChecklists _ => list Checklist
  | CreateChecklist _ _ _ => Checklist
  | UpdateChecklistItem _ _ _ => unit
  | EnsureLabel _ _ => Js.str
  | AddLabelToCard _ _ => unit
  end.

(** The calls that reach the remote service; the others read the local
    configuration or the client's cache of list ids. *)
Definition isRemote (c : Call) : bool :=
  match c with
  | Construct | GetConfig | GetListId _ => false
  | _ => true
  end.

(** The board client as the engine sees it: a state [R] behind the
    client and, for every call, an answer or a thrown value. *)
Class BoardClient (R : Type) : Type :=
  exec : forall c : Call, R -> Result (Resp c) * R.

(** What became of a call: [None] when it was answered, the thrown value
    when it failed. *)
Definition Event : Type := (Call * option Thrown)%type.

Definition outcomeOf {A} (r : Result A) : option Thrown :=
  match r with
  | Ok _ => None
  | Throw e => Some e
  end.

(** The session file, the board behind the client, and the log of the
    calls made so far, oldest first. *)
Record World (R : Type) : Type := mkWorld {
  disk : Disk;
  board : R;
  calls : list Event
}.

Definition issued {R} (w : World R) : list Call := map fst (calls w).

Module Eff.
Section Monad.
Context {R : Type} {client : BoardClient R}.

Definition M (A : Type) : Type := World R -> Result A * World R.

Definition ret {A} (a : A) : M A := fun w => (Ok a, w).

Definition bind {A B} (m : M A) (k : A -> M B) : M B :=
  fun w =>
    match m w with
    | (Ok a, w') => k a w'
    | (Throw e, w') => (Throw e, w')
    end.

Definition throw {A} (e : Thrown) : M A := fun w => (Throw e, w).

(** [try { m } catch (error) { h error }] *)
Definition tryCatch {A} (m : M A) (h : Thrown -> M A) : M A :=
  fun w =>
    match m w with
    | (Ok a, w') => (Ok a, w')
    | (Throw e, w') => h e w'
    end.

(** One use of the client: the call is answered and logged. *)
Definition call (c : Call) : M (Resp c) :=
  fun w =>
    let (r, b) := exec c (board w) in
    (r, mkWorld (disk w) b (calls w ++ [(c, outcomeOf r)])).

(** [logger.error(message, error)] and [logger.warn(message, error)] in a
    [catch] clause.  The line written to the console is not modelled; the
    call throws what [JSON.stringify] throws on the caught value, when the
    level is logged at all. *)
Definition log (level : LogLevel) (data : Thrown) : M unit :=
  fun w =>
    if Logger.shouldLog (Logger.getLogLevel (LOG_LEVEL (disk w))) level then
      match Logger.stringify data with
      | Some t => (Throw t, w)
      | None => (Ok tt, w)
      end
    else (Ok tt, w).

(** Local code on the session file and the clock, which never throws. *)
Definition onDisk {A} (f : Disk -> A * Disk) : M A :=
  fun w =>
    let (a, d) := f (disk w) in
    (Ok a, mkWorld d (board w) (calls w)).

(** [for (const x of l) { await f x }] *)
Fixpoint forEach {A} (l : list A) (f : A -> M unit) : M unit :=
  match l with
  | [] => ret tt
  | x :: r => bind (f x) (fun _ => forEach r f)
  end.

End Monad.
End Eff.

Notation "x <- m ;; k" := (Eff.bind m (fun x => k))
  (at level 61, m at next level, right associativity).
Notation "m ;;; k" := (Eff.bind m (fun _ => k))
  (at level 61, right associativity).

(** [error instanceof Error] *)
Fixpoint isError (e : Thrown) : bool :=
  match e with
  | ErrorObj _ => true
  | OtherValue _ => false
  | Unprintable v _ => isError v
  end.

(** [error instanceof Error ? error.message : 'Unknown error'] *)
Fixpoint messageOrUnknown (e : Thrown) : Js.str :=
  match e with
  | ErrorObj m => m
  | OtherValue _ => Js.lit "Unknown error"
  | Unprintable v _ => messageOrUnknown v
  end.

(** [error instanceof Error ? error.message : String(error)] *)
Fixpoint messageOrString (e : Thrown) : Js.str :=
  match e with
  | ErrorObj m => m
  | OtherValue s => s
  | Unprintable v _ => messageOrString v
  end.

(* ================================================================= *)
(** ** Session store ([utils/session.ts]) *)

Module Session.

Definition loadSession (d : Disk) : SessionState :=
  match file d with
  | Absent => emptySession
  | Corrupt => emptySession
  | Stored s => s
  end.

Definition writeFileSync (d : Disk) (s : SessionState) : Disk :=
  if writable d then mkDisk (Stored s) (writable d) (now d) (millis d) (LOG_LEVEL d) else d.

Definition saveSession (state : SessionState) (d : Disk) : Disk :=
  writeFileSync d
    (mkSession (currentCardId state) (currentCardName state)
       (linkedTasks state) (createdAt state) (Some (now d))).

Definition existsSync (d : Disk) : bool :=
  match file d with
  | Absent => false
  | _ => true
  end.

Definition clearSession (d : Disk) : Disk :=
  if existsSync d then writeFileSync d emptySession else d.

Definition setActiveCard (cardId cardName : Js.str)
    (tasks : option (list TodoTask)) (d : Disk) : Disk :=
  let session := loadSession d in
  saveSession
    (mkSession (Some cardId) (Some cardName) tasks
       (Some (Js.orElse (createdAt session) (now d)))
       (lastActivity session))
    d.

Definition getActiveCard (d : Disk)
  : option Js.str * option Js.str * option (list TodoTask) :=
  let session := loadSession d in
  (currentCardId session, currentCardName session, linkedTasks session).

Definition updateSessionTasks (tasks : list TodoTask) (d : Disk) : Disk :=
  let session := loadSession d in
  if Js.truthy (currentCardId session) then
    saveSession
      (mkSession (currentCardId session) (currentCardName session)
         (Some tasks) (createdAt session) (lastActivity session))
      d
  else d.

(** A session that tracks tasks names the card they belong to. *)
Definition tasksHaveCard (s : SessionState) : Prop :=
  linkedTasks s <> None -> currentCardId s <> None.

End Session.

(* ================================================================= *)
(** ** Description reconciler ([generateUpdatedDescription]) *)

(** The loop is written three times in the sources with the same text:
    in both revisions of [simple-auto-sync.ts] and in [slash-commands.ts].
    The copies differ in the pattern of a bulleted task line and in how a
    task is rendered, which are the two variables here. *)
Module Reconciler.
Section Loop.
Variable isTaskLine : Js.str -> bool.
Variable renderTask : TodoTask -> Js.str.

(** The guard of the second branch, without [inTaskSection]. *)
Definition isSectionEnd (line : Js.str) : bool :=
  let trimmed := Js.trim line in
  Js.eqb trimmed [] || Js.startsWith (Js.lit "#") trimmed
  || Js.startsWith (Js.lit "---") trimmed.

(** The [for (const line of lines)] loop.  Its state is [inTaskSection]
    and [taskSectionFound]; the result is what the loop pushes on
    [updatedLines], and the final [taskSectionFound]. *)
Fixpoint scan (tasks : list TodoTask) (inTaskSection taskSectionFound : bool)
    (lines : list Js.str) : list Js.str * bool :=
  match lines with
  | [] => ([], taskSectionFound)
  | line :: rest =>
      if isTaskLine line then
        scan tasks true (if inTaskSection then taskSectionFound else true) rest
      else if inTaskSection && isSectionEnd line then
        let (out, found) := scan tasks false taskSectionFound rest in
        (map renderTask tasks ++ line :: out, found)
      else
        let (out, found) := scan tasks inTaskSection taskSectionFound rest in
        (line :: out, found)
  end.

Definition generateUpdatedDescription (originalDescription : Js.str)
    (tasks : list TodoTask) : Js.str :=
  let lines := Js.split 10 originalDescription in
  let (updatedLines, taskSectionFound) := scan tasks false false lines in
  let updatedLines :=
    if negb taskSectionFound && (0 <? List.length tasks)
    then updatedLines ++ [[]; Js.lit "## Current Tasks"] ++ map renderTask tasks
    else updatedLines in
  Js.join Js.nl updatedLines.

End Loop.
End Reconciler.

Module Description.

Definition isBullet (c : N) : bool :=
  existsb (N.eqb c) (Js.lit "-*•").

Definition isDot (c : N) : bool := negb (Js.isLineTerminator c).

(** [/^[-*•]\s+[✅⚙️📋]?\s*(.+)/] *)
Definition reBullet : Re.t :=
  Re.Seq (Re.Sym isBullet)
    (Re.Seq (Re.plus (Re.Sym Js.isSpace))
       (Re.Seq (Re.opt (Re.Sym isIconUnit))
          (Re.Seq (Re.Star (Re.Sym Js.isSpace)) (Re.plus (Re.Sym isDot))))).

(** [/^\[[ x]\]\s+(.+)/] *)
Definition reCheckbox : Re.t :=
  Re.Seq (Re.Sym (N.eqb 91))
    (Re.Seq (Re.Sym (fun c => (c =? 32) || (c =? 120))%N)
       (Re.Seq (Re.Sym (N.eqb 93))
          (Re.Seq (Re.plus (Re.Sym Js.isSpace)) (Re.plus (Re.Sym isDot))))).

(** The first branch of the loop in [simple-auto-sync.ts]. *)
Definition isTaskLine (line : Js.str) : bool :=
  let trimmed := Js.trim line in
  Re.test reBullet trimmed || Re.test reCheckbox trimmed.

Definition isSectionEnd := Reconciler.isSectionEnd.

Definition getStatusIcon (st : Js.str) : Js.str :=
  if Js.eqb st s_completed then icon_completed
  else if Js.eqb st s_in_progress then icon_in_progress
  else icon_pending.

(** [content.replace(/^[✅⚙️📋]\s*/, '')] *)
Definition stripIcon (s : Js.str) : Js.str :=
  match s with
  | c :: r => if isIconUnit c then Js.dropWhile Js.isSpace r else s
  | [] => []
  end.

(** [`- ${statusIcon} ${cleanContent}`] *)
Definition renderTask (t : TodoTask) : Js.str :=
  Js.lit "- " ++ getStatusIcon (status t) ++ Js.lit " " ++ stripIcon (content t).

Definition scan := Reconciler.scan isTaskLine renderTask.

(** [SimpleAutoSyncService.generateUpdatedDescription], the same in both
    revisions. *)
Definition generateUpdatedDescription : Js.str -> list TodoTask -> Js.str :=
  Reconciler.generateUpdatedDescription isTaskLine renderTask.

End Description.

(* ================================================================= *)
(** ** Checklist matching ([findMatchingChecklistItem]) *)

Module Matching.

Definition isLowerAlnum (c : N) : bool :=
  (((97 <=? c) && (c <=? 122)) || ((48 <=? c) && (c <=? 57)))%N.

(** [s.replace(/\s+/g, ' ')]; [inRun] tells that the previous unit was
    white space, already replaced. *)
Fixpoint collapseSpaces (inRun : bool) (s : Js.str) : Js.str :=
  match s with
  | [] => []
  | c :: r =>
      if Js.isSpace c then
        if inRun then collapseSpaces true r else 32%N :: collapseSpaces true r
      else c :: collapseSpaces false r
  end.

Definition cleanTaskContent (content : Js.str) : Js.str :=
  let s := Description.stripIcon content in
  let s := Js.trim s in
  let s := Js.toLowerCase s in
  let s := filter (fun c => isLowerAlnum c || Js.isSpace c) s in
  collapseSpaces false s.

Definition exactMatch (cleanTodoContent : Js.str) (item : CheckItem) : bool :=
  Js.eqb (cleanTaskContent (item_name item)) cleanTodoContent.

Definition fuzzyMatch (cleanTodoContent : Js.str) (item : CheckItem) : bool :=
  let cleanItemName := cleanTaskContent (item_name item) in
  Js.includes cleanItemName cleanTodoContent
  || Js.includes cleanTodoContent cleanItemName.

Definition todoKeywords (cleanTodoContent : Js.str) : list Js.str :=
  filter (fun w => 3 <? List.length w) (Js.split 32 cleanTodoContent).

Definition keywordMatch (cleanTodoContent : Js.str) (item : CheckItem) : bool :=
  let cleanItemName := cleanTaskContent (item_name item) in
  existsb (fun keyword => Js.includes cleanItemName keyword)
    (todoKeywords cleanTodoContent).

Definition findMatchingChecklistItem (items : list CheckItem)
    (todoTaskContent : Js.str) : option CheckItem :=
  let cleanTodoContent := cleanTaskContent todoTaskContent in
  match find (exactMatch cleanTodoContent) items with
  | Some m => Some m
  | None =>
      match find (fuzzyMatch cleanTodoContent) items with
      | Some m => Some m
      | None => find (keywordMatch cleanTodoContent) items
      end
  end.

Definition shouldBeCompleted (t : TodoTask) : bool :=
  Js.eqb (status t) s_completed.

Definition isCurrentlyCompleted (item : CheckItem) : bool :=
  Js.eqb (item_state item) (Js.lit "complete").

Definition itemsOf (checklist : Checklist) : list CheckItem :=
  match checkItems checklist with
  | Some l => l
  | None => []
  end.

End Matching.

Definition countStatus (st : Js.str) (tasks : list TodoTask) : nat :=
  List.length (filter (fun t => Js.eqb (status t) st) tasks).

(* ================================================================= *)
(** ** Sync orchestrator ([SimpleAutoSyncService]) *)

Module AutoSync.
Section Service.
Context {R : Type} {client : BoardClient R}.
Import Eff.

Definition noActiveCard : SyncOutcome :=
  mkOutcome true (Js.lit "No active card") None None None.

Definition synced (tasks : list TodoTask) (nCompleted : nat) : SyncOutcome :=
  mkOutcome true
    (Js.lit "Synced " ++ Js.ofNat (List.length tasks) ++ Js.lit " tasks to Trello")
    (Some nCompleted) (Some (List.length tasks)) None.

(** The [catch] clause of [syncTasks]. *)
Definition failed (e : Thrown) : SyncOutcome :=
  let errorMessage := messageOrUnknown e in
  mkOutcome false (Js.lit "Auto-sync failed: " ++ errorMessage)
    None None (Some errorMessage).

(** The body of the inner loop of [syncChecklistsWithTodoWrite]. *)
Definition syncItem (cardId : Js.str) (items : list CheckItem)
    (todoTask : TodoTask) : M unit :=
  match Matching.findMatchingChecklistItem items (content todoTask) with
  | Some matchingItem =>
      let shouldBeCompleted := Matching.shouldBeCompleted todoTask in
      let isCurrentlyCompleted := Matching.isCurrentlyCompleted matchingItem in
      if Bool.eqb shouldBeCompleted isCurrentlyCompleted then ret tt
      else
        call (UpdateChecklistItem cardId (item_id matchingItem) shouldBeCompleted)
  | None => ret tt
  end.

Definition syncChecklistsWithTodoWrite (cardId : Js.str)
    (todoWriteTasks : list TodoTask) : M unit :=
  tryCatch
    (checklists <- call (GetCardChecklists cardId) ;;
     match checklists with
     | [] => ret tt
     | _ =>
         forEach checklists (fun checklist =>
           forEach todoWriteTasks (syncItem cardId (Matching.itemsOf checklist)))
     end)
    (fun error => log ERROR error ;;; ret tt).

Definition milestoneComment (nCompleted n : nat) : Js.str :=
  Js.lit "🎯 **Auto-sync Progress:** " ++ Js.ofNat nCompleted
  ++ Js.lit "/" ++ Js.ofNat n ++ Js.lit " tasks completed ✨".

Definition progressMessage (nCompleted nInProgress n : nat) : Js.str :=
  let m := Js.lit "📊 **Progress Update:** " ++ Js.ofNat nCompleted
           ++ Js.lit "/" ++ Js.ofNat n ++ Js.lit " completed" in
  if 0 <? nInProgress
  then m ++ Js.lit " (" ++ Js.ofNat nInProgress ++ Js.lit " in progress)"
  else m.

(** The [try] block of [syncTasks] in the revision with checklist sync
    and milestone comments. *)
Definition syncTasksBody (tasks : list TodoTask) : M SyncOutcome :=
  active <- onDisk (fun d => (Session.getActiveCard d, d)) ;;
  let '(cardId, cardName, _) := active in
  match cardId with
  | Some (c :: id) =>
      let cardId := c :: id in
      onDisk (fun d => (tt, Session.updateSessionTasks tasks d)) ;;;
      call Construct ;;;
      call Connect ;;;
      card <- call (GetCard cardId) ;;
      let updatedDescription :=
        Description.generateUpdatedDescription
          (Js.orElse (card_desc card) []) tasks in
      call (UpdateCard cardId None (Some updatedDescription)) ;;;
      syncChecklistsWithTodoWrite cardId tasks ;;;
      let nCompleted := countStatus s_completed tasks in
      (if (0 <? nCompleted)
          && ((nCompleted mod 2 =? 0) || (nCompleted =? List.length tasks))
       then call (AddComment cardId
                    (milestoneComment nCompleted (List.length tasks)))
       else ret tt) ;;;
      ret (synced tasks nCompleted)
  | _ => ret noActiveCard
  end.

Definition syncTasks (tasks : list TodoTask) : M SyncOutcome :=
  tryCatch (syncTasksBody tasks) (fun error => log ERROR error ;;; ret (failed error)).

End Service.
End AutoSync.

(** The description-only revision of the service: no checklist sync, and
    a progress comment on every sync. *)
Module AutoSyncDescOnly.
Section Service.
Context {R : Type} {client : BoardClient R}.
Import Eff.

Definition syncTasksBody (tasks : list TodoTask) : M SyncOutcome :=
  active <- onDisk (fun d => (Session.getActiveCard d, d)) ;;
  let '(cardId, cardName, _) := active in
  match cardId with
  | Some (c :: id) =>
      let cardId := c :: id in
      onDisk (fun d => (tt, Session.updateSessionTasks tasks d)) ;;;
      call Construct ;;;
      call Connect ;;;
      card <- call (GetCard cardId) ;;
      let updatedDescription :=
        Description.generateUpdatedDescription
          (Js.orElse (card_desc card) []) tasks in
      call (UpdateCard cardId None (Some updatedDescription)) ;;;
      let nCompleted := countStatus s_completed tasks in
      let nInProgress := countStatus s_in_progress tasks in
      call (AddComment cardId
              (AutoSync.progressMessage nCompleted nInProgress
                 (List.length tasks))) ;;;
      ret (AutoSync.synced tasks nCompleted)
  | _ => ret AutoSync.noActiveCard
  end.

Definition syncTasks (tasks : list TodoTask) : M SyncOutcome :=
  tryCatch (syncTasksBody tasks)
    (fun error => log ERROR error ;;; ret (AutoSync.failed error)).

End Service.
End AutoSyncDescOnly.

(* ================================================================= *)
(** ** Slash commands ([slash-commands.ts]) *)

Module SlashCommands.

(** [/^[-*•]\s+(.+)/] *)
Definition reBulletPlain : Re.t :=
  Re.Seq (Re.Sym Description.isBullet)
    (Re.Seq (Re.plus (Re.Sym Js.isSpace)) (Re.plus (Re.Sym Description.isDot))).

Definition isDigit (c : N) : bool := ((48 <=? c) && (c <=? 57))%N.

(** [/^[0-9]+\.\s+(.+)/] *)
Definition reNumbered : Re.t :=
  Re.Seq (Re.plus (Re.Sym isDigit))
    (Re.Seq (Re.Sym (N.eqb 46))
       (Re.Seq (Re.plus (Re.Sym Js.isSpace)) (Re.plus (Re.Sym Description.isDot)))).

(** [s.replace(/^[cls]+\s*/, '')] *)
Definition stripLeading (cls : N -> bool) (s : Js.str) : Js.str :=
  match s with
  | c :: _ => if cls c then Js.dropWhile Js.isSpace (Js.dropWhile cls s) else s
  | [] => []
  end.

Definition isTaskLine (line : Js.str) : bool :=
  let trimmed := Js.trim line in
  Re.test reBulletPlain trimmed || Re.test Description.reCheckbox trimmed.

Definition statusIcon (t : TodoTask) : Js.str :=
  if Js.eqb (status t) s_completed then icon_completed
  else if Js.eqb (status t) s_in_progress then icon_in_progress
  else icon_pending.

(** [`- ${statusIcon} ${task.content}`] *)
Definition renderTask (t : TodoTask) : Js.str :=
  Js.lit "- " ++ statusIcon t ++ Js.lit " " ++ content t.

Definition generateUpdatedDescription : Js.str -> list TodoTask -> Js.str :=
  Reconciler.generateUpdatedDescription isTaskLine renderTask.

Definition extractTask (line : Js.str) : list TodoTask :=
  let trimmed := Js.trim line in
  if Re.test reBulletPlain trimmed || Re.test Description.reCheckbox trimmed
     || Re.test reNumbered trimmed
  then
    let taskText :=
      stripLeading (fun c => existsb (N.eqb c) (Js.lit "-*•[] x.") || isDigit c)
        trimmed in
    let taskText := Description.stripIcon taskText in
    let isCompleted :=
      Js.includes trimmed (Js.lit "[x]") || Js.includes trimmed (Js.lit "✅") in
    let isInProgress :=
      Js.includes trimmed (Js.lit "⚙️")
      || Js.includes (Js.toLowerCase trimmed) (Js.lit "in progress") in
    let st := if isCompleted then s_completed
              else if isInProgress then s_in_progress else s_pending in
    [mkTask taskText st (Js.lit "Working on " ++ taskText)]
  else [].

Definition extractTasksFromPlan (planText : Js.str) : list TodoTask :=
  flat_map extractTask (Js.split 10 planText).

Definition parseTask (line : Js.str) : list TodoTask :=
  let trimmed := Js.trim line in
  if Re.test reBulletPlain trimmed || Re.test Description.reCheckbox trimmed
  then
    let taskText :=
      stripLeading (fun c => existsb (N.eqb c) (Js.lit "-*•[] x")) trimmed in
    let isCompleted :=
      Js.includes trimmed (Js.lit "[x]") || Js.includes trimmed (Js.lit "✅") in
    [mkTask taskText (if isCompleted then s_completed else s_pending)
       (Js.lit "Working on " ++ taskText)]
  else [].

Definition parseTasksFromDescription (description : Js.str) : list TodoTask :=
  flat_map parseTask (Js.split 10 description).

Definition isTitle (trimmed : Js.str) : bool :=
  (5 <? List.length trimmed) && (List.length trimmed <? 100)
  && negb (Js.startsWith (Js.lit "-") trimmed)
  && negb (Js.startsWith (Js.lit "*") trimmed).

Definition extractTitleFromPlan (planText : option Js.str) : Js.str :=
  match planText with
  | Some (c :: r) =>
      match find isTitle (map Js.trim (Js.split 10 (c :: r))) with
      | Some trimmed => stripLeading (N.eqb 35) trimmed
      | None => Js.lit "Development Task"
      end
  | _ => Js.lit "Development Task"
  end.

Definition formatPlanAsDescription (planText : option Js.str)
    (dateNow : nat) : Js.str :=
  match planText with
  | Some (c :: r) =>
      Js.join Js.nl
        [ Js.lit "## Development Plan";
          [];
          c :: r;
          [];
          Js.lit "---";
          Js.lit "*Created from Claude Code TodoWrite plan*";
          Js.lit "*Use /trello-pickup " ++ Js.ofNat dateNow
            ++ Js.lit " to resume work on this card*" ]
  | _ =>
      Js.join Js.nl
        [ Js.lit "## Development Task";
          [];
          Js.lit "*Created from Claude Code TodoWrite plan*";
          [];
          Js.lit "### Tasks";
          Js.lit "- Task planning in progress...";
          [];
          Js.lit "---";
          Js.lit "*Use /trello-pickup to resume work on this card*" ]
  end.

Definition generateProgressSummary (tasks : list TodoTask) : Js.str :=
  match tasks with
  | [] => Js.lit "📋 No tasks currently tracked"
  | _ =>
      let nCompleted := countStatus s_completed tasks in
      let nInProgress := countStatus s_in_progress tasks in
      let nPending := countStatus s_pending tasks in
      let summary :=
        Js.lit "**Progress:** " ++ Js.ofNat nCompleted ++ Js.lit "/"
        ++ Js.ofNat (List.length tasks) ++ Js.lit " completed" in
      let breakdown :=
        (if 0 <? nCompleted
         then [Js.lit "✅ " ++ Js.ofNat nCompleted ++ Js.lit " done"] else [])
        ++ (if 0 <? nInProgress
            then [Js.lit "⚙️ " ++ Js.ofNat nInProgress ++ Js.lit " in progress"]
            else [])
        ++ (if 0 <? nPending
            then [Js.lit "📋 " ++ Js.ofNat nPending ++ Js.lit " pending"]
            else []) in
      match breakdown with
      | [] => summary
      | _ => summary ++ Js.lit " (" ++ Js.join (Js.lit ", ") breakdown ++ Js.lit ")"
      end
  end.

(** [labelMappings] of [addRelevantLabels]: keywords, name, colour. *)
Definition labelMappings : list (list Js.str * Js.str * Js.str) :=
  [ ([Js.lit "bug"; Js.lit "fix"; Js.lit "error"; Js.lit "issue"],
     Js.lit "Bug", Js.lit "red");
    ([Js.lit "feature"; Js.lit "enhancement"; Js.lit "new"],
     Js.lit "Feature", Js.lit "green");
    ([Js.lit "refactor"; Js.lit "cleanup"; Js.lit "optimization"],
     Js.lit "Refactoring", Js.lit "yellow");
    ([Js.lit "test"; Js.lit "testing"; Js.lit "spec"],
     Js.lit "Testing", Js.lit "purple");
    ([Js.lit "doc"; Js.lit "documentation"; Js.lit "readme"],
     Js.lit "Documentation", Js.lit "blue");
    ([Js.lit "api"; Js.lit "endpoint"; Js.lit "service"],
     Js.lit "API", Js.lit "orange");
    ([Js.lit "ui"; Js.lit "frontend"; Js.lit "component"],
     Js.lit "Frontend", Js.lit "pink");
    ([Js.lit "backend"; Js.lit "database"; Js.lit "server"],
     Js.lit "Backend", Js.lit "lime") ].

Section Commands.
Context {R : Type} {client : BoardClient R}.
Import Eff.

(** [new Date(s).toLocaleString()], which depends on the locale of the
    process. *)
Variable toLocaleString : Js.str -> Js.str.

(** First loop of [addRelevantLabels]: the ids of the labels to add. *)
Fixpoint ensureLabels (titleLower contentLower : Js.str)
    (mappings : list (list Js.str * Js.str * Js.str)) : M (list Js.str) :=
  match mappings with
  | [] => ret []
  | (keywords, name, color) :: rest =>
      let hasKeyword :=
        existsb (fun keyword =>
                   Js.includes titleLower keyword
                   || Js.includes contentLower keyword) keywords in
      here <- (if hasKeyword
               then tryCatch (labelId <- call (EnsureLabel name color) ;;
                              ret [labelId])
                             (fun error => log WARN error ;;; ret [])
               else ret []) ;;
      more <- ensureLabels titleLower contentLower rest ;;
      ret (here ++ more)
  end.

Definition addRelevantLabels (cardId title content_ : Js.str) : M unit :=
  tryCatch
    (let titleLower := Js.toLowerCase title in
     let contentLower := Js.toLowerCase content_ in
     labelsToAdd <- ensureLabels titleLower contentLower labelMappings ;;
     forEach labelsToAdd (fun labelId =>
       tryCatch (call (AddLabelToCard cardId labelId))
         (fun error => log WARN error ;;; ret tt)))
    (fun error => log WARN error ;;; ret tt).

(** The inner loop body of [syncTasksToChecklists]; the first argument of
    [updateChecklistItem] is the id of the checklist here. *)
Definition syncItem (checklist : Checklist) (task : TodoTask) : M unit :=
  match find (fun item => Js.includes (item_name item) (content task)
                          || Js.includes (content task) (item_name item))
          (Matching.itemsOf checklist) with
  | Some matchingItem =>
      let shouldBeCompleted := Matching.shouldBeCompleted task in
      let isCurrentlyCompleted := Matching.isCurrentlyCompleted matchingItem in
      if Bool.eqb shouldBeCompleted isCurrentlyCompleted then ret tt
      else call (UpdateChecklistItem (checklist_id checklist)
                   (item_id matchingItem) shouldBeCompleted)
  | None => ret tt
  end.

Definition syncTasksToChecklists (cardId : Js.str) (tasks : list TodoTask)
  : M unit :=
  tryCatch
    (checklists <- call (GetCardChecklists cardId) ;;
     match checklists with
     | [] =>
         match tasks with
         | [] => ret tt
         | _ =>
             call (CreateChecklist cardId (Js.lit "Development Tasks")
                     (map content tasks)) ;;;
             ret tt
         end
     | _ =>
         forEach checklists (fun checklist =>
           forEach tasks (syncItem checklist))
     end)
    (fun error => log WARN error ;;; ret tt).

Definition getCurrentListName (card : TrelloCard) : M Js.str :=
  tryCatch
    (lists <- call GetLists ;;
     match find (fun l => Js.eqb (list_id l) (card_idList card)) lists with
     | Some currentList => ret (Js.orElse (Some (list_name currentList))
                                  (Js.lit "Unknown"))
     | None => ret (Js.lit "Unknown")
     end)
    (fun _ => ret (Js.lit "Unknown")).

(** [new RaveHubTrelloIntegration()] and its [initialize()], through
    [TodoTrelloSync.initialize]. *)
Definition initializeIntegration : M unit :=
  call Construct ;;;
  call GetConfig ;;;
  tryCatch
    (call GetConfig ;;;
     call Connect ;;;
     call AutoDiscoverLists ;;;
     healthy <- call HealthCheck ;;
     if healthy then ret tt
     else throw (ErrorObj (Js.lit
            "Failed to access Trello board. Check your configuration.")))
    (fun error => log ERROR error ;;; throw error).

Definition cardCreated (card : TrelloCard) (tasks : list TodoTask) : Js.str :=
  Js.join Js.nl
    [ Js.lit "✅ **Trello Card Created**";
      [];
      Js.lit "**Card:** [" ++ card_name card ++ Js.lit "](" ++ card_url card
        ++ Js.lit ")";
      Js.lit "**ID:** " ++ card_id card;
      Js.lit "**List:** TODO 📚";
      [];
      Js.lit "✨ **Enhanced features:**";
      Js.lit "- ☑️ Checklist created with " ++ Js.ofNat (List.length tasks)
        ++ Js.lit " development tasks";
      Js.lit "- 🏷️ Relevant labels automatically applied";
      Js.lit "- 🔗 Linked to your current session";
      [];
      Js.lit "**Next steps:**";
      Js.lit "- `/trello-pickup " ++ card_id card
        ++ Js.lit "` to work on this card (moves to DOING)";
      Js.lit "- `/trello-update` to sync TodoWrite progress to checklist";
      Js.lit "- `/trello-complete` when all work is finished" ].

Definition createCardFromPlanBody (planText : option Js.str) : M Js.str :=
  initializeIntegration ;;;
  call Construct ;;;
  call Connect ;;;
  let cardTitle :=
    Js.orElse (Some (extractTitleFromPlan planText)) (Js.lit "Development Task") in
  dateNow <- onDisk (fun d => (millis d, d)) ;;
  let cardDescription := formatPlanAsDescription planText dateNow in
  card <- call (CreateCard cardTitle (Some cardDescription) None) ;;
  let tasks := extractTasksFromPlan (Js.orElse planText []) in
  (match tasks with
   | [] => ret tt
   | _ =>
       call (CreateChecklist (card_id card) (Js.lit "Development Tasks")
               (map content tasks)) ;;;
       ret tt
   end) ;;;
  addRelevantLabels (card_id card) cardTitle (Js.orElse planText []) ;;;
  onDisk (fun d =>
    (tt, Session.setActiveCard (card_id card) (card_name card) (Some tasks) d)) ;;;
  ret (cardCreated card tasks).

Definition createCardFromPlan (planText : option Js.str) : M Js.str :=
  tryCatch (createCardFromPlanBody planText)
    (fun error =>
       log ERROR error ;;;
       ret (Js.lit "❌ Failed to create Trello card: " ++ messageOrUnknown error)).

Definition pickedUp (card : TrelloCard) (currentListName moveMessage : Js.str)
    (tasks : list TodoTask) : Js.str :=
  let taskList :=
    match tasks with
    | [] => Js.nl ++ Js.nl ++ Js.lit "*No structured tasks found in card description*"
    | _ =>
        Js.nl ++ Js.nl ++ Js.lit "**Extracted Tasks:**" ++ Js.nl
        ++ Js.join Js.nl
             (map (fun t => Js.lit "- " ++ content t ++ Js.lit " ("
                            ++ status t ++ Js.lit ")") tasks)
    end in
  Js.join Js.nl
    [ Js.lit "🎯 **Picked up Trello Card**";
      [];
      Js.lit "**Card:** [" ++ card_name card ++ Js.lit "](" ++ card_url card
        ++ Js.lit ")";
      Js.lit "**Current List:** " ++ currentListName ++ moveMessage;
      Js.lit "**Description:** "
        ++ Js.orElse (card_desc card) (Js.lit "*No description*") ++ taskList;
      [];
      Js.lit "🔗 This card is now your active work item. Use:";
      Js.lit "- Update your TodoWrite tasks and they'll sync to this card";
      Js.lit "- `/trello-complete` when all work is finished" ].

Definition multipleFound (searchResults : list TrelloCard) : Js.str :=
  let cardList :=
    Js.join Js.nl
      (map (fun c => Js.lit "- [" ++ card_name c ++ Js.lit "](" ++ card_url c
                     ++ Js.lit ") (" ++ card_id c ++ Js.lit ")")
         (firstn 5 searchResults)) in
  Js.join Js.nl
    [ Js.lit "🔍 Multiple cards found. Please be more specific or use card ID:";
      [];
      cardList;
      [];
      Js.lit "Use: `/trello-pickup <card-id>` with the specific ID" ].

(** [pickupCard] after the card has been looked up. *)
Definition pickupFound (cardIdentifier : Js.str) (found : option TrelloCard)
  : M Js.str :=
  match found with
  | None =>
      ret (Js.lit "❌ Card not found: " ++ Js.quote ++ cardIdentifier ++ Js.quote)
  | Some card =>
      inProgressListId <- call (GetListId inProgress) ;;
      let moves :=
        Js.truthy inProgressListId
        && negb (Js.eqb (card_idList card) (Js.orElse inProgressListId [])) in
      (if moves then
         call (MoveCard (card_id card) (Js.orElse inProgressListId [])) ;;;
         call (AddComment (card_id card)
                 (Js.lit "🚀 **Card picked up for active work**" ++ Js.nl ++ Js.nl
                  ++ Js.lit "*Moved to In Progress via Claude Code*"))
       else ret tt) ;;;
      let tasks := parseTasksFromDescription (Js.orElse (card_desc card) []) in
      onDisk (fun d =>
        (tt, Session.setActiveCard (card_id card) (card_name card)
               (Some tasks) d)) ;;;
      currentListName <-
        (if moves then ret (Js.lit "DOING ⚙️") else getCurrentListName card) ;;
      let moveMessage :=
        if moves
        then Js.nl ++ Js.lit "🚀 **Automatically moved to DOING column**"
        else [] in
      ret (pickedUp card currentListName moveMessage tasks)
  end.

Definition pickupCardBody (cardIdentifier : Js.str) : M Js.str :=
  call Construct ;;;
  call Connect ;;;
  if List.length cardIdentifier =? 24 then
    found <- tryCatch
               (card <- call (GetCard cardIdentifier) ;; ret (Some card))
               (fun _ =>
                  searchResults <- call (SearchCards cardIdentifier) ;;
                  ret (hd_error searchResults)) ;;
    pickupFound cardIdentifier found
  else
    searchResults <- call (SearchCards cardIdentifier) ;;
    match searchResults with
    | [] =>
        ret (Js.lit "❌ No card found matching: " ++ Js.quote ++ cardIdentifier
             ++ Js.quote)
    | [card] => pickupFound cardIdentifier (Some card)
    | _ => ret (multipleFound searchResults)
    end.

Definition pickupCard (cardIdentifier : Js.str) : M Js.str :=
  tryCatch (pickupCardBody cardIdentifier)
    (fun error =>
       log ERROR error ;;;
       ret (Js.lit "❌ Failed to pickup card: " ++ messageOrUnknown error)).

Definition noActiveCard : Js.str :=
  Js.lit "❌ No active Trello card in session. Use `/trello-pickup <card>` first.".

Definition completionComment (completionNote : option Js.str) : Js.str :=
  Js.lit "✅ **Task Completed**"
  ++ (if Js.truthy completionNote
      then Js.nl ++ Js.nl ++ Js.orElse completionNote [] else [])
  ++ Js.nl ++ Js.nl ++ Js.lit "*Completed via Claude Code integration*".

Definition cardCompleted (cardName : option Js.str) : Js.str :=
  Js.join Js.nl
    [ Js.lit "🎉 **Task Completed!**";
      [];
      Js.lit "**Card:** " ++ match cardName with
                             | Some n => n
                             | None => Js.lit "undefined"
                             end;
      Js.lit "**Status:** Moved to DONE! 🙌🏽";
      Js.lit "**Comment:** Added completion note";
      [];
      Js.lit "✨ Great work! The card is now marked as complete and the session has been cleared." ].

Definition completeCardBody (completionNote : option Js.str) : M Js.str :=
  active <- onDisk (fun d => (Session.getActiveCard d, d)) ;;
  let '(cardId, cardName, _) := active in
  match cardId with
  | Some (c :: id) =>
      let cardId := c :: id in
      call Construct ;;;
      call Connect ;;;
      doneListId <- call (GetListId done) ;;
      match doneListId with
      | Some (u :: l) =>
          call (MoveCard cardId (u :: l)) ;;;
          call (AddComment cardId (completionComment completionNote)) ;;;
          onDisk (fun d => (tt, Session.clearSession d)) ;;;
          ret (cardCompleted cardName)
      | _ =>
          ret (Js.lit "❌ Could not find " ++ Js.quote ++ Js.lit "Done" ++ Js.quote
               ++ Js.lit " list on board. Please check board structure.")
      end
  | _ => ret noActiveCard
  end.

Definition completeCard (completionNote : option Js.str) : M Js.str :=
  tryCatch (completeCardBody completionNote)
    (fun error =>
       log ERROR error ;;;
       ret (Js.lit "❌ Failed to complete card: " ++ messageOrUnknown error)).

Definition cardUpdated (cardName : option Js.str) (card : TrelloCard)
    (progressSummary : Js.str) : Js.str :=
  Js.join Js.nl
    [ Js.lit "📋 **Card Updated Successfully**";
      [];
      Js.lit "**Card:** [" ++ match cardName with
                              | Some n => n
                              | None => Js.lit "undefined"
                              end
        ++ Js.lit "](" ++ card_url card ++ Js.lit ")";
      Js.lit "**Progress:** " ++ progressSummary;
      [];
      Js.lit "🔄 **What was synced:**";
      Js.lit "- ☑️ Checklist items updated with TodoWrite task status";
      Js.lit "- 📝 Card description refreshed with current progress";
      Js.lit "- 💬 Progress comment added with completion summary";
      Js.lit "- ⏰ Card timestamp updated for activity tracking";
      [];
      Js.lit "Use `/trello-status` to view updated card details or `/trello-complete` when finished." ].

Definition progressComment (updateNote : option Js.str)
    (progressSummary : Js.str) : Js.str :=
  Js.lit "📋 **Progress Update**"
  ++ (if Js.truthy updateNote
      then Js.nl ++ Js.nl ++ Js.orElse updateNote [] else [])
  ++ Js.nl ++ Js.nl ++ progressSummary
  ++ Js.nl ++ Js.nl ++ Js.lit "*Updated via Claude Code TodoWrite sync*".

Definition updateCardBody (updateNote : option Js.str) : M Js.str :=
  active <- onDisk (fun d => (Session.getActiveCard d, d)) ;;
  let '(cardId, cardName, tasks) := active in
  match cardId with
  | Some (c :: id) =>
      let cardId := c :: id in
      let tasks := match tasks with Some l => l | None => [] end in
      call Construct ;;;
      call Connect ;;;
      card <- call (GetCard cardId) ;;
      let updatedDescription :=
        generateUpdatedDescription (Js.orElse (card_desc card) []) tasks in
      call (UpdateCard cardId None (Some updatedDescription)) ;;;
      syncTasksToChecklists cardId tasks ;;;
      let progressSummary := generateProgressSummary tasks in
      call (AddComment cardId (progressComment updateNote progressSummary)) ;;;
      ret (cardUpdated cardName card progressSummary)
  | _ => ret noActiveCard
  end.

Definition updateCard (updateNote : option Js.str) : M Js.str :=
  tryCatch (updateCardBody updateNote)
    (fun error =>
       log ERROR error ;;;
       ret (Js.lit "❌ Failed to update card: " ++ messageOrUnknown error)).

Definition statusNone : Js.str :=
  Js.join Js.nl
    [ Js.lit "📋 **Trello Session Status**";
      [];
      Js.lit "**Active Card:** None";
      Js.lit "**Status:** No card currently linked to session";
      [];
      Js.lit "Use `/trello-create` to create a card from your current plan, or `/trello-pickup <card>` to work on an existing card." ].

Definition statusOf (card : TrelloCard) (currentList : Js.str) : Js.str :=
  Js.join Js.nl
    [ Js.lit "📋 **Trello Session Status**";
      [];
      Js.lit "**Active Card:** [" ++ card_name card ++ Js.lit "]("
        ++ card_url card ++ Js.lit ")";
      Js.lit "**Current List:** " ++ currentList;
      Js.lit "**Card ID:** " ++ card_id card;
      Js.lit "**Last Modified:** " ++ toLocaleString (card_dateLastActivity card);
      [];
      Js.lit "**Available Commands:**";
      Js.lit "- `/trello-complete` - Move card to Done";
      Js.lit "- `/trello-pickup <other-card>` - Switch to different card";
      [];
      Js.lit "**Description:**";
      Js.orElse (card_desc card) (Js.lit "*No description*") ].

Definition showStatusBody : M Js.str :=
  active <- onDisk (fun d => (Session.getActiveCard d, d)) ;;
  let '(cardId, cardName, _) := active in
  match cardId with
  | Some (c :: id) =>
      let cardId := c :: id in
      call Construct ;;;
      call Connect ;;;
      card <- call (GetCard cardId) ;;
      currentList <- getCurrentListName card ;;
      ret (statusOf card currentList)
  | _ => ret statusNone
  end.

Definition showStatus : M Js.str :=
  tryCatch showStatusBody
    (fun error =>
       log ERROR error ;;;
       ret (Js.lit "❌ Failed to get status: " ++ messageOrUnknown error)).

End Commands.
End SlashCommands.

(* ================================================================= *)
(** ** Per-task sync ([services/todo-sync.ts]) *)

Module TodoSync.

(** [sessionTaskCards: Map<string, string>], in insertion order. *)
Definition TaskCards : Type := list (Js.str * Js.str).

Definition mapGet (m : TaskCards) (k : Js.str) : option Js.str :=
  option_map snd (find (fun e => Js.eqb (fst e) k) m).

Definition mapSet (m : TaskCards) (k v : Js.str) : TaskCards :=
  if existsb (fun e => Js.eqb (fst e) k) m
  then map (fun e => if Js.eqb (fst e) k then (k, v) else e) m
  else m ++ [(k, v)].

(** [getTargetListId]: the status mapper. *)
Definition getTargetListId (config : TrelloConfig) (st : Js.str)
  : option Js.str :=
  match listIds config with
  | None => None
  | Some ids =>
      if Js.eqb st s_pending then ids_todo ids
      else if Js.eqb st s_in_progress then ids_inProgress ids
      else if Js.eqb st s_completed then ids_done ids
      else ids_todo ids
  end.

(** The two characters a template literal makes of [\\n]. *)
Definition backslashN : Js.str := Js.lit "\n".

Definition buildCardDescription (task : TodoTask) (options : SyncOptions)
    (isoNow : Js.str) : Js.str :=
  Js.lit "**Task Status:** " ++ status task ++ backslashN
  ++ Js.lit "**Active Form:** " ++ activeForm task ++ backslashN ++ backslashN
  ++ (if includeTimestamps options
      then Js.lit "**Created:** " ++ isoNow ++ backslashN else [])
  ++ Js.lit "**Source:** TodoWrite Integration" ++ backslashN
  ++ Js.lit "**Session:** Development Task" ++ backslashN ++ backslashN
  ++ Js.lit "---" ++ backslashN
  ++ Js.lit "*This card was automatically created from a TodoWrite task. Updates will be synced during development sessions.*".

Definition skippedWith (cardId : option Js.str) (msg : Js.str) : SyncResult :=
  mkResult false cardId (Some msg) skipped.

Section Service.
Context {R : Type} {client : BoardClient R}.
Import Eff.

(** [this.config], read once by the constructor. *)
Variable config : TrelloConfig.

Definition createNewCard (cardsOf : TaskCards) (task : TodoTask)
    (options : SyncOptions) : M (SyncResult * TaskCards) :=
  tryCatch
    (match getTargetListId config (status task) with
     | Some (u :: l) =>
         isoNow <- onDisk (fun d => (now d, d)) ;;
         let description := buildCardDescription task options isoNow in
         card <- call (CreateCard (content task) (Some description) (Some (u :: l))) ;;
         ret (mkResult true (Some (card_id card)) None created,
              mapSet cardsOf (content task) (card_id card))
     | _ =>
         ret (skippedWith None
                (Js.lit "No list configured for status: " ++ status task),
              cardsOf)
     end)
    (fun error =>
       log ERROR error ;;;
       ret (skippedWith None (messageOrString error), cardsOf)).

Definition updateExistingCard (cardsOf : TaskCards) (cardId : Js.str)
    (task : TodoTask) (options : SyncOptions) : M (SyncResult * TaskCards) :=
  tryCatch
    (match getTargetListId config (status task) with
     | Some (u :: l) =>
         call (MoveCard cardId (u :: l)) ;;;
         isoNow <- onDisk (fun d => (now d, d)) ;;
         let description := buildCardDescription task options isoNow in
         call (UpdateCard cardId None (Some description)) ;;;
         call (AddComment cardId
                 (Js.lit "Status updated to: " ++ status task ++ Js.lit " ("
                  ++ activeForm task ++ Js.lit ")")) ;;;
         ret (mkResult true (Some cardId) None
                (if Js.eqb (status task) s_completed then moved else updated),
              cardsOf)
     | _ =>
         ret (skippedWith None
                (Js.lit "No list configured for status: " ++ status task),
              cardsOf)
     end)
    (fun error =>
       log ERROR error ;;;
       ret (skippedWith (Some cardId) (messageOrString error), cardsOf)).

Definition syncTask (cardsOf : TaskCards) (task : TodoTask)
    (options : SyncOptions) : M (SyncResult * TaskCards) :=
  tryCatch
    (match mapGet cardsOf (content task) with
     | Some (u :: l) => updateExistingCard cardsOf (u :: l) task options
     | _ => createNewCard cardsOf task options
     end)
    (fun error =>
       log ERROR error ;;;
       ret (skippedWith None (messageOrString error), cardsOf)).

End Service.
End TodoSync.

(* ================================================================= *)
(** ** A board to run the engine against *)

Module Board.

(** Modelled from the spec: the Board Client of the external interfaces
    ([getCard], [updateCard], [moveCard], [addComment], [searchCards],
    [getLists], [getChecklists], [createChecklist], [updateChecklistItem],
    [createCard]), whose transport is outside the engine and whose
    checklist methods are not among the sources.  The board keeps cards,
    the checklists of each card, the comments posted and the lists; a
    fault plan says which of the coming calls fail and with what. *)
Record t : Type := mk {
  cards : list TrelloCard;
  checklists : list (Js.str * list Checklist);
  comments : list (Js.str * Js.str);
  lists : list TrelloList;
  roles : ListIds;
  config : TrelloConfig;
  faults : list (option Thrown)
}.

Definition notFound : Thrown :=
  ErrorObj (Js.lit "Trello API error: 404 Not Found").

Definition findCard (b : t) (cardId : Js.str) : option TrelloCard :=
  find (fun c => Js.eqb (card_id c) cardId) (cards b).

Definition replaceCard (c : TrelloCard) (l : list TrelloCard) : list TrelloCard :=
  map (fun c' => if Js.eqb (card_id c') (card_id c) then c else c') l.

Definition withCards (b : t) (l : list TrelloCard) : t :=
  mk l (checklists b) (comments b) (lists b) (roles b) (config b) (faults b).

Definition withChecklists (b : t) (l : list (Js.str * list Checklist)) : t :=
  mk (cards b) l (comments b) (lists b) (roles b) (config b) (faults b).

Definition withComments (b : t) (l : list (Js.str * Js.str)) : t :=
  mk (cards b) (checklists b) l (lists b) (roles b) (config b) (faults b).

Definition withFaults (b : t) (l : list (option Thrown)) : t :=
  mk (cards b) (checklists b) (comments b) (lists b) (roles b) (config b) l.

Definition role (ids : ListIds) (r : ListRole) : option Js.str :=
  match r with
  | todo => ids_todo ids
  | inProgress => ids_inProgress ids
  | review => ids_review ids
  | done => ids_done ids
  end.

Definition checklistsOf (b : t) (cardId : Js.str) : list Checklist :=
  match find (fun e => Js.eqb (fst e) cardId) (checklists b) with
  | Some e => snd e
  | None => []
  end.

Definition stateOf (completed : bool) : Js.str :=
  if completed then Js.lit "complete" else Js.lit "incomplete".

Definition setItem (itemId : Js.str) (completed : bool) (i : CheckItem) : CheckItem :=
  if Js.eqb (item_id i) itemId
  then mkItem (item_id i) (item_name i) (stateOf completed)
  else i.

Definition setItemIn (itemId : Js.str) (completed : bool) (c : Checklist) : Checklist :=
  mkChecklist (checklist_id c) (checklist_name c)
    (option_map (map (setItem itemId completed)) (checkItems c)).

Definition setItemOn (cardId itemId : Js.str) (completed : bool)
    (e : Js.str * list Checklist) : Js.str * list Checklist :=
  if Js.eqb (fst e) cardId
  then (fst e, map (setItemIn itemId completed) (snd e))
  else e.

Definition addChecklist (cardId : Js.str) (c : Checklist)
    (l : list (Js.str * list Checklist)) : list (Js.str * list Checklist) :=
  if existsb (fun e => Js.eqb (fst e) cardId) l
  then map (fun e => if Js.eqb (fst e) cardId then (fst e, snd e ++ [c]) else e) l
  else l ++ [(cardId, [c])].

(** The answer of the board when the call does not fail. *)
Definition answer (c : Call) : t -> Result (Resp c) * t :=
  match c as c0 return t -> Result (Resp c0) * t with
  | Construct => fun b => (Ok tt, b)
  | GetConfig => fun b => (Ok (config b), b)
  | Connect => fun b => (Ok tt, b)
  | AutoDiscoverLists => fun b => (Ok tt, b)
  | HealthCheck => fun b => (Ok true, b)
  | GetCard cardId => fun b =>
      match findCard b cardId with
      | Some card => (Ok card, b)
      | None => (Throw notFound, b)
      end
  | UpdateCard cardId name description => fun b =>
      match findCard b cardId with
      | Some card =>
          let card' :=
            mkCard (card_id card)
              (Js.orElse name (card_name card))
              (if Js.truthy description then description else card_desc card)
              (card_idList card) (card_url card) (card_shortUrl card)
              (card_dateLastActivity card) in
          (Ok card', withCards b (replaceCard card' (cards b)))
      | None => (Throw notFound, b)
      end
  | MoveCard cardId targetListId => fun b =>
      match findCard b cardId with
      | Some card =>
          let card' :=
            mkCard (card_id card) (card_name card) (card_desc card)
              targetListId (card_url card) (card_shortUrl card)
              (card_dateLastActivity card) in
          (Ok card', withCards b (replaceCard card' (cards b)))
      | None => (Throw notFound, b)
      end
  | AddComment cardId comment => fun b =>
      match findCard b cardId with
      | Some _ => (Ok tt, withComments b (comments b ++ [(cardId, comment)]))
      | None => (Throw notFound, b)
      end
  | SearchCards query => fun b =>
      (Ok (filter (fun c => Js.includes (card_name c) query) (cards b)), b)
  | GetLists => fun b => (Ok (lists b), b)
  | GetListId listType => fun b => (Ok (role (roles b) listType), b)
  | CreateCard name description listId => fun b =>
      let fromConfig :=
        match listIds (config b) with
        | Some ids => ids_todo ids
        | None => None
        end in
      let target :=
        if Js.truthy listId then listId
        else if Js.truthy (ids_todo (roles b)) then ids_todo (roles b)
        else fromConfig in
      match target with
      | Some (u :: l) =>
          let newId := Js.lit "card" ++ Js.ofNat (List.length (cards b)) in
          let card :=
            mkCard newId name (Some (Js.orElse description []))
              (u :: l) (Js.lit "https://trello.com/c/" ++ newId)
              (Js.lit "https://trello.com/c/" ++ newId) [] in
          (Ok card, withCards b (cards b ++ [card]))
      | _ =>
          (Throw (ErrorObj (Js.lit
             "No target list ID specified and no default todo list configured")), b)
      end
  | GetCardChecklists cardId => fun b => (Ok (checklistsOf b cardId), b)
  | CreateChecklist cardId name itemNames => fun b =>
      let newId := Js.lit "checklist" ++ Js.ofNat (List.length (checklists b)) in
      let items :=
        map (fun n => mkItem (newId ++ Js.lit "/" ++ n) n (Js.lit "incomplete"))
          itemNames in
      let c := mkChecklist newId name (Some items) in
      (Ok c, withChecklists b (addChecklist cardId c (checklists b)))
  | UpdateChecklistItem cardId itemId completed => fun b =>
      (Ok tt, withChecklists b (map (setItemOn cardId itemId completed) (checklists b)))
  | EnsureLabel name color => fun b => (Ok (Js.lit "label/" ++ name), b)
  | AddLabelToCard cardId labelId => fun b => (Ok tt, b)
  end.

(** What a planned fault becomes.  [getListId] reads a cache and goes
    on.  [autoDiscoverLists] and [healthCheck] catch their own errors and
    log them, the first goes on and the second answers [false];
    [healthCheck] logs the message and the stack of an [Error] and the
    value itself otherwise.  [connect] logs the error and throws it
    again.  Where the logger cannot print the value, the method throws
    what the logger throws. *)
Definition failing (c : Call) (e : Thrown) : t -> Result (Resp c) * t :=
  match c as c0 return t -> Result (Resp c0) * t with
  | GetListId listType => answer (GetListId listType)
  | AutoDiscoverLists => fun b =>
      match Logger.stringify e with
      | Some thrown => (Throw thrown, b)
      | None => (Ok tt, b)
      end
  | HealthCheck => fun b =>
      if isError e then (Ok false, b)
      else match Logger.stringify e with
           | Some thrown => (Throw thrown, b)
           | None => (Ok false, b)
           end
  | Connect => fun b =>
      match Logger.stringify e with
      | Some thrown => (Throw thrown, b)
      | None => (Throw e, b)
      end
  | _ => fun b => (Throw e, b)
  end.

Definition run (c : Call) (b : t) : Result (Resp c) * t :=
  match faults b with
  | Some e :: plan => failing c e (withFaults b plan)
  | None :: plan => answer c (withFaults b plan)
  | [] => answer c b
  end.

#[global] Instance client : BoardClient t := run.

End Board.


(* ================================================================= *)
(** ** Predicates on computations *)

Section Predicates.
Context {R : Type}.

(** [m] leaves the session file alone. *)
Definition keepsDisk {A} (m : @Eff.M R A) : Prop :=
  forall w, disk (snd (m w)) = disk w.

(** [m] only appends to the log, and only events in [P]. *)
Definition emits {A} (P : Event -> Prop) (m : @Eff.M R A) : Prop :=
  forall w, exists l, calls (snd (m w)) = calls w ++ l /\ Forall P l.

(** The logger can print the value: [JSON.stringify] returns on it. *)
Definition printable (e : Thrown) : Prop := Logger.stringify e = None.

(** A call that was answered, or failed with a value the logger can
    print. *)
Definition printableEvent (ev : Event) : Prop :=
  match snd ev with
  | Some e => printable e
  | None => True
  end.

(** A call that was answered. *)
Definition answered (ev : Event) : Prop := snd ev = None.

(** [m] stops at the first call that fails and throws what that call
    threw: when it returns, every call was answered; when it throws, the
    last call failed with the value thrown and those before it were
    answered. *)
Definition failFast {A} (m : @Eff.M R A) : Prop :=
  forall w, exists l,
    calls (snd (m w)) = calls w ++ l
    /\ match fst (m w) with
       | Ok _ => Forall answered l
       | Throw e =>
           exists l0 k, l = l0 ++ [(k, Some e)] /\ Forall answered l0
       end.

(** What the code itself throws: the error of [TodoTrelloSync.initialize]
    when the health check fails, or nothing. *)
Definition healthCheckFailed (e : Thrown) : Prop :=
  e = ErrorObj (Js.lit "Failed to access Trello board. Check your configuration.").

Definition nothingElse (e : Thrown) : Prop := False.

(** When every call that failed during the run failed with a value the
    logger can print: what [m] throws is the value one of these calls
    threw, or a value in [X] (what the code itself throws). *)
Definition traced {A} (X : Thrown -> Prop) (m : @Eff.M R A) : Prop :=
  forall w, exists l,
    calls (snd (m w)) = calls w ++ l
    /\ (Forall printableEvent l ->
        forall e, fst (m w) = Throw e ->
          (exists k, In (k, Some e) l) \/ X e).

(** [op] is a boundary around [body]: it leaves the world that [body]
    leaves and, when every call that failed during the run failed with a
    value the logger can print, it returns what [body] returns, or else
    [onError e] for the value [e] that [body] throws, which is then the
    value one of the calls threw, or a value in [X]. *)
Definition reports {A} (X : Thrown -> Prop) (body op : @Eff.M R A)
    (onError : Thrown -> A) : Prop :=
  forall w, exists l,
    calls (snd (op w)) = calls w ++ l
    /\ snd (op w) = snd (body w)
    /\ (Forall printableEvent l ->
        match fst (body w) with
        | Ok a => fst (op w) = Ok a
        | Throw e =>
            fst (op w) = Ok (onError e)
            /\ ((exists k, In (k, Some e) l) \/ X e)
        end).

End Predicates.

Definition isAddComment (c : Call) : bool :=
  match c with
  | AddComment _ _ => true
  | _ => false
  end.

(** The calls of the checklist reconciler, whose failures it catches. *)
Definition isChecklistCall (c : Call) : bool :=
  match c with
  | GetCardChecklists _ | UpdateChecklistItem _ _ _ => true
  | _ => false
  end.

Definition checklistEvent (ev : Event) : Prop := isChecklistCall (fst ev) = true.

Definition progress_1_of_3 : Js.str :=
  Js.lit "📊 **Progress Update:** 1/3 completed (1 in progress)".

(* ================================================================= *)
(** ** The checklist reconciler as a list of writes *)

(** An event that is no write to the item [itemId] of the card. *)
Definition sparesItem (cardId itemId : Js.str) (ev : Event) : Prop :=
  forall b, fst ev <> UpdateChecklistItem cardId itemId b.

(** The writes one task causes on the items of one checklist. *)
Definition writesOfTask (items : list CheckItem) (t : TodoTask)
  : list (Js.str * bool) :=
  match Matching.findMatchingChecklistItem items (content t) with
  | Some i =>
      if Bool.eqb (Matching.shouldBeCompleted t) (Matching.isCurrentlyCompleted i)
      then []
      else [(item_id i, Matching.shouldBeCompleted t)]
  | None => []
  end.

Definition writesOf (checklists : list Checklist) (tasks : list TodoTask)
  : list (Js.str * bool) :=
  flat_map (fun cl => flat_map (writesOfTask (Matching.itemsOf cl)) tasks)
    checklists.

Definition applyWrite (cardId : Js.str) (b : Board.t) (u : Js.str * bool)
  : Board.t :=
  Board.withChecklists b
    (map (Board.setItemOn cardId (fst u) (snd u)) (Board.checklists b)).

Definition writeEvent (cardId : Js.str) (u : Js.str * bool) : Event :=
  (UpdateChecklistItem cardId (fst u) (snd u), None).

Definition stateAfter (us : list (Js.str * bool)) (x init : Js.str) : Js.str :=
  fold_left (fun s u => if Js.eqb x (fst u) then Board.stateOf (snd u) else s)
    us init.

Definition finalItem (us : list (Js.str * bool)) (i : CheckItem) : CheckItem :=
  mkItem (item_id i) (item_name i) (stateAfter us (item_id i) (item_state i)).

Definition finalChecklist (us : list (Js.str * bool)) (cl : Checklist)
  : Checklist :=
  mkChecklist (checklist_id cl) (checklist_name cl)
    (option_map (map (finalItem us)) (checkItems cl)).


(* ================================================================= *)
(** ** Further notions for the description reconciler *)

(** A line as [split('\n')] gives it: without the separator. *)
Definition noNewline (l : Js.str) : Prop := ~ In 10%N l.

Module ReconcilerState.
Section Loop.
Variable isTaskLine : Js.str -> bool.
Variable renderTask : TodoTask -> Js.str.

(** The value of [inTaskSection] when the loop of
    [generateUpdatedDescription] is over. *)
Fixpoint endsInSection (inTaskSection : bool) (lines : list Js.str) : bool :=
  match lines with
  | [] => inTaskSection
  | line :: rest =>
      if isTaskLine line then endsInSection true rest
      else if inTaskSection && Reconciler.isSectionEnd line
           then endsInSection false rest
           else endsInSection inTaskSection rest
  end.

(** [updatedLines] at the [return] of [generateUpdatedDescription],
    before it is joined. *)
Definition updatedLines (originalDescription : Js.str)
    (tasks : list TodoTask) : list Js.str :=
  let lines := Js.split 10 originalDescription in
  let (updatedLines, taskSectionFound) :=
    Reconciler.scan isTaskLine renderTask tasks false false lines in
  if negb taskSectionFound && (0 <? List.length tasks)
  then updatedLines ++ [[]; Js.lit "## Current Tasks"] ++ map renderTask tasks
  else updatedLines.

End Loop.
End ReconcilerState.


(* ================================================================= *)
(** ** The client's discovery of lists ([autoDiscoverLists]) *)

Module Client.

(** [nameMatches], in the order of [Object.entries]. *)
Definition nameMatches : list (ListRole * list Js.str) :=
  [ (todo, [Js.lit "to do"; Js.lit "todo"; Js.lit "backlog"; Js.lit "planned"]);
    (inProgress,
     [Js.lit "in progress"; Js.lit "doing"; Js.lit "active"; Js.lit "current"]);
    (review,
     [Js.lit "review"; Js.lit "testing"; Js.lit "qa"; Js.lit "pending review"]);
    (done,
     [Js.lit "done"; Js.lit "completed"; Js.lit "finished"; Js.lit "closed"]) ].

(** The inner [for] loop with its [break]: the first key one of whose
    patterns the lower-cased name includes. *)
Definition matchRole (listName : Js.str) : option ListRole :=
  option_map fst
    (find (fun entry =>
             existsb (fun pattern => Js.includes listName pattern) (snd entry))
       nameMatches).

(** [this.listIds[key]] *)
Definition listId (ids : ListIds) (key : ListRole) : option Js.str :=
  match key with
  | todo => ids_todo ids
  | inProgress => ids_inProgress ids
  | review => ids_review ids
  | done => ids_done ids
  end.

(** [this.listIds[key] = id] *)
Definition setListId (ids : ListIds) (key : ListRole) (id : Js.str) : ListIds :=
  match key with
  | todo => mkListIds (Some id) (ids_inProgress ids) (ids_review ids) (ids_done ids)
  | inProgress => mkListIds (ids_todo ids) (Some id) (ids_review ids) (ids_done ids)
  | review => mkListIds (ids_todo ids) (ids_inProgress ids) (Some id) (ids_done ids)
  | done => mkListIds (ids_todo ids) (ids_inProgress ids) (ids_review ids) (Some id)
  end.

(** The body of the outer loop, for one list of the board. *)
Definition discoverList (ids : ListIds) (list : TrelloList) : ListIds :=
  match matchRole (Js.toLowerCase (list_name list)) with
  | Some key => setListId ids key (list_id list)
  | None => ids
  end.

(** The cache [this.listIds] after [autoDiscoverLists] has gone through
    the lists that [getLists] returned. *)
Definition autoDiscoverLists (lists : list TrelloList) (ids : ListIds) : ListIds :=
  fold_left discoverList lists ids.

(** [getListId]: [this.listIds[listType] || null]. *)
Definition getListId (ids : ListIds) (listType : ListRole) : option Js.str :=
  if Js.truthy (listId ids listType) then listId ids listType else None.

End Client.

(* ================================================================= *)
(** ** Batches of per-task syncs ([TodoTrelloSync.syncTasks]) *)

Module TodoSyncBatch.
Section Service.
Context {R : Type} {client : BoardClient R}.
Import Eff.

Variable config : TrelloConfig.

(** The loop of [syncTasks]; the pause between two tasks only takes
    time and is left out. *)
Fixpoint syncTasks (cardsOf : TodoSync.TaskCards) (tasks : list TodoTask)
    (options : SyncOptions) : M (list SyncResult * TodoSync.TaskCards) :=
  match tasks with
  | [] => ret ([], cardsOf)
  | task :: rest =>
      step <- TodoSync.syncTask config cardsOf task options ;;
      more <- syncTasks (snd step) rest options ;;
      ret (fst step :: fst more, snd more)
  end.

End Service.
End TodoSyncBatch.

(* ================================================================= *)
(** ** Which calls an operation may make *)

(** The calls of a sync, all of them on one card. *)
Definition syncCallOn (cardId : Js.str) (c : Call) : bool :=
  match c with
  | Construct | Connect => true
  | GetCard i | UpdateCard i _ _ | AddComment i _
  | GetCardChecklists i | UpdateChecklistItem i _ _ => Js.eqb i cardId
  | _ => false
  end.

Definition isLabelCall (c : Call) : bool :=
  match c with
  | EnsureLabel _ _ | AddLabelToCard _ _ => true
  | _ => false
  end.


(** An event of a call that a sync of the card [cardId] may make. *)
Definition onCard (cardId : Js.str) (ev : Event) : Prop :=
  syncCallOn cardId (fst ev) = true.

(** A [createCard] event whose card has a title: not the empty string
    and shorter than 100 code units. *)
Definition titled (ev : Event) : Prop :=
  match fst ev with
  | CreateCard name _ _ => name <> [] /\ List.length name < 100
  | _ => True
  end.

Definition labelEvent (ev : Event) : Prop := isLabelCall (fst ev) = true.

(** A call that updates the card [cardId] of a task. *)
Definition updatesCard (cardId : Js.str) (ev : Event) : Prop :=
  match fst ev with
  | MoveCard i _ | UpdateCard i _ _ | AddComment i _ => i = cardId
  | _ => False
  end.

(** The calls of [TodoTrelloSync.syncTask]. *)
Definition taskCardEvent (ev : Event) : Prop :=
  match fst ev with
  | CreateCard _ _ _ | MoveCard _ _ | UpdateCard _ _ _ | AddComment _ _ => True
  | _ => False
  end.

(* ================================================================= *)
(** * Concrete tasks, sessions and boards *)

Module Examples.

Definition task_done : TodoTask :=
  mkTask (Js.lit "Create user authentication") s_completed
    (Js.lit "Creating user authentication").

Definition task_doing : TodoTask :=
  mkTask (Js.lit "Build API endpoints") s_in_progress
    (Js.lit "Building API endpoints").

Definition task_todo : TodoTask :=
  mkTask (Js.lit "Write tests") s_pending (Js.lit "Writing tests").

Definition disk_tracking : Disk :=
  mkDisk
    (Stored (mkSession (Some (Js.lit "card_123")) (Some (Js.lit "Test Card"))
               (Some [task_todo])
               (Some (Js.lit "2024-01-01T00:00:00.000Z")) None))
    true (Js.lit "2024-01-02T00:00:00.000Z") 17 None.


Definition three_tasks : list TodoTask := [task_done; task_doing; task_todo].

Definition card_123 : TrelloCard :=
  mkCard (Js.lit "card_123") (Js.lit "Test Card")
    (Some (Js.join Js.nl
             [ Js.lit "## Development Plan";
               [];
               Js.lit "- 📋 Task 1: Create user authentication";
               Js.lit "- ⚙️ Task 2: Build API endpoints";
               Js.lit "- ✅ Task 3: Write tests";
               [];
               Js.lit "---";
               Js.lit "*Created from Claude Code TodoWrite plan*" ]))
    (Js.lit "list_in_progress")
    (Js.lit "https://trello.com/c/card123")
    (Js.lit "https://trello.com/c/card123")
    (Js.lit "2024-01-01T00:00:00Z").

Definition some_lists : ListIds :=
  mkListIds (Some (Js.lit "list_todo_123")) (Some (Js.lit "list_progress_456"))
    None (Some (Js.lit "list_done_789")).

Definition some_config : TrelloConfig :=
  mkConfig (Js.lit "test_api_key") (Js.lit "test_token")
    (Js.lit "test_board_id") (Some some_lists).

Definition board_one : Board.t :=
  Board.mk [card_123] [] []
    [ mkList (Js.lit "list_todo_123") (Js.lit "To Do") 1;
      mkList (Js.lit "list_progress_456") (Js.lit "In Progress") 2;
      mkList (Js.lit "list_done_789") (Js.lit "Done") 3 ]
    some_lists some_config [].

Definition disk_none : Disk :=
  mkDisk Absent true (Js.lit "2024-01-02T00:00:00.000Z") 17 None.

Definition world_active : World Board.t := mkWorld disk_tracking board_one [].

Definition world_no_card : World Board.t := mkWorld disk_none board_one [].

(** The third call, which is [getCard] in a sync, fails. *)
Definition world_getCard_fails : World Board.t :=
  mkWorld disk_tracking
    (Board.withFaults board_one
       [None; None;
        Some (ErrorObj (Js.lit "Trello API error: 500 Internal Server Error"))])
    [].

(** The fourth call, which is [moveCard] in a completion, fails. *)
Definition world_move_fails : World Board.t :=
  mkWorld disk_tracking
    (Board.withFaults board_one
       [None; None; None; Some (ErrorObj (Js.lit "Trello API error: 429 Too Many Requests"))])
    [].

(** [moveCard] fails with a value that is no [Error]. *)
Definition world_move_throws_text : World Board.t :=
  mkWorld disk_tracking
    (Board.withFaults board_one
       [None; None; None; Some (OtherValue (Js.lit "rate limited"))])
    [].

(** An [Error] that holds a reference to itself, which [JSON.stringify]
    refuses with a [TypeError]. *)
Definition circular_error : Thrown :=
  Unprintable (ErrorObj (Js.lit "Trello API error: 429 Too Many Requests"))
    (ErrorObj (Js.lit "Converting circular structure to JSON")).

Definition world_move_throws_circular : World Board.t :=
  mkWorld disk_tracking
    (Board.withFaults board_one [None; None; None; Some circular_error])
    [].

(** Checklist items and tasks named after the scenarios of the spec. *)
Definition item_login : CheckItem :=
  mkItem (Js.lit "item_1") (Js.lit "Create login endpoint") (Js.lit "incomplete").

Definition item_tests : CheckItem :=
  mkItem (Js.lit "item_2") (Js.lit "Write tests") (Js.lit "incomplete").

Definition item_tests_done : CheckItem :=
  mkItem (Js.lit "item_2") (Js.lit "Write tests") (Js.lit "complete").

Definition checklist_dev : Checklist :=
  mkChecklist (Js.lit "checklist_1") (Js.lit "Development Tasks")
    (Some [item_login; item_tests]).

Definition task_login : TodoTask :=
  mkTask (Js.lit "create login endpoint") s_completed
    (Js.lit "Creating login endpoint").

Definition board_with (cls : list Checklist) : Board.t :=
  Board.mk [card_123] [(Js.lit "card_123", cls)] []
    (Board.lists board_one) some_lists some_config [].

Definition world_with (cls : list Checklist) : World Board.t :=
  mkWorld disk_tracking (board_with cls) [].

(** Two tasks that the matcher sends to the same item: the second one
    contains the name of the item. *)
Definition task_tests_done : TodoTask :=
  mkTask (Js.lit "Write tests") s_completed (Js.lit "Writing tests").

Definition task_tests_login : TodoTask :=
  mkTask (Js.lit "Write tests for login") s_pending
    (Js.lit "Writing tests for login").

(** Two tasks with different contents and one normalised content. *)
Definition task_tests_again : TodoTask :=
  mkTask (Js.lit "write tests!") s_pending (Js.lit "Writing tests").

(** Two checklists, each with the item of one task. *)
Definition item_api : CheckItem :=
  mkItem (Js.lit "item_a") (Js.lit "Add API") (Js.lit "incomplete").

Definition item_api_client : CheckItem :=
  mkItem (Js.lit "item_b") (Js.lit "Add API client") (Js.lit "incomplete").

Definition checklist_backend : Checklist :=
  mkChecklist (Js.lit "checklist_a") (Js.lit "Backend") (Some [item_api]).

Definition checklist_frontend : Checklist :=
  mkChecklist (Js.lit "checklist_b") (Js.lit "Frontend") (Some [item_api_client]).

Definition task_api : TodoTask :=
  mkTask (Js.lit "Add API") s_completed (Js.lit "Adding API").

(** A card split into a backend and a frontend checklist. *)
Definition item_ui : CheckItem :=
  mkItem (Js.lit "item_c") (Js.lit "Build UI") (Js.lit "incomplete").

Definition checklist_ui : Checklist :=
  mkChecklist (Js.lit "checklist_c") (Js.lit "Frontend") (Some [item_ui]).

Definition task_ui : TodoTask :=
  mkTask (Js.lit "Build UI") s_completed (Js.lit "Building UI").

Definition task_api_client : TodoTask :=
  mkTask (Js.lit "Add API client") s_pending (Js.lit "Adding API client").

(** Scenario A of the spec. *)
Definition body_plan : Js.str :=
  Js.join Js.nl
    [ Js.lit "## Plan"; Js.lit "- 📋 old task"; []; Js.lit "---"; Js.lit "footer" ].

Definition task_new : TodoTask :=
  mkTask (Js.lit "new task") s_completed (Js.lit "Doing the new task").

(** The description without tasks of the test suite. *)
Definition body_no_tasks : Js.str :=
  Js.join Js.nl
    [ Js.lit "## Development Plan"; [];
      Js.lit "Just a description without tasks."; [];
      Js.lit "---"; Js.lit "*Some footer*" ].

Definition task_first : TodoTask :=
  mkTask (Js.lit "First task") s_pending (Js.lit "Starting first task").


(** A configuration without list ids. *)
Definition config_no_lists : TrelloConfig :=
  mkConfig (Js.lit "test_api_key") (Js.lit "test_token")
    (Js.lit "test_board_id") None.

Definition options_plain : SyncOptions := mkOptions false true false false.

(** What [syncTask] returns for the first task on the board with one
    card: the result, and the map of the session. *)
Definition result_first : SyncResult :=
  mkResult true (Some (Js.lit "card1")) None created.

Definition cards_first : TodoSync.TaskCards :=
  [(Js.lit "First task", Js.lit "card1")].

Definition task_first_done : TodoTask :=
  mkTask (Js.lit "First task") s_completed (Js.lit "Finishing first task").
End Examples.
(* ================================================================= *)
(** * Properties *)

(** Splits a conjunction into its parts, and nothing else. *)
Ltac conjuncts := repeat match goal with |- _ /\ _ => split end.

(** ** Strings *)

Lemma Js_eqb_eq (a b : Js.str) : Js.eqb a b = true <-> a = b.
Proof.
  unfold Js.eqb. destruct (list_eq_dec N.eq_dec a b); split; congruence.
Qed.

Lemma Js_eqb_refl (a : Js.str) : Js.eqb a a = true.
Proof. now apply Js_eqb_eq. Qed.

Lemma Js_eqb_neq (a b : Js.str) : Js.eqb a b = false <-> a <> b.
Proof.
  unfold Js.eqb. destruct (list_eq_dec N.eq_dec a b); split; congruence.
Qed.

Lemma truthy_Some (o : option Js.str) :
  Js.truthy o = true -> exists c s, o = Some (c :: s).
Proof.
  destruct o as [[|c s]|]; simpl; try discriminate. intros _. now exists c, s.
Qed.

(* ----------------------------------------------------------------- *)
(** ** Session store *)

Section SessionFacts.
Import Session.

Lemma load_writeFileSync (d : Disk) (s : SessionState) :
  loadSession (writeFileSync d s) = if writable d then s else loadSession d.
Proof. unfold writeFileSync. now destruct (writable d). Qed.

Lemma updateSessionTasks_no_card (tasks : list TodoTask) (d : Disk) :
  Js.truthy (currentCardId (loadSession d)) = false ->
  updateSessionTasks tasks d = d.
Proof. unfold updateSessionTasks. now intros ->. Qed.

End SessionFacts.

(** C10.  Each of [setActiveCard], [updateSessionTasks] and [clearSession]
    keeps the invariant that a stored session with a tracked-task list
    also has an active card id; and [updateSessionTasks] leaves the disk,
    hence the whole session, as it was when no active card id is set. *)
Theorem session_invariant_preserved (d : Disk) :
  Session.tasksHaveCard (Session.loadSession d) ->
  (forall cardId cardName tasks,
      Session.tasksHaveCard
        (Session.loadSession (Session.setActiveCard cardId cardName tasks d)))
  /\ (forall tasks,
      Session.tasksHaveCard
        (Session.loadSession (Session.updateSessionTasks tasks d)))
  /\ Session.tasksHaveCard (Session.loadSession (Session.clearSession d))
  /\ (forall tasks,
      Js.truthy (currentCardId (Session.loadSession d)) = false ->
      Session.updateSessionTasks tasks d = d).
Proof.
  intros inv. repeat split.
  - intros cardId cardName tasks.
    unfold Session.setActiveCard, Session.saveSession.
    rewrite load_writeFileSync. destruct (writable d); [|exact inv].
    unfold Session.tasksHaveCard. simpl. discriminate.
  - intros tasks. unfold Session.updateSessionTasks.
    destruct (Js.truthy (currentCardId (Session.loadSession d))) eqn:T;
      [|exact inv].
    unfold Session.saveSession. rewrite load_writeFileSync.
    destruct (writable d); [|exact inv].
    unfold Session.tasksHaveCard. simpl. intros _.
    destruct (truthy_Some _ T) as (c & s & ->). discriminate.
  - unfold Session.clearSession.
    destruct (Session.existsSync d); [|exact inv].
    rewrite load_writeFileSync. destruct (writable d); [|exact inv].
    unfold Session.tasksHaveCard. simpl. congruence.
  - intros tasks. apply updateSessionTasks_no_card.
Qed.

Lemma session_invariant_preserved_witness :
  Session.tasksHaveCard
    (Session.loadSession (Session.updateSessionTasks [] Examples.disk_tracking))
  /\ Session.tasksHaveCard
       (Session.loadSession (Session.clearSession Examples.disk_tracking)).
Proof.
  assert (inv : Session.tasksHaveCard (Session.loadSession Examples.disk_tracking)).
  { unfold Session.tasksHaveCard. simpl. discriminate. }
  pose proof (session_invariant_preserved Examples.disk_tracking inv) as (_ & U & C & _).
  split; [apply U | exact C].
Defined.

(* ----------------------------------------------------------------- *)
(** ** What a computation does to the disk and the log *)

Section MonadFacts.
Context {R : Type} {client : BoardClient R}.
Import Eff.
Local Abbreviation M := (@Eff.M R).

Lemma world_eta (w : World R) : mkWorld (disk w) (board w) (calls w) = w.
Proof. now destruct w. Qed.

Lemma keepsDisk_ret {A} (a : A) : keepsDisk (ret a : M A).
Proof. now intros w. Qed.

Lemma keepsDisk_throw {A} (e : Thrown) : keepsDisk (@throw R A e).
Proof. now intros w. Qed.

Lemma keepsDisk_call (c : Call) : keepsDisk (call c : M _).
Proof. intros w. unfold call. now destruct (exec c (board w)). Qed.

Lemma keepsDisk_bind {A B} (m : M A) (k : A -> M B) :
  keepsDisk m -> (forall a, keepsDisk (k a)) -> keepsDisk (bind m k).
Proof.
  intros Hm Hk w. unfold bind. specialize (Hm w).
  destruct (m w) as [[a|e] w1]; simpl in *; [|exact Hm].
  now rewrite Hk.
Qed.

Lemma keepsDisk_tryCatch {A} (m : M A) (h : Thrown -> M A) :
  keepsDisk m -> (forall e, keepsDisk (h e)) -> keepsDisk (tryCatch m h).
Proof.
  intros Hm Hh w. unfold tryCatch. specialize (Hm w).
  destruct (m w) as [[a|e] w1]; simpl in *; [exact Hm|].
  now rewrite Hh.
Qed.

Lemma keepsDisk_forEach {A} (l : list A) (f : A -> M unit) :
  (forall x, In x l -> keepsDisk (f x)) -> keepsDisk (forEach l f).
Proof.
  induction l as [|x l IH]; intros H; simpl.
  - apply keepsDisk_ret.
  - apply keepsDisk_bind; [apply H; now left|].
    intros _. apply IH. intros y Hy. apply H. now right.
Qed.

Lemma emits_ret {A} P (a : A) : emits P (ret a : M A).
Proof. intros w. exists []. simpl. now rewrite app_nil_r. Qed.

Lemma emits_throw {A} P (e : Thrown) : emits P (@throw R A e).
Proof. intros w. exists []. simpl. now rewrite app_nil_r. Qed.

Lemma emits_onDisk {A} P (f : Disk -> A * Disk) : emits P (onDisk f : M A).
Proof.
  intros w. exists []. unfold onDisk. destruct (f (disk w)). simpl.
  now rewrite app_nil_r.
Qed.

Lemma emits_call (P : Event -> Prop) (c : Call) :
  (forall o, P (c, o)) -> emits P (call c : M _).
Proof.
  intros H w. unfold call. destruct (exec c (board w)) as [r b]. simpl.
  eexists. split; [reflexivity|]. constructor; [apply H|constructor].
Qed.

Lemma emits_bind {A B} P (m : M A) (k : A -> M B) :
  emits P m -> (forall a, emits P (k a)) -> emits P (bind m k).
Proof.
  intros Hm Hk w. unfold bind. destruct (Hm w) as (l & E & F).
  destruct (m w) as [[a|e] w1]; simpl in *.
  - destruct (Hk a w1) as (l' & E' & F'). exists (l ++ l').
    rewrite E', E, app_assoc. split; [reflexivity|]. now apply Forall_app.
  - now exists l.
Qed.

Lemma emits_tryCatch {A} P (m : M A) (h : Thrown -> M A) :
  emits P m -> (forall e, emits P (h e)) -> emits P (tryCatch m h).
Proof.
  intros Hm Hh w. unfold tryCatch. destruct (Hm w) as (l & E & F).
  destruct (m w) as [[a|e] w1]; simpl in *.
  - now exists l.
  - destruct (Hh e w1) as (l' & E' & F'). exists (l ++ l').
    rewrite E', E, app_assoc. split; [reflexivity|]. now apply Forall_app.
Qed.

Lemma emits_forEach {A} P (l : list A) (f : A -> M unit) :
  (forall x, In x l -> emits P (f x)) -> emits P (forEach l f).
Proof.
  induction l as [|x l IH]; intros H; simpl.
  - apply emits_ret.
  - apply emits_bind; [apply H; now left|].
    intros _. apply IH. intros y Hy. apply H. now right.
Qed.

Lemma log_printable (level : LogLevel) (e : Thrown) (w : World R) :
  printable e -> log level e w = (Ok tt, w).
Proof.
  intros P. unfold log. unfold printable in P. rewrite P.
  now destruct (Logger.shouldLog _ _).
Qed.

Lemma log_world (level : LogLevel) (e : Thrown) (w : World R) :
  snd (log level e w) = w.
Proof.
  unfold log. destruct (Logger.shouldLog _ _); [|reflexivity].
  now destruct (Logger.stringify e).
Qed.

Lemma log_error (e : Thrown) (w : World R) :
  log ERROR e w
  = (match Logger.stringify e with Some t => Throw t | None => Ok tt end, w).
Proof.
  unfold log.
  assert (S : forall l, Logger.shouldLog l ERROR = true) by (now intros []).
  rewrite S. now destruct (Logger.stringify e).
Qed.

Lemma keepsDisk_log (level : LogLevel) (e : Thrown) :
  keepsDisk (log level e : M unit).
Proof. intros w. now rewrite log_world. Qed.

Lemma emits_log P (level : LogLevel) (e : Thrown) :
  emits P (log level e : M unit).
Proof. intros w. exists []. now rewrite log_world, app_nil_r. Qed.

(** A [catch] clause that logs the caught value and returns: the
    operation returns what the block returns, or what the clause makes of
    the thrown value when the logger can print it; the world is the one
    the block left. *)
Lemma tryCatch_log {A} (level : LogLevel) (m : M A) (h : Thrown -> A)
    (w : World R) :
  tryCatch m (fun e => log level e ;;; ret (h e)) w =
  (match fst (m w) with
   | Ok a => Ok a
   | Throw e =>
       match fst (log level e (snd (m w))) with
       | Ok _ => Ok (h e)
       | Throw t => Throw t
       end
   end, snd (m w)).
Proof.
  unfold tryCatch, bind, ret. destruct (m w) as [[a|e] w1]; [reflexivity|].
  cbn [fst snd]. pose proof (log_world level e w1) as L.
  destruct (log level e w1) as [[[]|t] w2]; cbn [snd] in L; now subst w2.
Qed.

Lemma printable_in (l : list Event) (k : Call) (e : Thrown) :
  Forall printableEvent l -> In (k, Some e) l -> printable e.
Proof.
  intros F I. rewrite Forall_forall in F. exact (F _ I).
Qed.

Lemma traced_ret {A} X (a : A) : traced X (ret a : M A).
Proof.
  intros w. exists []. cbn. rewrite app_nil_r. split; [reflexivity|].
  intros _ e E. discriminate E.
Qed.

Lemma traced_throw {A} (X : Thrown -> Prop) (e : Thrown) :
  X e -> traced X (@throw R A e).
Proof.
  intros H w. exists []. cbn. rewrite app_nil_r. split; [reflexivity|].
  intros _ e' E. injection E as <-. now right.
Qed.

Lemma traced_onDisk {A} X (f : Disk -> A * Disk) : traced X (onDisk f : M A).
Proof.
  intros w. exists []. unfold onDisk. destruct (f (disk w)). cbn.
  rewrite app_nil_r. split; [reflexivity|]. intros _ e E. discriminate E.
Qed.

Lemma traced_call X (c : Call) : traced X (call c : M _).
Proof.
  intros w. unfold call. destruct (exec c (board w)) as [[a|e] b]; cbn;
    eexists; (split; [reflexivity|]); intros _ e' E; [discriminate E|].
  injection E as <-. left. exists c. now left.
Qed.

Lemma traced_bind {A B} X (m : M A) (k : A -> M B) :
  traced X m -> (forall a, traced X (k a)) -> traced X (bind m k).
Proof.
  intros Hm Hk w. unfold bind. destruct (Hm w) as (l & E & T).
  destruct (m w) as [[a|e] w1]; cbn [fst snd] in *.
  - destruct (Hk a w1) as (l' & E' & T'). exists (l ++ l').
    rewrite E', E, app_assoc. split; [reflexivity|].
    intros F e' Q. apply Forall_app in F. destruct F as [F F'].
    destruct (T' F' e' Q) as [(c & I)|I]; [left|now right].
    exists c. apply in_or_app. now right.
  - exists l. split; [exact E|]. intros F e' Q. injection Q as <-.
    now apply T.
Qed.

Lemma traced_forEach {A} X (l : list A) (f : A -> M unit) :
  (forall x, In x l -> traced X (f x)) -> traced X (forEach l f).
Proof.
  induction l as [|x l IH]; intros H; simpl.
  - apply traced_ret.
  - apply traced_bind; [apply H; now left|].
    intros _. apply IH. intros y Hy. apply H. now right.
Qed.

(** A [catch] clause that does not look at the value and does not log. *)
Lemma traced_tryCatch {A} X (m : M A) (h : Thrown -> M A) :
  emits (fun _ => True) m -> (forall e, traced X (h e)) ->
  traced X (tryCatch m h).
Proof.
  intros Hm Hh w. unfold tryCatch. destruct (Hm w) as (l & E & _).
  destruct (m w) as [[a|e] w1]; cbn [fst snd] in *.
  - exists l. split; [exact E|]. intros _ e' Q. discriminate Q.
  - destruct (Hh e w1) as (l' & E' & T'). exists (l ++ l').
    rewrite E', E, app_assoc. split; [reflexivity|].
    intros F e' Q. apply Forall_app in F. destruct F as [F F'].
    destruct (T' F' e' Q) as [(c & I)|I]; [left|now right].
    exists c. apply in_or_app. now right.
Qed.

(** A [catch] clause that logs the value and returns: nothing is thrown
    when the values thrown inside can be printed. *)
Lemma traced_catch_ret {A} X Y (level : LogLevel) (m : M A) (h : Thrown -> A) :
  traced Y m -> (forall e, Y e -> printable e) ->
  traced X (tryCatch m (fun e => log level e ;;; ret (h e))).
Proof.
  intros Hm HY w. rewrite tryCatch_log. destruct (Hm w) as (l & E & T).
  exists l. cbn [fst snd]. split; [exact E|]. intros F e' Q.
  destruct (fst (m w)) as [a|e] eqn:M1; [discriminate Q|].
  assert (P : printable e).
  { destruct (T F e eq_refl) as [(c & I)|I];
      [exact (printable_in c e F I)|exact (HY _ I)]. }
  rewrite (log_printable _ _ P) in Q. discriminate Q.
Qed.

(** A [catch] clause that logs the value and throws it again. *)
Lemma traced_catch_rethrow {A} X (level : LogLevel) (m : M A) :
  traced X m -> (forall e, X e -> printable e) ->
  traced X (tryCatch m (fun e => log level e ;;; throw e)).
Proof.
  intros Hm HX w. destruct (Hm w) as (l & E & T).
  unfold tryCatch, bind.
  destruct (m w) as [[a|e] w1] eqn:M1; cbn [fst snd] in *.
  - exists l. split; [exact E|]. intros _ e' Q. discriminate Q.
  - pose proof (log_world level e w1) as L.
    exists l. split.
    + destruct (log level e w1) as [[[]|t] w2]; cbn [snd] in L; subst w2;
        exact E.
    + intros F e' Q.
      assert (P : printable e).
      { destruct (T F e eq_refl) as [(c & I)|I];
          [exact (printable_in c e F I)|exact (HX _ I)]. }
      rewrite (log_printable _ _ P) in Q. cbn in Q. injection Q as <-.
      now apply T.
Qed.

(** The same, as an equation on the outcome. *)
Lemma tryCatch_log_ok {A} Y (level : LogLevel) (m : M A) (h : Thrown -> A)
    (w : World R) (l : list Event) :
  traced Y m -> (forall e, Y e -> printable e) ->
  calls (snd (m w)) = calls w ++ l -> Forall printableEvent l ->
  fst (tryCatch m (fun e => log level e ;;; ret (h e)) w)
  = Ok match fst (m w) with
       | Ok a => a
       | Throw e => h e
       end.
Proof.
  intros Hm HY E F. rewrite tryCatch_log. cbn [fst].
  destruct (Hm w) as (l' & E' & T). rewrite E in E'.
  apply app_inv_head in E'. subst l'.
  destruct (fst (m w)) as [a|e]; [reflexivity|].
  assert (P : printable e).
  { destruct (T F e eq_refl) as [(c & I)|I];
      [exact (printable_in c e F I)|exact (HY _ I)]. }
  now rewrite (log_printable _ _ P).
Qed.

Lemma failFast_ret {A} (a : A) : failFast (ret a : M A).
Proof. intros w. exists []. cbn. now rewrite app_nil_r. Qed.

Lemma failFast_onDisk {A} (f : Disk -> A * Disk) : failFast (onDisk f : M A).
Proof.
  intros w. exists []. unfold onDisk. destruct (f (disk w)). cbn.
  now rewrite app_nil_r.
Qed.

Lemma failFast_call (c : Call) : failFast (call c : M _).
Proof.
  intros w. unfold call. destruct (exec c (board w)) as [[a|e] b]; cbn;
    eexists; (split; [reflexivity|]).
  - now repeat constructor.
  - now exists [], c.
Qed.

Lemma failFast_bind {A B} (m : M A) (k : A -> M B) :
  failFast m -> (forall a, failFast (k a)) -> failFast (bind m k).
Proof.
  intros Hm Hk w. unfold bind. destruct (Hm w) as (l & E & T).
  destruct (m w) as [[a|e] w1]; cbn [fst snd] in *.
  - destruct (Hk a w1) as (l' & E' & T'). exists (l ++ l').
    rewrite E', E, app_assoc. split; [reflexivity|].
    destruct (fst (k a w1)) as [b|e].
    + now apply Forall_app.
    + destruct T' as (l0 & c & -> & F). exists (l ++ l0), c.
      rewrite app_assoc. split; [reflexivity|]. now apply Forall_app.
  - exists l. split; [exact E|exact T].
Qed.

(** The boundary of an operation: a [try] around the body, whose
    [catch] clause logs the value and returns the failure outcome. *)
Lemma reports_tryCatch {A} X (body : M A) (onError : Thrown -> A) :
  traced X body -> (forall e, X e -> printable e) ->
  reports X body (tryCatch body (fun e => log ERROR e ;;; ret (onError e)))
    onError.
Proof.
  intros Hb HX w. rewrite tryCatch_log. destruct (Hb w) as (l & E & T).
  exists l. cbn [fst snd]. split; [exact E|]. split; [reflexivity|].
  intros F. destruct (fst (body w)) as [a|e]; [reflexivity|].
  pose proof (T F e eq_refl) as B.
  assert (P : printable e).
  { destruct B as [(c & I)|I]; [exact (printable_in c e F I)|exact (HX _ I)]. }
  rewrite (log_printable _ _ P). now split.
Qed.

End MonadFacts.

(* ----------------------------------------------------------------- *)
(** ** Sync orchestrator: no active card *)

Section NoActiveCard.
Context {R : Type} {client : BoardClient R}.

(** C4, as the code has it.  Without a usable active card id in the
    session, [syncTasks] (in both revisions) resolves to the success
    outcome with message 'No active card', whose [completed] and [total]
    keys are absent, and it leaves the world as it was: the session file
    is untouched and no call is made. *)
Theorem syncTasks_no_active_card (tasks : list TodoTask) (w : World R) :
  Js.truthy (currentCardId (Session.loadSession (disk w))) = false ->
  AutoSync.syncTasks tasks w = (Ok AutoSync.noActiveCard, w)
  /\ AutoSyncDescOnly.syncTasks tasks w = (Ok AutoSync.noActiveCard, w)
  /\ success AutoSync.noActiveCard = true
  /\ message AutoSync.noActiveCard = Js.lit "No active card"
  /\ completed AutoSync.noActiveCard = None
  /\ total AutoSync.noActiveCard = None.
Proof.
  intros T.
  assert (B : AutoSync.syncTasksBody tasks w = (Ok AutoSync.noActiveCard, w)
              /\ AutoSyncDescOnly.syncTasksBody tasks w
                 = (Ok AutoSync.noActiveCard, w)).
  { unfold AutoSync.syncTasksBody, AutoSyncDescOnly.syncTasksBody,
      Eff.bind, Eff.onDisk, Session.getActiveCard. simpl.
    rewrite world_eta.
    destruct (currentCardId (Session.loadSession (disk w))) as [[|c s]|];
      simpl in T; try discriminate; now split. }
  destruct B as [B1 B2].
  unfold AutoSync.syncTasks, AutoSyncDescOnly.syncTasks, Eff.tryCatch.
  rewrite B1, B2. conjuncts; reflexivity.
Qed.

End NoActiveCard.

(** C4, as the spec words it, fails: the outcome for a session without
    an active card carries no [total] at all, so it is not [0]. *)
Lemma no_active_card_total_absent :
  ~ (exists o w',
        AutoSync.syncTasks Examples.three_tasks Examples.world_no_card
        = (Ok o, w')
        /\ success o = true /\ total o = Some 0).
Proof.
  intros (o & w' & E & _ & T).
  vm_compute in E. injection E as <- _. discriminate T.
Qed.

Lemma syncTasks_no_active_card_witness :
  AutoSync.syncTasks Examples.three_tasks Examples.world_no_card
  = (Ok AutoSync.noActiveCard, Examples.world_no_card).
Proof.
  apply (@syncTasks_no_active_card _ _ Examples.three_tasks
           Examples.world_no_card).
  reflexivity.
Defined.

(* ----------------------------------------------------------------- *)
(** ** Sync orchestrator: failures and the session *)

Ltac emits_call_tac :=
  match goal with
  | |- emits ?P (Eff.call ?c) => apply (emits_call P c); intros ?; reflexivity
  end.
Ltac keeps_call_tac :=
  match goal with
  | |- keepsDisk (Eff.call ?c) => apply (keepsDisk_call c)
  end.

Ltac step_call E :=
  match type of E with
  | context [exec ?k ?b] =>
      destruct (exec k b) as [[?|?] ?];
      cbn [outcomeOf fst snd disk board calls] in E
  end.

Ltac split_in H :=
  lazymatch type of H with
  | In _ (_ ++ _) => apply in_app_or in H; destruct H as [H|H]; split_in H
  | In _ (_ :: _) => destruct H as [H|H]; [|split_in H]
  | In _ [] => destruct H
  | _ => idtac
  end.

Ltac in_tac :=
  solve [ apply in_eq
        | apply in_cons; in_tac
        | apply in_or_app; left; in_tac
        | apply in_or_app; right; in_tac ].

(** A primary call failed: the outcome is the failure made of it. *)
Ltac failed_case :=
  split;
  [ intros k e' I N; split_in I; try discriminate I;
    try (now injection I as <- <-)
  | intros A; exfalso;
    match type of A with
    | forall k e, In _ ?L -> _ =>
        match L with
        | context [(?k0, Some ?e0)] =>
            assert (I : In (k0, Some e0) L) by in_tac;
            specialize (A _ _ I); discriminate A
        end
    end ].

Ltac emits_handler :=
  intros ?; apply emits_bind; [apply emits_log|intros ?; apply emits_ret].
Ltac keeps_handler :=
  intros ?; apply keepsDisk_bind;
  [apply keepsDisk_log|intros ?; apply keepsDisk_ret].
Ltac traced_call_tac :=
  match goal with
  | |- traced ?X (Eff.call ?c) => apply (traced_call X c)
  end.

(** The first failing call of the run is in the log, and the logger can
    print what it threw. *)
Ltac printable_failure F :=
  match type of F with
  | Forall printableEvent ?L =>
      match L with
      | context [(?k0, Some ?e0)] =>
          let PF := fresh "PF" in
          assert (PF : In (k0, Some e0) L) by in_tac;
          apply (printable_in k0 e0 F) in PF
      end
  end.

Section SyncFailure.
Context {R : Type} {client : BoardClient R}.
Import Eff.
Local Abbreviation M := (@Eff.M R).

Lemma syncItem_emits cardId items t :
  emits checklistEvent (AutoSync.syncItem cardId items t : M unit).
Proof.
  unfold AutoSync.syncItem.
  destruct (Matching.findMatchingChecklistItem items (content t)) as [m|];
    [|apply emits_ret].
  destruct (Bool.eqb _ _); [apply emits_ret|].
  emits_call_tac.
Qed.

Lemma syncItem_keepsDisk cardId items t :
  keepsDisk (AutoSync.syncItem cardId items t : M unit).
Proof.
  unfold AutoSync.syncItem.
  destruct (Matching.findMatchingChecklistItem items (content t)) as [m|];
    [|apply keepsDisk_ret].
  destruct (Bool.eqb _ _); [apply keepsDisk_ret|keeps_call_tac].
Qed.

Lemma syncItem_traced X cardId items t :
  traced X (AutoSync.syncItem cardId items t : M unit).
Proof.
  unfold AutoSync.syncItem.
  destruct (Matching.findMatchingChecklistItem items (content t)) as [m|];
    [|apply traced_ret].
  destruct (Bool.eqb _ _); [apply traced_ret|traced_call_tac].
Qed.

Lemma syncChecklists_emits cardId tasks :
  emits checklistEvent (AutoSync.syncChecklistsWithTodoWrite cardId tasks : M unit).
Proof.
  unfold AutoSync.syncChecklistsWithTodoWrite.
  apply emits_tryCatch; [|emits_handler].
  apply emits_bind; [emits_call_tac|].
  intros [|cl cls]; [apply emits_ret|].
  apply emits_forEach. intros x _. apply emits_forEach. intros t _.
  apply syncItem_emits.
Qed.

Lemma syncChecklists_keepsDisk cardId tasks :
  keepsDisk (AutoSync.syncChecklistsWithTodoWrite cardId tasks : M unit).
Proof.
  unfold AutoSync.syncChecklistsWithTodoWrite.
  apply keepsDisk_tryCatch; [|keeps_handler].
  apply keepsDisk_bind; [keeps_call_tac|].
  intros [|cl cls]; [apply keepsDisk_ret|].
  apply keepsDisk_forEach. intros x _. apply keepsDisk_forEach. intros t _.
  apply syncItem_keepsDisk.
Qed.

Lemma syncChecklists_body_traced X cardId tasks :
  traced X
    (checklists <- call (GetCardChecklists cardId) ;;
     match checklists with
     | [] => ret tt
     | _ =>
         forEach checklists (fun checklist =>
           forEach tasks
             (AutoSync.syncItem cardId (Matching.itemsOf checklist)))
     end : M unit).
Proof.
  apply traced_bind; [traced_call_tac|].
  intros [|cl cls]; [apply traced_ret|].
  apply traced_forEach. intros x _. apply traced_forEach. intros t _.
  apply syncItem_traced.
Qed.

Lemma syncChecklists_traced X cardId tasks :
  traced X (AutoSync.syncChecklistsWithTodoWrite cardId tasks : M unit).
Proof.
  unfold AutoSync.syncChecklistsWithTodoWrite.
  apply traced_catch_ret with (Y := fun _ => False); [|intros e []].
  apply syncChecklists_body_traced.
Qed.

(** The checklist reconciler makes checklist calls only, leaves the
    session file alone and, when the logger can print what its calls
    threw, returns normally. *)
Lemma syncChecklists_quiet cardId tasks (w : World R) :
  let r := AutoSync.syncChecklistsWithTodoWrite cardId tasks w in
  exists l,
    calls (snd r) = calls w ++ l
    /\ Forall checklistEvent l
    /\ disk (snd r) = disk w
    /\ (Forall printableEvent l -> fst r = Ok tt).
Proof.
  cbv zeta. destruct (syncChecklists_emits cardId tasks w) as (l & E & F).
  exists l. conjuncts; [exact E|exact F|apply syncChecklists_keepsDisk|].
  intros P. revert E. unfold AutoSync.syncChecklistsWithTodoWrite.
  rewrite tryCatch_log. cbn [snd]. intros E.
  rewrite <- tryCatch_log.
  rewrite tryCatch_log_ok with (Y := fun _ : Thrown => False) (l := l);
    [|apply syncChecklists_body_traced|intros e []|exact E|exact P].
  now destruct (fst _) as [[]|?].
Qed.



(** C2, as the code has it.  With an active card, [syncTasks] replaces
    the tracked tasks of the session before it makes any call, so the
    session file it leaves is the updated one whatever the outcome.  When
    the logger can print what the failing calls threw: a failing call
    other than those of the checklist reconciler makes the outcome the
    failure built from the thrown value; failures of the checklist
    reconciler are caught, and when no other call fails the outcome is a
    success. *)
Theorem syncTasks_updates_session_first (tasks : list TodoTask) (w : World R) (c : N) (id : Js.str) :
  currentCardId (Session.loadSession (disk w)) = Some (c :: id) ->
  let r := AutoSync.syncTasks tasks w in
  disk (snd r) = Session.updateSessionTasks tasks (disk w)
  /\ exists l,
      calls (snd r) = calls w ++ l
      /\ (Forall printableEvent l ->
          (forall k e, In (k, Some e) l -> isChecklistCall k = false ->
             fst r = Ok (AutoSync.failed e))
          /\ ((forall k e, In (k, Some e) l -> isChecklistCall k = true) ->
              exists o, fst r = Ok o /\ success o = true)).
Proof.
  intros H. cbv zeta. unfold AutoSync.syncTasks. rewrite tryCatch_log.
  cbn [fst snd].
  remember (AutoSync.syncTasksBody tasks w) as res eqn:E.
  unfold AutoSync.syncTasksBody, bind, onDisk, call, ret,
    Session.getActiveCard in E.
  cbn [fst snd disk board calls] in E. rewrite H in E.
  cbn [fst snd disk board calls] in E.
  step_call E.
  2:{ subst res. cbn [fst snd disk calls]. split; [reflexivity|].
      eexists. split; [reflexivity|]. intros F. printable_failure F.
      rewrite log_printable by assumption. failed_case. }
  step_call E.
  2:{ subst res. cbn [fst snd disk calls]. split; [reflexivity|].
      eexists. split; [rewrite <- !app_assoc; reflexivity|].
      intros F. printable_failure F.
      rewrite log_printable by assumption. failed_case. }
  step_call E.
  2:{ subst res. cbn [fst snd disk calls]. split; [reflexivity|].
      eexists. split; [rewrite <- !app_assoc; reflexivity|].
      intros F. printable_failure F.
      rewrite log_printable by assumption. failed_case. }
  step_call E.
  2:{ subst res. cbn [fst snd disk calls]. split; [reflexivity|].
      eexists. split; [rewrite <- !app_assoc; reflexivity|].
      intros F. printable_failure F.
      rewrite log_printable by assumption. failed_case. }
  match type of E with
  | context [AutoSync.syncChecklistsWithTodoWrite ?cid ?ts ?W] =>
      destruct (syncChecklists_quiet cid ts W) as (lc & Hc & Fc & Hd & Hok);
      destruct (AutoSync.syncChecklistsWithTodoWrite cid ts W) as [rc wc]
  end.
  cbn [fst snd disk calls] in Hok, Hd, Hc.
  assert (CL : forall k e, In (k, Some e) lc -> isChecklistCall k = false -> False).
  { intros k e I N. rewrite Forall_forall in Fc. specialize (Fc _ I).
    unfold checklistEvent in Fc. simpl in Fc. congruence. }
  destruct rc as [[]|t].
  2:{ subst res. cbn [fst snd disk calls]. rewrite Hd, Hc.
      split; [reflexivity|]. eexists.
      split; [rewrite <- !app_assoc; reflexivity|]. intros F. exfalso.
      assert (Fl : Forall printableEvent lc).
      { repeat (apply Forall_app in F; destruct F as [? F]).
        repeat match goal with
               | X : Forall printableEvent (_ ++ _) |- _ =>
                   apply Forall_app in X; destruct X
               end.
        assumption. }
      specialize (Hok Fl). discriminate Hok. }
  destruct (_ && _) in E.
  - step_call E.
    + subst res. cbn [fst snd disk calls]. rewrite Hd, Hc.
      split; [reflexivity|]. eexists.
      split; [rewrite <- !app_assoc; reflexivity|]. intros F. split.
      * intros k e' I N. split_in I; try discriminate I.
        destruct (CL _ _ I N).
      * intros _. eexists. split; [reflexivity|reflexivity].
    + subst res. cbn [fst snd disk calls]. rewrite Hd, Hc.
      split; [reflexivity|]. eexists.
      split; [rewrite <- !app_assoc; reflexivity|]. intros F.
      printable_failure F. rewrite log_printable by assumption. split.
      * intros k e' I N. split_in I; try discriminate I;
          try (now injection I as <- <-).
        destruct (CL _ _ I N).
      * intros A. exfalso.
        match type of A with
        | forall k e, In _ ?L -> _ =>
            match L with
            | context [(AddComment ?a ?b, Some ?e0)] =>
                assert (I' : In (AddComment a b, Some e0) L) by in_tac;
                specialize (A _ _ I'); discriminate A
            end
        end.
  - subst res. cbn [fst snd disk calls]. rewrite Hd, Hc.
    split; [reflexivity|]. eexists.
    split; [rewrite <- !app_assoc; reflexivity|]. intros F. split.
    * intros k e' I N. split_in I; try discriminate I.
      destruct (CL _ _ I N).
    * intros _. eexists. split; [reflexivity|reflexivity].
Qed.

End SyncFailure.

Lemma syncTasks_updates_session_first_witness :
  let r := AutoSync.syncTasks Examples.three_tasks Examples.world_getCard_fails in
  disk (snd r)
  = Session.updateSessionTasks Examples.three_tasks
      (disk Examples.world_getCard_fails)
  /\ exists l,
      calls (snd r) = calls Examples.world_getCard_fails ++ l
      /\ (Forall printableEvent l ->
          (forall k e, In (k, Some e) l -> isChecklistCall k = false ->
             fst r = Ok (AutoSync.failed e))
          /\ ((forall k e, In (k, Some e) l -> isChecklistCall k = true) ->
              exists o, fst r = Ok o /\ success o = true)).
Proof.
  exact (@syncTasks_updates_session_first _ _ Examples.three_tasks
           Examples.world_getCard_fails 99%N (Js.lit "ard_123") eq_refl).
Defined.

(** C2, as the spec words it, fails: [getCard] fails, the outcome is a
    failure carrying the message, and yet the session now tracks the new
    batch instead of the snapshot it held before the sync. *)
Lemma sync_failure_session_changed :
  let r := AutoSync.syncTasks Examples.three_tasks Examples.world_getCard_fails in
  (exists o, fst r = Ok o /\ success o = false
             /\ error o = Some (Js.lit "Trello API error: 500 Internal Server Error"))
  /\ linkedTasks (Session.loadSession (disk Examples.world_getCard_fails))
     = Some [Examples.task_todo]
  /\ linkedTasks (Session.loadSession (disk (snd r)))
     = Some Examples.three_tasks
  /\ Session.loadSession (disk (snd r))
     <> Session.loadSession (disk Examples.world_getCard_fails).
Proof.
  cbv zeta. split; [|split; [|split]].
  - eexists. split; [vm_compute; reflexivity|]. split; reflexivity.
  - reflexivity.
  - vm_compute. reflexivity.
  - vm_compute. intros E. discriminate E.
Qed.

(* ----------------------------------------------------------------- *)
(** ** Sync orchestrator: the progress comment *)

(** A sync that failed is no successful sync: the [catch] clause
    returns the failure outcome, or the logger throws. *)
Ltac failed_sync S T :=
  cbn [fst snd] in S; rewrite log_error in S; cbn [fst] in S;
  match type of S with
  | context [Logger.stringify ?e] => destruct (Logger.stringify e)
  end;
  [discriminate S|injection S as <- <-; discriminate T].

Section ProgressComment.
Context {R : Type} {client : BoardClient R}.
Import Eff.
Local Abbreviation M := (@Eff.M R).

Lemma checklist_events_no_comment (l : list Event) :
  Forall checklistEvent l -> filter isAddComment (map fst l) = [].
Proof.
  induction 1 as [|[k o] l H _ IH]; [reflexivity|]. simpl.
  unfold checklistEvent in H. simpl in H.
  destruct k; try discriminate H; exact IH.
Qed.

(** C6, as the code has it.  For a batch of three tasks, one completed,
    one in progress and one pending, a successful sync of the
    description-only revision makes five calls, all answered, of which
    exactly one posts a comment, and its text is
    [📊 **Progress Update:** 1/3 completed (1 in progress)]; a successful
    sync of the revision with checklists posts no comment for this batch,
    since one completed task out of three is no milestone. *)
Theorem progress_comment_one_of_three
    (tasks : list TodoTask) (w : World R) (c : N) (id : Js.str) :
  currentCardId (Session.loadSession (disk w)) = Some (c :: id) ->
  List.length tasks = 3 ->
  countStatus s_completed tasks = 1 ->
  countStatus s_in_progress tasks = 1 ->
  countStatus s_pending tasks = 1 ->
  (forall o w',
      AutoSyncDescOnly.syncTasks tasks w = (Ok o, w') -> success o = true ->
      exists l,
        calls w' = calls w ++ l
        /\ Forall (fun ev => snd ev = None) l
        /\ filter isAddComment (map fst l)
           = [AddComment (c :: id) progress_1_of_3])
  /\ (forall o w',
      AutoSync.syncTasks tasks w = (Ok o, w') -> success o = true ->
      exists l,
        calls w' = calls w ++ l
        /\ filter isAddComment (map fst l) = []).
Proof.
  intros H L C I _. split; intros o w' S T.
  - unfold AutoSyncDescOnly.syncTasks in S. rewrite tryCatch_log in S.
    remember (AutoSyncDescOnly.syncTasksBody tasks w) as res eqn:E.
    unfold AutoSyncDescOnly.syncTasksBody, bind, onDisk, call, ret,
      Session.getActiveCard in E.
    cbn [fst snd disk board calls] in E. rewrite H in E.
    cbn [fst snd disk board calls] in E. rewrite L, C, I in E.
    do 5 (step_call E; [|subst res; failed_sync S T]).
    subst res. injection S as <- <-. cbn [snd calls].
    eexists. split; [rewrite <- !app_assoc; reflexivity|]. split.
    + repeat constructor.
    + reflexivity.
  - unfold AutoSync.syncTasks in S. rewrite tryCatch_log in S.
    remember (AutoSync.syncTasksBody tasks w) as res eqn:E.
    unfold AutoSync.syncTasksBody, bind, onDisk, call, ret,
      Session.getActiveCard in E.
    cbn [fst snd disk board calls] in E. rewrite H in E.
    cbn [fst snd disk board calls] in E. rewrite L, C in E.
    do 4 (step_call E; [|subst res; failed_sync S T]).
    match type of E with
    | context [AutoSync.syncChecklistsWithTodoWrite ?cid ?ts ?W] =>
        destruct (syncChecklists_emits cid ts W) as (lc & Hc & Fc);
        destruct (AutoSync.syncChecklistsWithTodoWrite cid ts W) as [rc wc]
    end.
    cbn [fst snd disk calls] in Hc.
    destruct rc as [[]|t]; [|subst res; failed_sync S T].
    cbn in E. subst res. injection S as <- <-. cbn [snd calls].
    rewrite Hc. eexists. split; [rewrite <- !app_assoc; reflexivity|].
    rewrite !map_app, !filter_app. simpl. exact (checklist_events_no_comment Fc).
Qed.

End ProgressComment.

Lemma progress_comment_one_of_three_witness :
  (forall o w',
      AutoSyncDescOnly.syncTasks Examples.three_tasks Examples.world_active
      = (Ok o, w') ->
      success o = true ->
      exists l,
        calls w' = calls Examples.world_active ++ l
        /\ Forall (fun ev => snd ev = None) l
        /\ filter isAddComment (map fst l)
           = [AddComment (99%N :: Js.lit "ard_123") progress_1_of_3])
  /\ (forall o w',
      AutoSync.syncTasks Examples.three_tasks Examples.world_active
      = (Ok o, w') ->
      success o = true ->
      exists l,
        calls w' = calls Examples.world_active ++ l
        /\ filter isAddComment (map fst l) = []).
Proof.
  exact (@progress_comment_one_of_three _ _ Examples.three_tasks
           Examples.world_active 99%N (Js.lit "ard_123")
           eq_refl eq_refl eq_refl eq_refl eq_refl).
Defined.

(** C6, as the spec words it, fails.  On the three tasks of the test
    suite both revisions succeed; the description-only one posts one
    comment whose text starts with the chart glyph and
    [**Progress Update:**], so it is not the bare
    [1/3 completed (1 in progress)]; the other one posts none. *)
Lemma progress_comment_not_bare_text :
  let posted := fun w : World Board.t =>
                  filter isAddComment (map fst (calls w)) in
  (exists o w',
      AutoSyncDescOnly.syncTasks Examples.three_tasks Examples.world_active
      = (Ok o, w')
      /\ success o = true
      /\ posted w' = [AddComment (Js.lit "card_123") progress_1_of_3])
  /\ progress_1_of_3 <> Js.lit "1/3 completed (1 in progress)"
  /\ (exists o w',
      AutoSync.syncTasks Examples.three_tasks Examples.world_active
      = (Ok o, w')
      /\ success o = true /\ posted w' = []).
Proof.
  cbv zeta. split; [|split].
  - eexists. eexists. split; [vm_compute; reflexivity|].
    split; vm_compute; reflexivity.
  - vm_compute. intros E. discriminate E.
  - eexists. eexists. split; [vm_compute; reflexivity|].
    split; vm_compute; reflexivity.
Qed.

(* ----------------------------------------------------------------- *)
(** ** Status mapper *)

(** C8, as the code has it.  [getTargetListId] sends [pending] to the
    todo list, [in_progress] to the in-progress list and [completed] to
    the done list of the configuration; every other status takes the
    [default] branch and resolves to the todo list like [pending], and
    [getStatusIcon] gives it the glyph of a pending task.  No status
    makes either function fail. *)
Theorem status_mapper_defaults_to_todo (config : TrelloConfig) (st : Js.str) :
  st <> s_pending -> st <> s_in_progress -> st <> s_completed ->
  TodoSync.getTargetListId config st = TodoSync.getTargetListId config s_pending
  /\ Description.getStatusIcon st = icon_pending
  /\ (forall ids, listIds config = Some ids ->
        TodoSync.getTargetListId config s_pending = ids_todo ids
        /\ TodoSync.getTargetListId config s_in_progress = ids_inProgress ids
        /\ TodoSync.getTargetListId config s_completed = ids_done ids).
Proof.
  intros P I C.
  apply Js_eqb_neq in P. apply Js_eqb_neq in I. apply Js_eqb_neq in C.
  unfold TodoSync.getTargetListId, Description.getStatusIcon.
  rewrite P, I, C. split; [|split].
  - now destruct (listIds config).
  - reflexivity.
  - intros ids ->. conjuncts; reflexivity.
Qed.

Lemma status_mapper_defaults_to_todo_witness :
  TodoSync.getTargetListId Examples.some_config (Js.lit "blocked")
  = TodoSync.getTargetListId Examples.some_config s_pending
  /\ Description.getStatusIcon (Js.lit "blocked") = icon_pending
  /\ (forall ids, listIds Examples.some_config = Some ids ->
        TodoSync.getTargetListId Examples.some_config s_pending = ids_todo ids
        /\ TodoSync.getTargetListId Examples.some_config s_in_progress
           = ids_inProgress ids
        /\ TodoSync.getTargetListId Examples.some_config s_completed
           = ids_done ids).
Proof.
  refine (@status_mapper_defaults_to_todo Examples.some_config
            (Js.lit "blocked") _ _ _);
    intros E; vm_compute in E; discriminate E.
Defined.

(** C8, as the spec words it, fails: a status outside the three is not
    refused, it resolves to the todo list. *)
Lemma unknown_status_resolves_to_todo :
  Js.lit "blocked" <> s_pending
  /\ Js.lit "blocked" <> s_in_progress
  /\ Js.lit "blocked" <> s_completed
  /\ TodoSync.getTargetListId Examples.some_config (Js.lit "blocked")
     = Some (Js.lit "list_todo_123")
  /\ Description.getStatusIcon (Js.lit "blocked") = icon_pending.
Proof.
  conjuncts; try (vm_compute; intros E; discriminate E); reflexivity.
Qed.

(* ----------------------------------------------------------------- *)
(** ** Public operations and exceptions *)

Ltac emits_true :=
  match goal with
  | |- emits ?P (Eff.call ?c) => apply (emits_call P c); intros ?; exact I
  end.

Ltac failFast_call_tac :=
  match goal with
  | |- failFast (Eff.call ?c) => apply (failFast_call c)
  end.

Section Boundaries.
Context {R : Type} {client : BoardClient R}.
Import Eff.
Local Abbreviation M := (@Eff.M R).

Lemma healthCheckFailed_printable (e : Thrown) :
  healthCheckFailed e -> printable e.
Proof. now intros ->. Qed.

Lemma nothingElse_printable (e : Thrown) : nothingElse e -> printable e.
Proof. intros []. Qed.

Lemma getCurrentListName_traced X card :
  traced X (SlashCommands.getCurrentListName card : M Js.str).
Proof.
  unfold SlashCommands.getCurrentListName.
  apply traced_tryCatch; [|intros e; apply traced_ret].
  apply emits_bind; [emits_true|]. intros lists.
  destruct (find _ lists); apply emits_ret.
Qed.

Lemma ensureLabels_traced X tl cl mappings :
  traced X (SlashCommands.ensureLabels tl cl mappings : M _).
Proof.
  induction mappings as [|[[k n] c] rest IH]; simpl.
  - apply traced_ret.
  - apply traced_bind.
    + destruct (existsb _ k); [|apply traced_ret].
      apply traced_catch_ret with (Y := nothingElse);
        [|apply nothingElse_printable].
      apply traced_bind; [traced_call_tac|intros; apply traced_ret].
    + intros here. apply traced_bind; [apply IH|intros; apply traced_ret].
Qed.

Lemma addRelevantLabels_traced X cardId title content_ :
  traced X (SlashCommands.addRelevantLabels cardId title content_ : M unit).
Proof.
  unfold SlashCommands.addRelevantLabels.
  apply traced_catch_ret with (Y := nothingElse);
    [|apply nothingElse_printable].
  apply traced_bind; [apply ensureLabels_traced|].
  intros ls. apply traced_forEach. intros x _.
  apply traced_catch_ret with (Y := nothingElse);
    [|apply nothingElse_printable].
  traced_call_tac.
Qed.

Lemma slash_syncItem_traced X checklist t :
  traced X (SlashCommands.syncItem checklist t : M unit).
Proof.
  unfold SlashCommands.syncItem.
  destruct (find _ _) as [m|]; [|apply traced_ret].
  destruct (Bool.eqb _ _); [apply traced_ret|traced_call_tac].
Qed.

Lemma syncTasksToChecklists_traced X cardId tasks :
  traced X (SlashCommands.syncTasksToChecklists cardId tasks : M unit).
Proof.
  unfold SlashCommands.syncTasksToChecklists.
  apply traced_catch_ret with (Y := nothingElse);
    [|apply nothingElse_printable].
  apply traced_bind; [traced_call_tac|].
  intros [|cl cls].
  - destruct tasks; [apply traced_ret|].
    apply traced_bind; [traced_call_tac|intros; apply traced_ret].
  - apply traced_forEach. intros x _. apply traced_forEach. intros t _.
    apply slash_syncItem_traced.
Qed.

Lemma initializeIntegration_traced :
  traced healthCheckFailed (SlashCommands.initializeIntegration : M unit).
Proof.
  unfold SlashCommands.initializeIntegration.
  apply traced_bind; [traced_call_tac|intros _].
  apply traced_bind; [traced_call_tac|intros _].
  apply traced_catch_rethrow; [|apply healthCheckFailed_printable].
  apply traced_bind; [traced_call_tac|intros _].
  apply traced_bind; [traced_call_tac|intros _].
  apply traced_bind; [traced_call_tac|intros _].
  apply traced_bind; [traced_call_tac|intros healthy].
  destruct healthy; [apply traced_ret|now apply traced_throw].
Qed.

Lemma createCardFromPlanBody_traced planText :
  traced healthCheckFailed
    (SlashCommands.createCardFromPlanBody planText : M Js.str).
Proof.
  unfold SlashCommands.createCardFromPlanBody.
  apply traced_bind; [apply initializeIntegration_traced|intros _].
  apply traced_bind; [traced_call_tac|intros _].
  apply traced_bind; [traced_call_tac|intros _].
  apply traced_bind; [apply traced_onDisk|intros dateNow].
  apply traced_bind; [traced_call_tac|intros card].
  apply traced_bind.
  { destruct (SlashCommands.extractTasksFromPlan _); [apply traced_ret|].
    apply traced_bind; [traced_call_tac|intros; apply traced_ret]. }
  intros _. apply traced_bind; [apply addRelevantLabels_traced|intros _].
  apply traced_bind; [apply traced_onDisk|intros _]. apply traced_ret.
Qed.

Lemma pickupFound_traced X cardIdentifier found :
  traced X (SlashCommands.pickupFound cardIdentifier found : M Js.str).
Proof.
  unfold SlashCommands.pickupFound. destruct found as [card|];
    [|apply traced_ret].
  apply traced_bind; [traced_call_tac|intros inProgressListId].
  apply traced_bind.
  { destruct (_ && _); [|apply traced_ret].
    apply traced_bind; [traced_call_tac|intros _]. traced_call_tac. }
  intros _. apply traced_bind; [apply traced_onDisk|intros _].
  apply traced_bind; [|intros; apply traced_ret].
  destruct (_ && _); [apply traced_ret|apply getCurrentListName_traced].
Qed.

Lemma pickupCardBody_traced cardIdentifier :
  traced nothingElse (SlashCommands.pickupCardBody cardIdentifier : M Js.str).
Proof.
  unfold SlashCommands.pickupCardBody.
  apply traced_bind; [traced_call_tac|intros _].
  apply traced_bind; [traced_call_tac|intros _].
  destruct (_ =? 24).
  - apply traced_bind; [|intros found; apply pickupFound_traced].
    apply traced_tryCatch.
    + apply emits_bind; [emits_true|intros; apply emits_ret].
    + intros _. apply traced_bind; [traced_call_tac|intros; apply traced_ret].
  - apply traced_bind; [traced_call_tac|].
    intros [|card [|card' rest]];
      [apply traced_ret|apply pickupFound_traced|apply traced_ret].
Qed.

Lemma autoSync_body_traced tasks :
  traced nothingElse (AutoSync.syncTasksBody tasks : M SyncOutcome).
Proof.
  unfold AutoSync.syncTasksBody.
  apply traced_bind; [apply traced_onDisk|intros [[cardId cardName] ?]].
  destruct cardId as [[|c id]|]; try apply traced_ret.
  apply traced_bind; [apply traced_onDisk|intros _].
  apply traced_bind; [traced_call_tac|intros _].
  apply traced_bind; [traced_call_tac|intros _].
  apply traced_bind; [traced_call_tac|intros card].
  apply traced_bind; [traced_call_tac|intros _].
  apply traced_bind; [apply syncChecklists_traced|intros _].
  apply traced_bind; [|intros; apply traced_ret].
  destruct (_ && _); [traced_call_tac|apply traced_ret].
Qed.

Lemma descOnly_body_traced tasks :
  traced nothingElse (AutoSyncDescOnly.syncTasksBody tasks : M SyncOutcome).
Proof.
  unfold AutoSyncDescOnly.syncTasksBody.
  apply traced_bind; [apply traced_onDisk|intros [[cardId cardName] ?]].
  destruct cardId as [[|c id]|]; try apply traced_ret.
  apply traced_bind; [apply traced_onDisk|intros _].
  apply traced_bind; [traced_call_tac|intros _].
  apply traced_bind; [traced_call_tac|intros _].
  apply traced_bind; [traced_call_tac|intros card].
  apply traced_bind; [traced_call_tac|intros _].
  apply traced_bind; [traced_call_tac|intros; apply traced_ret].
Qed.

Lemma completeCardBody_traced note :
  traced nothingElse (SlashCommands.completeCardBody note : M Js.str).
Proof.
  unfold SlashCommands.completeCardBody.
  apply traced_bind; [apply traced_onDisk|intros [[cardId cardName] ?]].
  destruct cardId as [[|c id]|]; try apply traced_ret.
  apply traced_bind; [traced_call_tac|intros _].
  apply traced_bind; [traced_call_tac|intros _].
  apply traced_bind; [traced_call_tac|intros doneListId].
  destruct doneListId as [[|u l]|]; try apply traced_ret.
  apply traced_bind; [traced_call_tac|intros _].
  apply traced_bind; [traced_call_tac|intros _].
  apply traced_bind; [apply traced_onDisk|intros _]. apply traced_ret.
Qed.

Lemma completeCardBody_failFast note :
  failFast (SlashCommands.completeCardBody note : M Js.str).
Proof.
  unfold SlashCommands.completeCardBody.
  apply failFast_bind; [apply failFast_onDisk|intros [[cardId cardName] ?]].
  destruct cardId as [[|c id]|]; try apply failFast_ret.
  apply failFast_bind; [failFast_call_tac|intros _].
  apply failFast_bind; [failFast_call_tac|intros _].
  apply failFast_bind; [failFast_call_tac|intros doneListId].
  destruct doneListId as [[|u l]|]; try apply failFast_ret.
  apply failFast_bind; [failFast_call_tac|intros _].
  apply failFast_bind; [failFast_call_tac|intros _].
  apply failFast_bind; [apply failFast_onDisk|intros _]. apply failFast_ret.
Qed.

Lemma showStatusBody_traced toLocaleString :
  traced nothingElse (SlashCommands.showStatusBody toLocaleString : M Js.str).
Proof.
  unfold SlashCommands.showStatusBody.
  apply traced_bind; [apply traced_onDisk|intros [[cardId cardName] ?]].
  destruct cardId as [[|c id]|]; try apply traced_ret.
  apply traced_bind; [traced_call_tac|intros _].
  apply traced_bind; [traced_call_tac|intros _].
  apply traced_bind; [traced_call_tac|intros card].
  apply traced_bind; [apply getCurrentListName_traced|intros; apply traced_ret].
Qed.

Lemma syncTask_reports (config : TrelloConfig) (cardsOf : TodoSync.TaskCards)
    (task : TodoTask) (options : SyncOptions) (w : World R) :
  let r := TodoSync.syncTask config cardsOf task options w in
  exists l,
    calls (snd r) = calls w ++ l
    /\ (Forall printableEvent l ->
        exists res cardsOf',
          fst r = Ok (res, cardsOf')
          /\ (forall k e, In (k, Some e) l ->
                r_success res = false /\ r_action res = skipped
                /\ r_error res = Some (messageOrString e)
                /\ cardsOf' = cardsOf)
          /\ (Forall answered l ->
                r_success res = true
                \/ res = TodoSync.skippedWith None
                           (Js.lit "No list configured for status: "
                            ++ status task))).
Proof.
  cbv zeta.
  unfold TodoSync.syncTask, TodoSync.createNewCard, TodoSync.updateExistingCard.
  destruct (TodoSync.mapGet cardsOf (content task)) as [[|u l]|];
    destruct (TodoSync.getTargetListId config (status task)) as [[|u' l']|];
    unfold tryCatch, bind, onDisk, call, ret;
    cbn [fst snd disk board calls];
    repeat (match goal with
            | |- context [exec ?k ?b] => destruct (exec k b) as [[?|?] ?]
            end; cbn [fst snd disk board calls outcomeOf]).
  all: rewrite ?log_error; cbn [fst snd disk board calls].
  all: repeat match goal with
           | |- context [Logger.stringify ?e] =>
               destruct (Logger.stringify e) eqn:?;
               cbn [fst snd disk board calls]
           end.
  all: rewrite ?log_error; cbn [fst snd disk board calls].
  all: repeat match goal with
           | |- context [Logger.stringify ?e] =>
               destruct (Logger.stringify e) eqn:?;
               cbn [fst snd disk board calls]
           end.
  all: (eexists; split;
     [first [rewrite <- ?app_assoc; reflexivity
            |symmetry; apply app_nil_r]|]).
  all: intros F; try printable_failure F.
  all: try (exfalso; unfold printable in *; congruence).
  all: do 2 eexists; (split; [reflexivity|]); split;
    [ intros k e' I; split_in I; try discriminate I;
      injection I as <- <-; conjuncts; reflexivity
    | intros A;
      first [ left; reflexivity | right; reflexivity
            | exfalso;
              match type of A with
              | Forall answered ?L =>
                  match L with
                  | context [(?k0, Some ?e0)] =>
                      assert (I : In (k0, Some e0) L) by in_tac;
                      rewrite Forall_forall in A; specialize (A _ I);
                      discriminate A
                  end
              end ] ].
Qed.

(** C7, as the code has it.  Every public operation is one [try] block
    whose [catch] clause logs the caught value and returns the failure
    outcome built from it: the cross mark, the failure text and the
    message of an [Error] or [Unknown error] for [createCardFromPlan],
    [pickupCard], [completeCard] and [showStatus]; the failure outcome
    with that message for [syncTasks] in both revisions.  So, when every
    call that failed during the run failed with a value the logger can
    print, the operation leaves the world its body leaves and returns
    what the body returns or, when the body throws, the failure outcome
    for the value thrown, which is then the value a call threw (or the
    error of a failed health check, for [createCardFromPlan]).  In
    [completeCard] no failure is swallowed: whichever call fails, the
    outcome is the failure text with its message.  [syncTask] returns a
    result: skipped with the message of the [Error], or the text of the
    value, for a call that failed. *)
Theorem public_operations_report_failures (toLocaleString : Js.str -> Js.str) :
  (forall planText,
      reports healthCheckFailed
        (SlashCommands.createCardFromPlanBody planText)
        (SlashCommands.createCardFromPlan planText : M Js.str)
        (fun e => Js.lit "❌ Failed to create Trello card: " ++ messageOrUnknown e))
  /\ (forall cardIdentifier,
      reports nothingElse
        (SlashCommands.pickupCardBody cardIdentifier)
        (SlashCommands.pickupCard cardIdentifier : M Js.str)
        (fun e => Js.lit "❌ Failed to pickup card: " ++ messageOrUnknown e))
  /\ (forall tasks,
      reports nothingElse (AutoSync.syncTasksBody tasks)
        (AutoSync.syncTasks tasks : M SyncOutcome) AutoSync.failed
      /\ reports nothingElse (AutoSyncDescOnly.syncTasksBody tasks)
           (AutoSyncDescOnly.syncTasks tasks : M SyncOutcome) AutoSync.failed)
  /\ (forall completionNote,
      reports nothingElse
        (SlashCommands.completeCardBody completionNote)
        (SlashCommands.completeCard completionNote : M Js.str)
        (fun e => Js.lit "❌ Failed to complete card: " ++ messageOrUnknown e)
      /\ forall w l k e,
          calls (snd (SlashCommands.completeCard completionNote w))
          = calls w ++ l ->
          In (k, Some e) l -> printable e ->
          fst (SlashCommands.completeCard completionNote w)
          = Ok (Js.lit "❌ Failed to complete card: " ++ messageOrUnknown e))
  /\ reports nothingElse
       (SlashCommands.showStatusBody toLocaleString)
       (SlashCommands.showStatus toLocaleString : M Js.str)
       (fun e => Js.lit "❌ Failed to get status: " ++ messageOrUnknown e)
  /\ (forall config cardsOf task options (w : World R),
      let r := TodoSync.syncTask config cardsOf task options w in
      exists l,
        calls (snd r) = calls w ++ l
        /\ (Forall printableEvent l ->
            exists res cardsOf',
              fst r = Ok (res, cardsOf')
              /\ (forall k e, In (k, Some e) l ->
                    r_success res = false /\ r_action res = skipped
                    /\ r_error res = Some (messageOrString e)
                    /\ cardsOf' = cardsOf)
              /\ (Forall answered l ->
                    r_success res = true
                    \/ res = TodoSync.skippedWith None
                               (Js.lit "No list configured for status: "
                                ++ status task)))).
Proof.
  conjuncts.
  - intros planText. apply reports_tryCatch;
      [apply createCardFromPlanBody_traced|apply healthCheckFailed_printable].
  - intros cardIdentifier. apply reports_tryCatch;
      [apply pickupCardBody_traced|apply nothingElse_printable].
  - intros tasks. split; apply reports_tryCatch;
      first [apply autoSync_body_traced|apply descOnly_body_traced
            |apply nothingElse_printable].
  - intros note. split.
    + apply reports_tryCatch;
        [apply completeCardBody_traced|apply nothingElse_printable].
    + intros w l k e E I P. revert E.
      unfold SlashCommands.completeCard. rewrite tryCatch_log. cbn [fst snd].
      intros E. destruct (completeCardBody_failFast note w) as (l' & E' & T).
      rewrite E in E'. apply app_inv_head in E'. subst l'.
      destruct (fst (SlashCommands.completeCardBody note w)) as [a|e0].
      * exfalso. rewrite Forall_forall in T. specialize (T _ I).
        discriminate T.
      * destruct T as (l0 & c & -> & F).
        apply in_app_or in I. destruct I as [I|[I|[]]].
        -- rewrite Forall_forall in F. specialize (F _ I). discriminate F.
        -- injection I as <- <-. now rewrite (log_printable _ _ P).
  - apply reports_tryCatch;
      [apply showStatusBody_traced|apply nothingElse_printable].
  - intros. apply syncTask_reports.
Qed.

End Boundaries.

(** The bodies do throw, and the operations do turn that into an
    outcome: [moveCard] fails during a completion. *)
Example completeCard_reports_failure :
  fst (SlashCommands.completeCardBody None Examples.world_move_fails)
  = Throw (ErrorObj (Js.lit "Trello API error: 429 Too Many Requests"))
  /\ fst (SlashCommands.completeCard None Examples.world_move_fails)
     = Ok (Js.lit "❌ Failed to complete card: Trello API error: 429 Too Many Requests")
  /\ disk (snd (SlashCommands.completeCard None Examples.world_move_fails))
     = disk Examples.world_move_fails.
Proof. conjuncts; vm_compute; reflexivity. Qed.

Lemma public_operations_report_failures_witness :
  fst (SlashCommands.completeCard None Examples.world_move_fails)
  = Ok (Js.lit "❌ Failed to complete card: "
        ++ messageOrUnknown
             (ErrorObj (Js.lit "Trello API error: 429 Too Many Requests"))).
Proof.
  destruct (@public_operations_report_failures Board.t Board.client (fun s => s))
    as (_ & _ & _ & C & _).
  destruct (C None) as [_ S].
  apply (S Examples.world_move_fails
           [ (Construct, None); (Connect, None); (GetListId done, None);
             (MoveCard (Js.lit "card_123") (Js.lit "list_done_789"),
              Some (ErrorObj (Js.lit "Trello API error: 429 Too Many Requests"))) ]
           (MoveCard (Js.lit "card_123") (Js.lit "list_done_789"))).
  - vm_compute. reflexivity.
  - right. right. right. left. reflexivity.
  - reflexivity.
Defined.

(** C7, as the spec words it, fails in two ways.  When [moveCard]
    throws a value that is no [Error], here a string, the outcome of
    [completeCard] says [Unknown error] and does not hold the text of the
    value.  And when it throws an [Error] that the logger cannot
    serialise, the [catch] clause of [completeCard] throws itself: the
    operation does not return an outcome, the caller receives the
    [TypeError] of [JSON.stringify]. *)
Lemma failure_hidden_or_thrown :
  (fst (SlashCommands.completeCard None Examples.world_move_throws_text)
   = Ok (Js.lit "❌ Failed to complete card: Unknown error")
   /\ Js.includes (Js.lit "❌ Failed to complete card: Unknown error")
        (Js.lit "rate limited") = false)
  /\ fst (SlashCommands.completeCard None Examples.world_move_throws_circular)
     = Throw (ErrorObj (Js.lit "Converting circular structure to JSON"))
  /\ fst (AutoSync.syncTasks Examples.three_tasks
            (mkWorld Examples.disk_tracking
               (Board.withFaults Examples.board_one
                  [None; None; Some Examples.circular_error]) []))
     = Throw (ErrorObj (Js.lit "Converting circular structure to JSON")).
Proof. conjuncts; vm_compute; reflexivity. Qed.

(* ----------------------------------------------------------------- *)
(** ** Checklist reconciler: no spurious writes *)

Section NoSpuriousWrites.
Context {R : Type} {client : BoardClient R}.
Import Eff.
Local Abbreviation M := (@Eff.M R).

Lemma syncItem_agree cardId items t i (w : World R) :
  Matching.findMatchingChecklistItem items (content t) = Some i ->
  Matching.shouldBeCompleted t = Matching.isCurrentlyCompleted i ->
  AutoSync.syncItem cardId items t w = (Ok tt, w).
Proof.
  intros F A. unfold AutoSync.syncItem. rewrite F, A.
  now rewrite Bool.eqb_reflx.
Qed.

Lemma syncItem_spares cardId itemId items t :
  (forall i,
      Matching.findMatchingChecklistItem items (content t) = Some i ->
      item_id i = itemId ->
      Matching.shouldBeCompleted t = Matching.isCurrentlyCompleted i) ->
  emits (sparesItem cardId itemId) (AutoSync.syncItem cardId items t : M unit).
Proof.
  intros A. unfold AutoSync.syncItem.
  destruct (Matching.findMatchingChecklistItem items (content t)) as [i|];
    [|apply emits_ret].
  destruct (Bool.eqb _ _) eqn:Q; [apply emits_ret|].
  apply (emits_call (sparesItem cardId itemId)
           (UpdateChecklistItem cardId (item_id i) (Matching.shouldBeCompleted t))).
  intros o b E. simpl in E. injection E as E _.
  rewrite (A i eq_refl E), Bool.eqb_reflx in Q. discriminate Q.
Qed.

(** C9, as the code has it.  A matched pair whose item already agrees
    with the task makes no call: [syncItem] returns with the world as it
    was.  Hence, for every item id, if every task that the matcher sends
    to an item with that id (in any checklist of the card) agrees with
    the state of that item, checklist reconciliation logs no
    [updateChecklistItem] for that id. *)
Theorem no_write_for_agreeing_items
    (cardId itemId : Js.str) (tasks : list TodoTask) (w : World R) :
  (forall checklists checklist t i,
      fst (exec (GetCardChecklists cardId) (board w)) = Ok checklists ->
      In checklist checklists -> In t tasks ->
      Matching.findMatchingChecklistItem (Matching.itemsOf checklist) (content t)
      = Some i ->
      item_id i = itemId ->
      Matching.shouldBeCompleted t = Matching.isCurrentlyCompleted i) ->
  (forall items t i (w0 : World R),
      Matching.findMatchingChecklistItem items (content t) = Some i ->
      Matching.shouldBeCompleted t = Matching.isCurrentlyCompleted i ->
      AutoSync.syncItem cardId items t w0 = (Ok tt, w0))
  /\ exists l,
      calls (snd (AutoSync.syncChecklistsWithTodoWrite cardId tasks w))
      = calls w ++ l
      /\ Forall (sparesItem cardId itemId) l.
Proof.
  intros A. split; [intros items t i w0; apply syncItem_agree|].
  unfold AutoSync.syncChecklistsWithTodoWrite.
  rewrite tryCatch_log. cbn [snd]. unfold bind, call.
  destruct (exec (GetCardChecklists cardId) (board w)) as [[cls|e] b] eqn:X.
  2:{ eexists. split; [reflexivity|]. repeat constructor.
      intros bb E. discriminate E. }
  cbn [outcomeOf].
  set (w1 := mkWorld _ _ _).
  assert (L : emits (sparesItem cardId itemId)
                (forEach cls (fun checklist =>
                   forEach tasks
                     (AutoSync.syncItem cardId (Matching.itemsOf checklist)))
                 : M unit)).
  { apply emits_forEach. intros cl Icl. apply emits_forEach. intros t It.
    apply syncItem_spares. intros i F E. exact (A cls cl t i eq_refl Icl It F E). }
  assert (G : exists l, calls (snd (match cls with
                | [] => ret tt
                | _ :: _ => forEach cls (fun checklist =>
                     forEach tasks
                       (AutoSync.syncItem cardId (Matching.itemsOf checklist)))
                end w1)) = calls w1 ++ l /\ Forall (sparesItem cardId itemId) l).
  { destruct cls as [|cl cls']; [apply (emits_ret (sparesItem cardId itemId) tt w1)|].
    apply L. }
  destruct G as (l & E & F). exists ((GetCardChecklists cardId, None) :: l).
  split.
  - rewrite E. unfold w1. cbn [calls]. now rewrite <- app_assoc.
  - constructor; [|exact F]. intros bb Q. discriminate Q.
Qed.

End NoSpuriousWrites.

(* ----------------------------------------------------------------- *)
(** ** Checklist reconciler: convergence *)

Section Simulation.
Import Eff.

Lemma applyWrite_faults cardId us b :
  Board.faults (fold_left (applyWrite cardId) us b) = Board.faults b.
Proof.
  revert b. induction us as [|u us IH]; intros b; [reflexivity|].
  simpl. now rewrite IH.
Qed.

Lemma syncItem_run cardId items t (w : World Board.t) :
  Board.faults (board w) = [] ->
  AutoSync.syncItem cardId items t w
  = (Ok tt,
     mkWorld (disk w)
       (fold_left (applyWrite cardId) (writesOfTask items t) (board w))
       (calls w ++ map (writeEvent cardId) (writesOfTask items t))).
Proof.
  intros F. unfold AutoSync.syncItem, writesOfTask.
  destruct (Matching.findMatchingChecklistItem items (content t)) as [i|].
  - destruct (Bool.eqb _ _).
    + unfold ret. simpl. now rewrite app_nil_r, world_eta.
    + unfold call, exec, Board.client, Board.run. rewrite F. reflexivity.
  - unfold ret. simpl. now rewrite app_nil_r, world_eta.
Qed.

Lemma forEach_run {A} cardId (f : A -> Eff.M unit) (g : A -> list (Js.str * bool))
    (l : list A) :
  (forall x (w : World Board.t),
      Board.faults (board w) = [] ->
      f x w = (Ok tt, mkWorld (disk w)
                        (fold_left (applyWrite cardId) (g x) (board w))
                        (calls w ++ map (writeEvent cardId) (g x)))) ->
  forall w : World Board.t,
    Board.faults (board w) = [] ->
    forEach l f w
    = (Ok tt, mkWorld (disk w)
                (fold_left (applyWrite cardId) (flat_map g l) (board w))
                (calls w ++ map (writeEvent cardId) (flat_map g l))).
Proof.
  intros H. induction l as [|x l IH]; intros w F.
  - simpl. unfold ret. now rewrite app_nil_r, world_eta.
  - simpl. unfold bind. rewrite (H x w F). rewrite IH.
    + cbn [disk board calls]. rewrite fold_left_app, map_app, app_assoc.
      reflexivity.
    + cbn [board]. now rewrite applyWrite_faults.
Qed.

Lemma syncChecklists_run cardId tasks (w : World Board.t) :
  Board.faults (board w) = [] ->
  let cls := Board.checklistsOf (board w) cardId in
  AutoSync.syncChecklistsWithTodoWrite cardId tasks w
  = (Ok tt,
     mkWorld (disk w)
       (fold_left (applyWrite cardId) (writesOf cls tasks) (board w))
       (calls w ++ (GetCardChecklists cardId, None)
                   :: map (writeEvent cardId) (writesOf cls tasks))).
Proof.
  intros F cls. unfold AutoSync.syncChecklistsWithTodoWrite, tryCatch.
  unfold bind at 1. unfold call at 1.
  unfold exec at 1, Board.client at 1, Board.run at 1. rewrite F.
  cbn [Board.answer outcomeOf]. fold cls.
  set (w1 := mkWorld _ _ _).
  assert (F1 : Board.faults (board w1) = []) by exact F.
  destruct cls as [|cl cls'] eqn:C.
  - unfold ret. cbn. reflexivity.
  - rewrite <- C.
    rewrite (forEach_run cardId
               (fun checklist =>
                  forEach tasks (AutoSync.syncItem cardId (Matching.itemsOf checklist)))
               (fun cl => flat_map (writesOfTask (Matching.itemsOf cl)) tasks)).
    + unfold w1. cbn [disk board calls]. unfold writesOf.
      now rewrite <- app_assoc.
    + intros x w' F'. apply forEach_run; [|exact F'].
      intros t w'' F''. now apply syncItem_run.
    + exact F1.
Qed.

Lemma checklistsOf_applyWrite cardId b u :
  Board.checklistsOf (applyWrite cardId b u) cardId
  = map (Board.setItemIn (fst u) (snd u)) (Board.checklistsOf b cardId).
Proof.
  unfold Board.checklistsOf, applyWrite. cbn [Board.checklists Board.withChecklists].
  induction (Board.checklists b) as [|e l IH]; [reflexivity|].
  cbn [map find]. unfold Board.setItemOn at 1 2.
  destruct (Js.eqb (fst e) cardId) eqn:Q; cbn [fst snd]; rewrite Q.
  - reflexivity.
  - exact IH.
Qed.

Lemma checklistsOf_writes cardId us b :
  Board.checklistsOf (fold_left (applyWrite cardId) us b) cardId
  = fold_left (fun cls u => map (Board.setItemIn (fst u) (snd u)) cls) us
      (Board.checklistsOf b cardId).
Proof.
  revert b. induction us as [|u us IH]; intros b; [reflexivity|].
  simpl. now rewrite IH, checklistsOf_applyWrite.
Qed.

Lemma finalItem_nil i : finalItem [] i = i.
Proof. now destruct i. Qed.

Lemma finalChecklist_nil cl : finalChecklist [] cl = cl.
Proof.
  destruct cl as [a b [l|]]; unfold finalChecklist; simpl; [|reflexivity].
  f_equal. f_equal. rewrite <- (map_id l) at 2. apply map_ext, finalItem_nil.
Qed.

Lemma finalItem_cons u us i :
  finalItem us (Board.setItem (fst u) (snd u) i) = finalItem (u :: us) i.
Proof.
  unfold finalItem, Board.setItem, stateAfter. cbn [fold_left].
  now destruct (Js.eqb (item_id i) (fst u)).
Qed.

Lemma finalChecklist_cons u us cl :
  finalChecklist us (Board.setItemIn (fst u) (snd u) cl)
  = finalChecklist (u :: us) cl.
Proof.
  unfold finalChecklist, Board.setItemIn. cbn.
  destruct (checkItems cl) as [l|]; [|reflexivity]. cbn.
  f_equal. f_equal. rewrite map_map. apply map_ext. intros i.
  apply finalItem_cons.
Qed.

Lemma writes_final us cls :
  fold_left (fun cls u => map (Board.setItemIn (fst u) (snd u)) cls) us cls
  = map (finalChecklist us) cls.
Proof.
  revert cls. induction us as [|u us IH]; intros cls.
  - simpl. rewrite <- (map_id cls) at 1. apply map_ext. intros cl.
    now rewrite finalChecklist_nil.
  - simpl. rewrite IH, map_map. apply map_ext. intros cl.
    apply finalChecklist_cons.
Qed.

Lemma itemsOf_final us cl :
  Matching.itemsOf (finalChecklist us cl) = map (finalItem us) (Matching.itemsOf cl).
Proof. unfold Matching.itemsOf, finalChecklist. cbn. now destruct (checkItems cl). Qed.

Lemma stateOf_complete b : Js.eqb (Board.stateOf b) (Js.lit "complete") = b.
Proof. now destruct b. Qed.

Lemma stateAfter_agrees us x init b :
  (forall u, In u us -> fst u = x -> snd u = b) ->
  (exists u, In u us /\ fst u = x) \/ Js.eqb init (Js.lit "complete") = b ->
  Js.eqb (stateAfter us x init) (Js.lit "complete") = b.
Proof.
  revert init. induction us as [|u us IH]; intros init A B.
  - destruct B as [(u & [] & _)|B]. exact B.
  - unfold stateAfter. cbn [fold_left]. apply IH.
    + intros v I. apply A. now right.
    + destruct (Js.eqb x (fst u)) eqn:Q.
      * right. apply Js_eqb_eq in Q. rewrite <- (A u (or_introl eq_refl) (eq_sym Q)).
        apply stateOf_complete.
      * destruct B as [(v & [->|I] & E)|B].
        -- rewrite E, Js_eqb_refl in Q. discriminate Q.
        -- left. now exists v.
        -- now right.
Qed.

Lemma NoDup_map_inj {A B} (f : A -> B) (l : list A) (a b : A) :
  NoDup (map f l) -> In a l -> In b l -> f a = f b -> a = b.
Proof.
  induction l as [|x l IH]; intros N Ia Ib E; [destruct Ia|].
  simpl in N. inversion N as [|? ? Nx Nl]; subst.
  destruct Ia as [->|Ia], Ib as [->|Ib].
  - reflexivity.
  - exfalso. apply Nx. rewrite E. now apply in_map.
  - exfalso. apply Nx. rewrite <- E. now apply in_map.
  - now apply IH.
Qed.

Lemma find_exact items t :
  (exists i, In i items
             /\ Matching.exactMatch (Matching.cleanTaskContent (content t)) i = true) ->
  exists i, Matching.findMatchingChecklistItem items (content t) = Some i
            /\ In i items
            /\ Matching.exactMatch (Matching.cleanTaskContent (content t)) i = true.
Proof.
  intros (j & Ij & Ej). unfold Matching.findMatchingChecklistItem.
  destruct (find _ items) as [i|] eqn:F.
  - exists i. split; [reflexivity|]. now apply find_some in F.
  - exfalso. pose proof (find_none _ _ F j Ij) as N. congruence.
Qed.

Lemma findMatching_in items c i :
  Matching.findMatchingChecklistItem items c = Some i -> In i items.
Proof.
  unfold Matching.findMatchingChecklistItem.
  destruct (find (Matching.exactMatch _) items) as [m|] eqn:F1.
  { intros Q. injection Q as <-. now apply find_some in F1. }
  destruct (find (Matching.fuzzyMatch _) items) as [m|] eqn:F2.
  { intros Q. injection Q as <-. now apply find_some in F2. }
  intros F3. now apply find_some in F3.
Qed.

Section Convergence.
Variable cardId : Js.str.
Variable tasks : list TodoTask.
Variable cls : list Checklist.

Hypothesis ids_distinct :
  NoDup (map item_id (flat_map Matching.itemsOf cls)).
Hypothesis contents_distinct :
  forall t t', In t tasks -> In t' tasks ->
    Matching.cleanTaskContent (content t) = Matching.cleanTaskContent (content t') ->
    t = t'.
Hypothesis at_most_one_exact_item :
  forall cl t i j, In cl cls -> In t tasks ->
    In i (Matching.itemsOf cl) -> In j (Matching.itemsOf cl) ->
    Matching.exactMatch (Matching.cleanTaskContent (content t)) i = true ->
    Matching.exactMatch (Matching.cleanTaskContent (content t)) j = true ->
    i = j.
Hypothesis fallback_spares_exact_items :
  forall cl t j, In cl cls -> In t tasks ->
    (forall i, In i (Matching.itemsOf cl) ->
       Matching.exactMatch (Matching.cleanTaskContent (content t)) i = false) ->
    Matching.findMatchingChecklistItem (Matching.itemsOf cl) (content t) = Some j ->
    forall t', In t' tasks ->
      Matching.exactMatch (Matching.cleanTaskContent (content t')) j = false.

Lemma in_items cl i :
  In cl cls -> In i (Matching.itemsOf cl) -> In i (flat_map Matching.itemsOf cls).
Proof. intros Icl Ii. apply in_flat_map. now exists cl. Qed.

(** The matcher sends a task to the item of its checklist that has its
    normalised content as normalised name. *)
Lemma found_is_exact cl t i :
  In cl cls -> In t tasks -> In i (Matching.itemsOf cl) ->
  Matching.exactMatch (Matching.cleanTaskContent (content t)) i = true ->
  Matching.findMatchingChecklistItem (Matching.itemsOf cl) (content t) = Some i.
Proof.
  intros Icl It Ii Ei.
  destruct (find_exact (Matching.itemsOf cl) t) as (i0 & F & Ii0 & Ei0);
    [now exists i|].
  now rewrite (at_most_one_exact_item cl t i i0 Icl It Ii Ii0 Ei Ei0).
Qed.

(** A task that the matcher sends to the item of another task's exact
    match is that task. *)
Lemma sent_to_exact_item cl t i cl' t' :
  In cl cls -> In t tasks -> In i (Matching.itemsOf cl) ->
  Matching.exactMatch (Matching.cleanTaskContent (content t)) i = true ->
  In cl' cls -> In t' tasks ->
  Matching.findMatchingChecklistItem (Matching.itemsOf cl') (content t') = Some i ->
  t' = t.
Proof.
  intros Icl It Ii Ei Icl' It' F.
  destruct (find (Matching.exactMatch (Matching.cleanTaskContent (content t')))
              (Matching.itemsOf cl')) as [m|] eqn:X.
  - assert (m = i).
    { unfold Matching.findMatchingChecklistItem in F. rewrite X in F.
      now injection F. }
    subst m. apply find_some in X. destruct X as [_ X].
    apply contents_distinct; trivial.
    unfold Matching.exactMatch in Ei, X. apply Js_eqb_eq in Ei, X. congruence.
  - exfalso.
    assert (N : forall k, In k (Matching.itemsOf cl') ->
                Matching.exactMatch (Matching.cleanTaskContent (content t')) k
                = false).
    { intros k Ik. exact (find_none _ _ X k Ik). }
    pose proof (@fallback_spares_exact_items cl' t' i Icl' It' N F t It) as Q.
    congruence.
Qed.

Lemma final_state_agrees cl t i :
  In cl cls -> In t tasks -> In i (Matching.itemsOf cl) ->
  Matching.exactMatch (Matching.cleanTaskContent (content t)) i = true ->
  Js.eqb (stateAfter (writesOf cls tasks) (item_id i) (item_state i))
    (Js.lit "complete")
  = Matching.shouldBeCompleted t.
Proof.
  intros Icl It Ii Ei. apply stateAfter_agrees.
  - intros u Iu Eu. unfold writesOf in Iu.
    apply in_flat_map in Iu. destruct Iu as (cl' & Icl' & Iu).
    apply in_flat_map in Iu. destruct Iu as (t' & It' & Iu).
    unfold writesOfTask in Iu.
    destruct (Matching.findMatchingChecklistItem (Matching.itemsOf cl')
                (content t')) as [i'|] eqn:F; [|destruct Iu].
    destruct (Bool.eqb _ _); [destruct Iu|].
    destruct Iu as [<-|[]]. cbn [fst snd] in *.
    assert (i' = i).
    { apply (NoDup_map_inj item_id (flat_map Matching.itemsOf cls));
        eauto using in_items, findMatching_in. }
    subst i'. f_equal.
    exact (@sent_to_exact_item cl t i cl' t' Icl It Ii Ei Icl' It' F).
  - pose proof (@found_is_exact cl t i Icl It Ii Ei) as F.
    destruct (Bool.eqb (Matching.shouldBeCompleted t)
                (Matching.isCurrentlyCompleted i)) eqn:Q.
    + right. apply Bool.eqb_prop in Q. symmetry. exact Q.
    + left. exists (item_id i, Matching.shouldBeCompleted t). split; [|reflexivity].
      unfold writesOf. apply in_flat_map. exists cl. split; [exact Icl|].
      apply in_flat_map. exists t. split; [exact It|].
      unfold writesOfTask. rewrite F, Q. now left.
Qed.

End Convergence.

End Simulation.


(** C5, as the code has it.  Take a board that answers every call, a
    card whose checklist items have distinct ids, and tasks of which no
    two share a normalised content.  Suppose that in a checklist of the
    card at most one item has a given task's normalised content as its
    normalised name, and that a task without such an item in a checklist
    is not sent there, by containment or by a keyword, to an item whose
    normalised name is the normalised content of a task (as when the
    matcher finds no item for it there).  Then, for every task and every
    item whose normalised name is the task's normalised content: after
    checklist reconciliation the item is still there under its id and
    name, and every item with that id is complete exactly when the
    task's status is [completed]. *)
Theorem checklist_convergence
    (cardId : Js.str) (tasks : list TodoTask) (w : World Board.t) :
  let cls := Board.checklistsOf (board w) cardId in
  Board.faults (board w) = [] ->
  NoDup (map item_id (flat_map Matching.itemsOf cls)) ->
  (forall t t', In t tasks -> In t' tasks ->
     Matching.cleanTaskContent (content t) = Matching.cleanTaskContent (content t') ->
     t = t') ->
  (forall cl t i j, In cl cls -> In t tasks ->
     In i (Matching.itemsOf cl) -> In j (Matching.itemsOf cl) ->
     Matching.exactMatch (Matching.cleanTaskContent (content t)) i = true ->
     Matching.exactMatch (Matching.cleanTaskContent (content t)) j = true ->
     i = j) ->
  (forall cl t j, In cl cls -> In t tasks ->
     (forall i, In i (Matching.itemsOf cl) ->
        Matching.exactMatch (Matching.cleanTaskContent (content t)) i = false) ->
     Matching.findMatchingChecklistItem (Matching.itemsOf cl) (content t) = Some j ->
     forall t', In t' tasks ->
       Matching.exactMatch (Matching.cleanTaskContent (content t')) j = false) ->
  forall cl t i,
    In cl cls -> In t tasks -> In i (Matching.itemsOf cl) ->
    Matching.exactMatch (Matching.cleanTaskContent (content t)) i = true ->
    let final :=
      Board.checklistsOf
        (board (snd (AutoSync.syncChecklistsWithTodoWrite cardId tasks w)))
        cardId in
    (exists cl' i',
        In cl' final /\ In i' (Matching.itemsOf cl')
        /\ item_id i' = item_id i /\ item_name i' = item_name i
        /\ Matching.isCurrentlyCompleted i' = Matching.shouldBeCompleted t)
    /\ (forall cl' i',
        In cl' final -> In i' (Matching.itemsOf cl') ->
        item_id i' = item_id i ->
        Matching.isCurrentlyCompleted i' = Matching.shouldBeCompleted t).
Proof.
  intros cls F N D U X cl t i Icl It Ii Ei final.
  pose proof (final_state_agrees tasks cls N D U X cl t i Icl It Ii Ei) as K.
  subst final. rewrite (syncChecklists_run cardId tasks w F).
  cbn [snd board]. rewrite checklistsOf_writes, writes_final. fold cls.
  set (us := writesOf cls tasks) in *. split.
  - exists (finalChecklist us cl), (finalItem us i). conjuncts; try reflexivity.
    + now apply in_map.
    + rewrite itemsOf_final. now apply in_map.
    + exact K.
  - intros cl' i' Icl' Ii' E.
    apply in_map_iff in Icl'. destruct Icl' as (cl0 & <- & Icl0).
    rewrite itemsOf_final in Ii'.
    apply in_map_iff in Ii'. destruct Ii' as (j & <- & Ij).
    cbn [finalItem item_id] in E.
    assert (j = i).
    { apply (NoDup_map_inj item_id (flat_map Matching.itemsOf cls));
        eauto using in_items. }
    subst j. exact K.
Qed.

Lemma checklist_convergence_witness :
  let final :=
    Board.checklistsOf
      (board (snd (AutoSync.syncChecklistsWithTodoWrite (Js.lit "card_123")
                     [Examples.task_api; Examples.task_ui]
                     (Examples.world_with
                        [Examples.checklist_backend; Examples.checklist_ui]))))
      (Js.lit "card_123") in
  (exists cl' i',
      In cl' final /\ In i' (Matching.itemsOf cl')
      /\ item_id i' = item_id Examples.item_ui
      /\ item_name i' = item_name Examples.item_ui
      /\ Matching.isCurrentlyCompleted i'
         = Matching.shouldBeCompleted Examples.task_ui)
  /\ (forall cl' i',
      In cl' final -> In i' (Matching.itemsOf cl') ->
      item_id i' = item_id Examples.item_ui ->
      Matching.isCurrentlyCompleted i'
      = Matching.shouldBeCompleted Examples.task_ui).
Proof.
  refine (@checklist_convergence (Js.lit "card_123")
            [Examples.task_api; Examples.task_ui]
            (Examples.world_with
               [Examples.checklist_backend; Examples.checklist_ui])
            eq_refl _ _ _ _ Examples.checklist_ui Examples.task_ui
            Examples.item_ui (or_intror (or_introl eq_refl))
            (or_intror (or_introl eq_refl))
            (or_introl eq_refl) eq_refl).
  - vm_compute. repeat constructor; intros I; vm_compute in I;
      repeat (destruct I as [I|I]; [discriminate I|]); exact I.
  - intros t t' [<-|[<-|[]]] [<-|[<-|[]]] E; try reflexivity;
      vm_compute in E; discriminate E.
  - intros cl t i j [<-|[<-|[]]] _ [<-|[]] [<-|[]] _ _; reflexivity.
  - intros cl t j [<-|[<-|[]]] [<-|[<-|[]]] X F; vm_compute in F;
      first [ discriminate F
            | specialize (X _ (or_introl eq_refl)); vm_compute in X;
              discriminate X ].
Defined.

(** C5, as the spec words it, fails in two ways.  First, two tasks whose
    contents differ and normalise to the same text match the one item
    with that normalised name; the first, completed, ticks it, and the
    second, pending, finds the fetched state in agreement and leaves
    it, so the item ends complete against a pending task.  Second, with
    two checklists a task has no exact match in the checklist that holds
    the item of the other task and falls back on containment there: the
    completed task ticks the item of the pending one. *)
Lemma convergence_fails_on_shared_items :
  let card := Js.lit "card_123" in
  let after tasks cls :=
    Board.checklistsOf
      (board (snd (AutoSync.syncChecklistsWithTodoWrite card tasks
                     (Examples.world_with cls)))) card in
  (Matching.cleanTaskContent (content Examples.task_tests_done)
   = Matching.cleanTaskContent (item_name Examples.item_tests)
   /\ Matching.cleanTaskContent (content Examples.task_tests_again)
      = Matching.cleanTaskContent (item_name Examples.item_tests)
   /\ after [Examples.task_tests_done; Examples.task_tests_again]
        [mkChecklist (Js.lit "checklist_1") (Js.lit "Development Tasks")
           (Some [Examples.item_tests])]
      = [mkChecklist (Js.lit "checklist_1") (Js.lit "Development Tasks")
           (Some [Examples.item_tests_done])]
   /\ Matching.isCurrentlyCompleted Examples.item_tests_done = true
   /\ Matching.shouldBeCompleted Examples.task_tests_again = false)
  /\ (Matching.exactMatch
        (Matching.cleanTaskContent (content Examples.task_api))
        Examples.item_api = true
      /\ Matching.exactMatch
           (Matching.cleanTaskContent (content Examples.task_api))
           Examples.item_api_client = false
      /\ Matching.exactMatch
           (Matching.cleanTaskContent (content Examples.task_api_client))
           Examples.item_api_client = true
      /\ Matching.exactMatch
           (Matching.cleanTaskContent (content Examples.task_api_client))
           Examples.item_api = false
      /\ after [Examples.task_api; Examples.task_api_client]
           [Examples.checklist_backend; Examples.checklist_frontend]
         = [mkChecklist (Js.lit "checklist_a") (Js.lit "Backend")
              (Some [mkItem (Js.lit "item_a") (Js.lit "Add API")
                       (Js.lit "complete")]);
            mkChecklist (Js.lit "checklist_b") (Js.lit "Frontend")
              (Some [mkItem (Js.lit "item_b") (Js.lit "Add API client")
                       (Js.lit "complete")])]
      /\ Matching.shouldBeCompleted Examples.task_api_client = false).
Proof. cbv zeta. conjuncts; vm_compute; reflexivity. Qed.

Lemma no_write_for_agreeing_items_witness :
  (forall items t i (w0 : World Board.t),
      Matching.findMatchingChecklistItem items (content t) = Some i ->
      Matching.shouldBeCompleted t = Matching.isCurrentlyCompleted i ->
      AutoSync.syncItem (Js.lit "card_123") items t w0 = (Ok tt, w0))
  /\ exists l,
      calls (snd (AutoSync.syncChecklistsWithTodoWrite (Js.lit "card_123")
                    Examples.three_tasks
                    (Examples.world_with [Examples.checklist_dev])))
      = calls (Examples.world_with [Examples.checklist_dev]) ++ l
      /\ Forall (sparesItem (Js.lit "card_123") (Js.lit "item_2")) l.
Proof.
  refine (@no_write_for_agreeing_items _ _ (Js.lit "card_123") (Js.lit "item_2")
            Examples.three_tasks (Examples.world_with [Examples.checklist_dev]) _).
  intros cls cl t i X Icl It F E.
  vm_compute in X. injection X as <-.
  destruct Icl as [<-|[]].
  destruct It as [<-|[<-|[<-|[]]]]; vm_compute in F; try discriminate F;
    injection F as <-; vm_compute in E; try discriminate E.
  reflexivity.
Defined.

(** C9, as the spec words it, fails when two tasks are matched to one
    item.  The item is complete and agrees with the completed task that
    bears its name; the pending task, whose content contains that name,
    is matched to the same item and unticks it. *)
Lemma write_despite_agreeing_pair :
  let card := Js.lit "card_123" in
  let items := [Examples.item_tests_done] in
  let cls := [mkChecklist (Js.lit "checklist_1") (Js.lit "Development Tasks")
                (Some items)] in
  Matching.findMatchingChecklistItem items (content Examples.task_tests_done)
  = Some Examples.item_tests_done
  /\ Matching.shouldBeCompleted Examples.task_tests_done
     = Matching.isCurrentlyCompleted Examples.item_tests_done
  /\ In (UpdateChecklistItem card (item_id Examples.item_tests_done) false)
       (issued (snd (AutoSync.syncChecklistsWithTodoWrite card
                       [Examples.task_tests_done; Examples.task_tests_login]
                       (Examples.world_with cls)))).
Proof.
  cbv zeta. split; [vm_compute; reflexivity|]. split; [reflexivity|].
  vm_compute. right. left. reflexivity.
Qed.

(* ----------------------------------------------------------------- *)
(** ** Description reconciler *)

Section ScanFacts.
Variable isTaskLine : Js.str -> bool.
Variable renderTask : TodoTask -> Js.str.
Variable tasks : list TodoTask.

Local Abbreviation scan := (Reconciler.scan isTaskLine renderTask tasks).

Lemma scan_found (inSec : bool) (lines : list Js.str) :
  snd (scan inSec true lines) = true.
Proof.
  revert inSec. induction lines as [|line rest IH]; intros inSec; [reflexivity|].
  simpl. destruct (isTaskLine line).
  - destruct inSec; apply IH.
  - destruct (inSec && Reconciler.isSectionEnd line).
    + specialize (IH false). destruct (scan false true rest). exact IH.
    + specialize (IH inSec). destruct (scan inSec true rest). exact IH.
Qed.

(** Before the first task line every line is kept. *)
Lemma scan_before (found : bool) (pre rest : list Js.str) :
  Forall (fun l => isTaskLine l = false) pre ->
  scan false found (pre ++ rest)
  = (pre ++ fst (scan false found rest), snd (scan false found rest)).
Proof.
  induction 1 as [|line pre H _ IH]; simpl.
  - now destruct (scan false found rest).
  - rewrite H, IH. reflexivity.
Qed.

(** Inside the task section, task lines are dropped and a line that does
    not end the section is kept. *)
Lemma scan_inside (found : bool) (sec rest : list Js.str) :
  Forall (fun l => isTaskLine l = true \/ Reconciler.isSectionEnd l = false) sec ->
  scan true found (sec ++ rest)
  = (filter (fun l => negb (isTaskLine l)) sec ++ fst (scan true found rest),
     snd (scan true found rest)).
Proof.
  induction 1 as [|line sec H _ IH]; simpl.
  - now destruct (scan true found rest).
  - destruct (isTaskLine line) eqn:T; simpl.
    + exact IH.
    + destruct H as [H|H]; [discriminate H|]. rewrite H, IH. reflexivity.
Qed.

(** The line that ends the section is preceded by the rendered tasks. *)
Lemma scan_end (found : bool) (line : Js.str) (rest : list Js.str) :
  isTaskLine line = false -> Reconciler.isSectionEnd line = true ->
  scan true found (line :: rest)
  = (map renderTask tasks ++ line :: fst (scan false found rest),
     snd (scan false found rest)).
Proof.
  intros T E. simpl. rewrite T, E. simpl. now destruct (scan false found rest).
Qed.

Lemma scan_task_block
    (body : Js.str) (pre : list Js.str) (first : Js.str)
    (sec : list Js.str) (closing : Js.str) (post : list Js.str) :
  Js.split 10 body = pre ++ first :: sec ++ closing :: post ->
  Forall (fun l => isTaskLine l = false) pre ->
  isTaskLine first = true ->
  Forall (fun l => isTaskLine l = true \/ Reconciler.isSectionEnd l = false) sec ->
  isTaskLine closing = false ->
  Reconciler.isSectionEnd closing = true ->
  Reconciler.generateUpdatedDescription isTaskLine renderTask body tasks
  = Js.join Js.nl
      (pre ++ filter (fun l => negb (isTaskLine l)) sec
           ++ map renderTask tasks
           ++ closing :: fst (scan false true post)).
Proof.
  intros S P F I T E. unfold Reconciler.generateUpdatedDescription.
  rewrite S, (scan_before false (first :: sec ++ closing :: post) P).
  cbn [Reconciler.scan]. rewrite F.
  rewrite (scan_inside true (closing :: post) I), (scan_end true post T E).
  cbn [fst snd]. rewrite scan_found. cbn [negb andb].
  reflexivity.
Qed.
End ScanFacts.

(** C3, as the code has it.  Let the lines of the body be: lines [pre]
    that are no task lines, a first task line, lines [sec] each of which
    is a task line or does not end a section, a line [closing] that is
    no task line and is blank or starts with [#] or [---], and the rest.
    Then the reconciled body is [pre], the lines of [sec] that are no
    task lines, one rendered line per task in sequence order, [closing],
    and the reconciled rest, with no section appended at the end.  A
    rendered line is [- ], the glyph of the status, a space, and the
    content without one leading glyph code unit and the white space that
    follows it; the glyph is ✅ for [completed], ⚙️ for [in_progress] and
    📋 for [pending]. *)
Theorem task_block_rewritten
    (body : Js.str) (tasks : list TodoTask) (pre : list Js.str)
    (first : Js.str) (sec : list Js.str) (closing : Js.str)
    (post : list Js.str) :
  Js.split 10 body = pre ++ first :: sec ++ closing :: post ->
  Forall (fun l => Description.isTaskLine l = false) pre ->
  Description.isTaskLine first = true ->
  Forall (fun l => Description.isTaskLine l = true
                   \/ Description.isSectionEnd l = false) sec ->
  Description.isTaskLine closing = false ->
  Description.isSectionEnd closing = true ->
  Description.generateUpdatedDescription body tasks
  = Js.join Js.nl
      (pre ++ filter (fun l => negb (Description.isTaskLine l)) sec
           ++ map Description.renderTask tasks
           ++ closing :: fst (Description.scan tasks false true post))
  /\ (forall t,
        Description.renderTask t
        = Js.lit "- " ++ Description.getStatusIcon (status t) ++ Js.lit " "
          ++ Description.stripIcon (content t))
  /\ Description.getStatusIcon s_completed = Js.lit "✅"
  /\ Description.getStatusIcon s_in_progress = Js.lit "⚙️"
  /\ Description.getStatusIcon s_pending = Js.lit "📋".
Proof.
  intros S P F I T E. split; [|conjuncts; try reflexivity; intros t; reflexivity].
  exact (@scan_task_block Description.isTaskLine Description.renderTask
           tasks body pre first sec closing post S P F I T E).
Qed.

(** The same for the copy of the loop in [slash-commands.ts], with its
    own pattern for a task line and its own rendering. *)
Lemma slash_task_block_rewritten
    (body : Js.str) (tasks : list TodoTask) (pre : list Js.str)
    (first : Js.str) (sec : list Js.str) (closing : Js.str)
    (post : list Js.str) :
  Js.split 10 body = pre ++ first :: sec ++ closing :: post ->
  Forall (fun l => SlashCommands.isTaskLine l = false) pre ->
  SlashCommands.isTaskLine first = true ->
  Forall (fun l => SlashCommands.isTaskLine l = true
                   \/ Reconciler.isSectionEnd l = false) sec ->
  SlashCommands.isTaskLine closing = false ->
  Reconciler.isSectionEnd closing = true ->
  SlashCommands.generateUpdatedDescription body tasks
  = Js.join Js.nl
      (pre ++ filter (fun l => negb (SlashCommands.isTaskLine l)) sec
           ++ map SlashCommands.renderTask tasks
           ++ closing
              :: fst (Reconciler.scan SlashCommands.isTaskLine
                        SlashCommands.renderTask tasks false true post)).
Proof.
  intros S P F I T E.
  exact (@scan_task_block SlashCommands.isTaskLine SlashCommands.renderTask
           tasks body pre first sec closing post S P F I T E).
Qed.

Lemma task_block_rewritten_witness :
  Description.generateUpdatedDescription Examples.body_plan [Examples.task_new]
  = Js.join Js.nl
      ([Js.lit "## Plan"] ++ filter (fun l => negb (Description.isTaskLine l)) []
         ++ map Description.renderTask [Examples.task_new]
         ++ [] :: fst (Description.scan [Examples.task_new] false true
                         [Js.lit "---"; Js.lit "footer"]))
  /\ (forall t,
        Description.renderTask t
        = Js.lit "- " ++ Description.getStatusIcon (status t) ++ Js.lit " "
          ++ Description.stripIcon (content t))
  /\ Description.getStatusIcon s_completed = Js.lit "✅"
  /\ Description.getStatusIcon s_in_progress = Js.lit "⚙️"
  /\ Description.getStatusIcon s_pending = Js.lit "📋".
Proof.
  refine (@task_block_rewritten Examples.body_plan [Examples.task_new]
            [Js.lit "## Plan"] (Js.lit "- 📋 old task") []
            [] [Js.lit "---"; Js.lit "footer"] eq_refl _ eq_refl _ eq_refl eq_refl).
  - repeat constructor.
  - constructor.
Defined.

(** Scenario A of the spec, computed: the old task line is gone, the new
    one stands in its place, the rule and the footer are as they were. *)
Example scenario_A :
  Description.generateUpdatedDescription Examples.body_plan [Examples.task_new]
  = Js.join Js.nl
      [ Js.lit "## Plan"; Js.lit "- ✅ new task"; []; Js.lit "---";
        Js.lit "footer" ].
Proof. vm_compute. reflexivity. Qed.

(** Scenario B of the spec, computed: without task lines in the body a
    section is appended. *)
Example scenario_B :
  Description.generateUpdatedDescription Examples.body_no_tasks
    [Examples.task_first]
  = Js.join Js.nl
      [ Js.lit "## Development Plan"; [];
        Js.lit "Just a description without tasks."; [];
        Js.lit "---"; Js.lit "*Some footer*"; [];
        Js.lit "## Current Tasks"; Js.lit "- 📋 First task" ].
Proof. vm_compute. reflexivity. Qed.

(** C3, as the spec words it, fails in two ways.  A line of prose right
    after the run of task lines does not end the section: it is kept
    where it is and the rendered tasks come after it, before the blank
    line.  And when the run of task lines reaches the end of the
    document, the old lines are dropped and nothing is written in their
    place. *)
Lemma task_lines_misplaced_or_lost :
  (Description.isTaskLine (Js.lit "- old task") = true
   /\ Description.isTaskLine (Js.lit "a note") = false
   /\ Description.generateUpdatedDescription
        (Js.join Js.nl [Js.lit "- old task"; Js.lit "a note"; []; Js.lit "end"])
        [Examples.task_new]
      = Js.join Js.nl
          [Js.lit "a note"; Js.lit "- ✅ new task"; []; Js.lit "end"])
  /\ (Description.isTaskLine (Js.lit "- 📋 old task") = true
      /\ Description.generateUpdatedDescription
           (Js.join Js.nl [Js.lit "## Plan"; Js.lit "- 📋 old task"])
           [Examples.task_new]
         = Js.lit "## Plan"
      /\ ~ In (Description.renderTask Examples.task_new)
             (Js.split 10
                (Description.generateUpdatedDescription
                   (Js.join Js.nl [Js.lit "## Plan"; Js.lit "- 📋 old task"])
                   [Examples.task_new]))).
Proof.
  conjuncts; try (vm_compute; reflexivity).
  vm_compute. intros [E|[]]. discriminate E.
Qed.

(** C1 fails on the code.  The body of the test suite that has no task
    lines gets a section appended, which leaves the task lines at the
    end of the document; the second pass drops them there and writes
    nothing back, so its output differs from its input. *)
Lemma reconcile_twice_drops_tasks :
  let once :=
    Description.generateUpdatedDescription Examples.body_no_tasks
      [Examples.task_first] in
  let twice := Description.generateUpdatedDescription once [Examples.task_first] in
  once = Js.join Js.nl
           [ Js.lit "## Development Plan"; [];
             Js.lit "Just a description without tasks."; [];
             Js.lit "---"; Js.lit "*Some footer*"; [];
             Js.lit "## Current Tasks"; Js.lit "- 📋 First task" ]
  /\ twice = Js.join Js.nl
               [ Js.lit "## Development Plan"; [];
                 Js.lit "Just a description without tasks."; [];
                 Js.lit "---"; Js.lit "*Some footer*"; [];
                 Js.lit "## Current Tasks" ]
  /\ twice <> once.
Proof.
  cbv zeta. conjuncts; try (vm_compute; reflexivity).
  vm_compute. intros E. discriminate E.
Qed.

(* ================================================================= *)
(** * Further properties of the engine *)

(* ----------------------------------------------------------------- *)
(** ** Lines of a description *)

Lemma split_cons_cases (c : N) (s : Js.str) :
  exists l ls, Js.split 10 s = l :: ls.
Proof.
  induction s as [|x s (l & ls & E)]; simpl.
  - now exists [], [].
  - destruct (x =? 10)%N.
    + now exists [], (Js.split 10 s).
    + rewrite E. now exists (x :: l), ls.
Qed.

Lemma split_nonempty (s : Js.str) : Js.split 10 s <> [].
Proof. destruct (split_cons_cases 0 s) as (l & ls & E). now rewrite E. Qed.

Lemma split_noNewline (s : Js.str) : Forall noNewline (Js.split 10 s).
Proof.
  induction s as [|x s IH]; simpl.
  - repeat constructor. intros [].
  - destruct (x =? 10)%N eqn:Q.
    + constructor; [intros []|exact IH].
    + destruct (Js.split 10 s) as [|l ls]; [repeat constructor|].
      * intros [E|[]]. subst. discriminate Q.
      * inversion IH as [|? ? Hl Hls]; subst. constructor; [|exact Hls].
        intros [E|I]; [subst; discriminate Q|now apply Hl].
Qed.

Lemma split_line (l : Js.str) :
  noNewline l -> Js.split 10 l = [l].
Proof.
  induction l as [|x l IH]; intros N; [reflexivity|]. simpl.
  destruct (x =? 10)%N eqn:Q.
  - apply N.eqb_eq in Q. subst. exfalso. apply N. now left.
  - rewrite IH; [reflexivity|]. intros I. apply N. now right.
Qed.

Lemma split_app_nl (l rest : Js.str) :
  noNewline l ->
  Js.split 10 (l ++ 10%N :: rest) = l :: Js.split 10 rest.
Proof.
  induction l as [|x l IH]; intros N; [reflexivity|]. simpl.
  destruct (x =? 10)%N eqn:Q.
  - apply N.eqb_eq in Q. subst. exfalso. apply N. now left.
  - rewrite IH; [reflexivity|]. intros I. apply N. now right.
Qed.

Lemma split_join (lines : list Js.str) :
  lines <> [] -> Forall noNewline lines ->
  Js.split 10 (Js.join Js.nl lines) = lines.
Proof.
  induction lines as [|l lines IH]; intros NE F; [congruence|].
  inversion F as [|? ? Hl Hls]; subst.
  destruct lines as [|l' lines].
  - simpl. now apply split_line.
  - change (Js.join Js.nl (l :: l' :: lines))
      with (l ++ 10%N :: Js.join Js.nl (l' :: lines)).
    rewrite split_app_nl by exact Hl. f_equal. apply IH; [discriminate|exact Hls].
Qed.

Lemma join_split (s : Js.str) : Js.join Js.nl (Js.split 10 s) = s.
Proof.
  induction s as [|x s IH]; [reflexivity|]. simpl.
  destruct (x =? 10)%N eqn:Q.
  - apply N.eqb_eq in Q. subst.
    destruct (Js.split 10 s) as [|l ls] eqn:E; [now destruct (split_nonempty s)|].
    change (Js.join Js.nl ([] :: l :: ls)) with (10%N :: Js.join Js.nl (l :: ls)).
    now rewrite IH.
  - destruct (Js.split 10 s) as [|l ls] eqn:E; [now destruct (split_nonempty s)|].
    rewrite <- IH. destruct ls; reflexivity.
Qed.

Lemma dropWhile_stops (f : N -> bool) (a : Js.str) (c : N) (b : Js.str) :
  f c = false -> exists a', Js.dropWhile f (a ++ c :: b) = a' ++ c :: b.
Proof.
  intros H. induction a as [|x a (a' & IH)]; simpl.
  - exists []. now rewrite H.
  - destruct (f x); [now exists a'|now exists (x :: a)].
Qed.

Lemma trimEnd_keeps (p : Js.str) (c : N) (rest : Js.str) :
  Js.isSpace c = false ->
  exists rest', Js.trimEnd (p ++ c :: rest) = p ++ c :: rest'.
Proof.
  intros H. unfold Js.trimEnd.
  replace (rev (p ++ c :: rest)) with (rev rest ++ c :: rev p).
  - destruct (@dropWhile_stops Js.isSpace (rev rest) c (rev p) H) as (a' & ->).
    exists (rev a'). rewrite rev_app_distr. simpl.
    now rewrite rev_involutive, <- app_assoc.
  - rewrite rev_app_distr. simpl. now rewrite <- app_assoc.
Qed.

Lemma test_nullable (r : Re.t) (s : Js.str) :
  Re.nullable r = true -> Re.test r s = true.
Proof. intros H. destruct s; simpl; now rewrite H. Qed.

Lemma bullet_glyph_isTaskLine (c : N) (rest : Js.str) :
  c = 9989%N \/ c = 9881%N \/ c = 55357%N ->
  Description.isTaskLine (45%N :: 32%N :: c :: rest) = true.
Proof.
  intros C.
  assert (S : Js.isSpace c = false) by (destruct C as [->|[->| ->]]; reflexivity).
  unfold Description.isTaskLine, Js.trim, Js.trimStart.
  cbn [Js.dropWhile]. change (Js.isSpace 45) with false. cbn iota.
  destruct (@trimEnd_keeps [45%N; 32%N] c rest S) as (rest' & E).
  cbn [app] in E. rewrite E. apply orb_true_iff. left.
  cbn [Re.test].
  destruct C as [->|[->| ->]];
    rewrite test_nullable by (vm_compute; reflexivity); reflexivity.
Qed.

Lemma renderTask_isTaskLine (t : TodoTask) :
  Description.isTaskLine (Description.renderTask t) = true.
Proof.
  unfold Description.renderTask, Description.getStatusIcon.
  destruct (Js.eqb (status t) s_completed);
    [|destruct (Js.eqb (status t) s_in_progress)].
  - apply (@bullet_glyph_isTaskLine 9989%N
             (Js.lit " " ++ Description.stripIcon (content t))). tauto.
  - apply (@bullet_glyph_isTaskLine 9881%N
             (65039%N :: Js.lit " " ++ Description.stripIcon (content t))). tauto.
  - apply (@bullet_glyph_isTaskLine 55357%N
             (56523%N :: Js.lit " " ++ Description.stripIcon (content t))). tauto.
Qed.

Section ReconcilerFacts.
Variable isTaskLine : Js.str -> bool.
Variable renderTask : TodoTask -> Js.str.
Variable tasks : list TodoTask.

Hypothesis rendered_is_task_line : forall t, isTaskLine (renderTask t) = true.
Hypothesis blank_is_no_task_line : isTaskLine [] = false.
Hypothesis heading_is_no_task_line :
  isTaskLine (Js.lit "## Current Tasks") = false.

Local Abbreviation scan := (Reconciler.scan isTaskLine renderTask tasks).
Local Abbreviation other := (fun l : Js.str => negb (isTaskLine l)).



Lemma scan_found_iff (found : bool) (lines : list Js.str) :
  snd (scan false found lines) = found || existsb isTaskLine lines.
Proof.
  induction lines as [|line rest IH].
  - simpl. now rewrite orb_false_r.
  - simpl. destruct (isTaskLine line) eqn:T; simpl.
    + rewrite (scan_found isTaskLine renderTask tasks true rest).
      now rewrite orb_true_r.
    + now destruct (scan false found rest).
Qed.


Lemma scan_without_task_lines (found : bool) (lines : list Js.str) :
  Forall (fun l => isTaskLine l = false) lines ->
  scan false found lines = (lines, found).
Proof.
  induction 1 as [|line rest H _ IH]; [reflexivity|].
  simpl. now rewrite H, IH.
Qed.

Lemma generate_is_join (body : Js.str) :
  Reconciler.generateUpdatedDescription isTaskLine renderTask body tasks
  = Js.join Js.nl (ReconcilerState.updatedLines isTaskLine renderTask body tasks).
Proof.
  unfold Reconciler.generateUpdatedDescription, ReconcilerState.updatedLines.
  destruct (Reconciler.scan _ _ _ _ _ _) as [out f].
  now destruct (negb f && _).
Qed.



(** A body without task lines. *)
Lemma updatedLines_without_task_lines (body : Js.str) :
  Forall (fun l => isTaskLine l = false) (Js.split 10 body) ->
  ReconcilerState.updatedLines isTaskLine renderTask body tasks
  = Js.split 10 body
    ++ (if 0 <? List.length tasks
        then [[]; Js.lit "## Current Tasks"] ++ map renderTask tasks else []).
Proof.
  intros H. unfold ReconcilerState.updatedLines.
  rewrite (scan_without_task_lines false H). simpl.
  destruct (0 <? List.length tasks); [reflexivity|now rewrite app_nil_r].
Qed.

Lemma scan_all_task_lines (found : bool) (lines : list Js.str) :
  Forall (fun l => isTaskLine l = true) lines ->
  fst (scan true found lines) = [].
Proof.
  induction 1 as [|line rest H _ IH]; [reflexivity|].
  simpl. now rewrite H.
Qed.

Lemma scan_task_tail (pre tail : list Js.str) :
  Forall (fun l => isTaskLine l = false) pre ->
  Forall (fun l => isTaskLine l = true) tail -> tail <> [] ->
  scan false false (pre ++ tail) = (pre, true).
Proof.
  intros P A NE. rewrite (@scan_before isTaskLine renderTask tasks false pre tail P).
  destruct tail as [|l ls]; [congruence|].
  inversion A as [|? ? Hl Hls]; subst.
  cbn [Reconciler.scan]. rewrite Hl.
  rewrite (scan_all_task_lines true Hls),
    (scan_found isTaskLine renderTask tasks true ls).
  now rewrite app_nil_r.
Qed.

(** The section that the first pass appends is lost by the second. *)
Lemma appended_section_lost (body : Js.str) :
  tasks <> [] ->
  Forall (fun l => isTaskLine l = false) (Js.split 10 body) ->
  Forall (fun t => noNewline (renderTask t)) tasks ->
  let once :=
    Reconciler.generateUpdatedDescription isTaskLine renderTask body tasks in
  once = Js.join Js.nl
           (Js.split 10 body ++ [[]; Js.lit "## Current Tasks"]
              ++ map renderTask tasks)
  /\ Reconciler.generateUpdatedDescription isTaskLine renderTask once tasks
     = Js.join Js.nl (Js.split 10 body ++ [[]; Js.lit "## Current Tasks"]).
Proof.
  intros NE H NL once.
  assert (L : (0 <? List.length tasks) = true) by (now destruct tasks).
  assert (E1 : once = Js.join Js.nl
                 (Js.split 10 body ++ [[]; Js.lit "## Current Tasks"]
                    ++ map renderTask tasks)).
  { subst once. rewrite generate_is_join, updatedLines_without_task_lines by exact H.
    now rewrite L. }
  split; [exact E1|].
  unfold Reconciler.generateUpdatedDescription. rewrite E1.
  rewrite split_join.
  - rewrite app_assoc, scan_task_tail; [reflexivity| | |].
    + apply Forall_app. split; [exact H|]. now repeat constructor.
    + apply Forall_forall. intros l I. apply in_map_iff in I.
      destruct I as (x & <- & _). apply rendered_is_task_line.
    + intros E. apply map_eq_nil in E. contradiction.
  - destruct (Js.split 10 body); discriminate.
  - apply Forall_app. split; [apply split_noNewline|].
    constructor; [intros []|]. constructor.
    + intros I. vm_compute in I. repeat (destruct I as [I|I]; [discriminate I|]).
      exact I.
    + apply Forall_forall. intros l I. apply in_map_iff in I.
      destruct I as (x & <- & Ix). rewrite Forall_forall in NL. now apply NL.
Qed.
Local Abbreviation endsInSection := (ReconcilerState.endsInSection isTaskLine).
Local Abbreviation rendered := (map renderTask tasks).

Lemma rendered_all_task_lines : Forall (fun l => isTaskLine l = true) rendered.
Proof.
  apply Forall_forall. intros l I. apply in_map_iff in I.
  destruct I as (x & <- & _). apply rendered_is_task_line.
Qed.

(** What the second pass makes of a rendered block and its closing
    line. *)
Lemma scan_rendered_block (found : bool) (line : Js.str) (rest : list Js.str) :
  isTaskLine line = false -> Reconciler.isSectionEnd line = true ->
  fst (scan false found (rendered ++ line :: rest))
  = rendered ++ line :: fst (scan false (found || negb (0 =? List.length tasks)) rest)
  /\ snd (scan false found (rendered ++ line :: rest))
     = snd (scan false (found || negb (0 =? List.length tasks)) rest).
Proof.
  intros T E. pose proof rendered_all_task_lines as A.
  assert (Len : List.length rendered = List.length tasks) by apply length_map.
  destruct rendered as [|r rs] eqn:R.
  - cbn [app Reconciler.scan]. rewrite T. cbn [andb].
    rewrite <- Len. cbn. rewrite orb_false_r.
    now destruct (Reconciler.scan _ _ _ _ _ rest).
  - rewrite <- Len. cbn [List.length Nat.eqb negb]. rewrite orb_true_r.
    inversion A as [|? ? Hr Hrs]; subst.
    cbn [app Reconciler.scan]. rewrite Hr.
    assert (I : Forall (fun l => isTaskLine l = true
                                 \/ Reconciler.isSectionEnd l = false) rs).
    { eapply Forall_impl; [|exact Hrs]. intros; now left. }
    rewrite (@scan_inside isTaskLine renderTask tasks true rs (line :: rest) I).
    rewrite (@scan_end isTaskLine renderTask tasks true line rest T E).
    cbn [fst snd].
    assert (F : filter other rs = []).
    { clear -Hrs. induction Hrs as [|x l H _ IH]; [reflexivity|].
      simpl. now rewrite H. }
    rewrite F, R. split; reflexivity.
Qed.

Lemma rescan_lines (lines : list Js.str) :
  forall inSec found found2,
    endsInSection inSec lines = false ->
    fst (scan false found2 (fst (scan inSec found lines)))
    = fst (scan inSec found lines).
Proof.
  induction lines as [|line rest IH]; intros inSec found found2 C; [reflexivity|].
  cbn [Reconciler.scan ReconcilerState.endsInSection] in *.
  destruct (isTaskLine line) eqn:T; [now apply IH|].
  destruct (inSec && Reconciler.isSectionEnd line) eqn:B.
  - apply andb_true_iff in B. destruct B as [_ E].
    specialize (IH false found). destruct (scan false found rest) as [out f].
    cbn [fst] in *.
    destruct (scan_rendered_block found2 out T E) as [-> _]. now rewrite IH.
  - specialize (IH inSec found found2 C).
    destruct (scan inSec found rest) as [out f]. cbn [fst] in *.
    cbn [Reconciler.scan]. rewrite T. cbn [andb].
    destruct (scan false found2 out) as [out' f']. cbn [fst] in *. now rewrite IH.
Qed.

Lemma rescan_found (lines : list Js.str) :
  forall inSec found found2,
    tasks <> [] ->
    endsInSection inSec lines = false ->
    inSec = true \/ existsb isTaskLine lines = true ->
    snd (scan false found2 (fst (scan inSec found lines))) = true.
Proof.
  induction lines as [|line rest IH]; intros inSec found found2 NE C D.
  - cbn in C. destruct D as [D|D]; [congruence|discriminate D].
  - cbn [Reconciler.scan ReconcilerState.endsInSection existsb] in *.
    destruct (isTaskLine line) eqn:T; [apply IH; auto|].
    destruct (inSec && Reconciler.isSectionEnd line) eqn:B.
    + apply andb_true_iff in B. destruct B as [_ E].
      destruct (scan false found rest) as [out f]. cbn [fst].
      destruct (scan_rendered_block found2 out T E) as [_ ->].
      assert (N : (0 =? List.length tasks) = false).
      { destruct (List.length tasks) eqn:Q; [|reflexivity].
        apply length_zero_iff_nil in Q. contradiction. }
      rewrite N, orb_true_r. apply scan_found.
    + specialize (IH inSec found found2 NE C D).
      destruct (scan inSec found rest) as [out f]. cbn [fst] in *.
      cbn [Reconciler.scan]. rewrite T. cbn [andb].
      now destruct (scan false found2 out).
Qed.

Lemma scan_nonempty (lines : list Js.str) :
  forall inSec found,
    lines <> [] -> endsInSection inSec lines = false ->
    fst (scan inSec found lines) <> [].
Proof.
  induction lines as [|line rest IH]; intros inSec found NE C; [congruence|].
  cbn [Reconciler.scan ReconcilerState.endsInSection] in *.
  destruct (isTaskLine line).
  - apply IH; [|exact C]. intros ->. discriminate C.
  - destruct (inSec && Reconciler.isSectionEnd line).
    + destruct (scan false found rest). cbn. now destruct rendered.
    + destruct (scan inSec found rest). discriminate.
Qed.

Lemma scan_noNewline (lines : list Js.str) :
  forall inSec found,
    Forall noNewline rendered -> Forall noNewline lines ->
    Forall noNewline (fst (scan inSec found lines)).
Proof.
  induction lines as [|line rest IH]; intros inSec found R L; [constructor|].
  inversion L as [|? ? Hl Hr]; subst. cbn [Reconciler.scan].
  destruct (isTaskLine line); [now apply IH|].
  destruct (inSec && Reconciler.isSectionEnd line).
  - specialize (IH false found R Hr). destruct (scan false found rest).
    cbn [fst] in *. apply Forall_app. split; [exact R|now constructor].
  - specialize (IH inSec found R Hr). destruct (scan inSec found rest).
    cbn [fst] in *. now constructor.
Qed.

Lemma idempotent_when_closed (body : Js.str) :
  Forall (fun t => noNewline (renderTask t)) tasks ->
  endsInSection false (Js.split 10 body) = false ->
  existsb isTaskLine (Js.split 10 body) = true \/ tasks = [] ->
  let once :=
    Reconciler.generateUpdatedDescription isTaskLine renderTask body tasks in
  Reconciler.generateUpdatedDescription isTaskLine renderTask once tasks = once.
Proof.
  intros NL C D once.
  assert (R : Forall noNewline rendered).
  { apply Forall_forall. intros l I. apply in_map_iff in I.
    destruct I as (x & <- & Ix). rewrite Forall_forall in NL. now apply NL. }
  set (out := fst (scan false false (Js.split 10 body))).
  assert (E : once = Js.join Js.nl out).
  { subst once out. unfold Reconciler.generateUpdatedDescription.
    pose proof (scan_found_iff false (Js.split 10 body)) as F.
    destruct (scan false false (Js.split 10 body)) as [o f].
    cbn [fst snd] in *. rewrite orb_false_l in F.
    destruct D as [D|D]; [now rewrite F, D|].
    rewrite D. now rewrite andb_false_r. }
  pose proof (rescan_lines (Js.split 10 body) false false false C) as RS.
  pose proof (@scan_nonempty (Js.split 10 body) false false
                (@split_nonempty body) C) as NEo.
  pose proof (@scan_noNewline (Js.split 10 body) false false R
                (split_noNewline body)) as NLo.
  fold out in RS, NEo, NLo.
  rewrite E. unfold Reconciler.generateUpdatedDescription.
  rewrite (split_join NEo NLo).
  assert (A2 : negb (snd (scan false false out)) && (0 <? List.length tasks) = false).
  { destruct D as [D|D].
    - destruct (List.length tasks) eqn:Q; [now rewrite andb_false_r|].
      unfold out. rewrite rescan_found; [reflexivity| |exact C|now right].
      intros Z. now rewrite Z in Q.
    - rewrite D. now rewrite andb_false_r. }
  destruct (scan false false out) as [out2 f2]. cbn [fst snd] in *.
  now rewrite A2, RS.
Qed.

End ReconcilerFacts.

Lemma join_app (l1 l2 : list Js.str) :
  l1 <> [] -> l2 <> [] ->
  Js.join Js.nl (l1 ++ l2) = Js.join Js.nl l1 ++ Js.nl ++ Js.join Js.nl l2.
Proof.
  intros N1 N2. induction l1 as [|a l1 IH]; [congruence|].
  destruct l1 as [|b l1].
  - destruct l2; [congruence|reflexivity].
  - change (Js.join Js.nl ((a :: b :: l1) ++ l2))
      with (a ++ Js.nl ++ Js.join Js.nl ((b :: l1) ++ l2)).
    rewrite IH by discriminate.
    change (Js.join Js.nl (a :: b :: l1)) with (a ++ Js.nl ++ Js.join Js.nl (b :: l1)).
    now rewrite <- !app_assoc.
Qed.

Lemma dropWhile_incl (f : N -> bool) (s : Js.str) (x : N) :
  In x (Js.dropWhile f s) -> In x s.
Proof.
  induction s as [|c s IH]; simpl; [tauto|].
  destruct (f c); [intros I; right; now apply IH|trivial].
Qed.

Lemma stripIcon_incl (s : Js.str) (x : N) :
  In x (Description.stripIcon s) -> In x s.
Proof.
  destruct s as [|c s]; simpl; [tauto|].
  destruct (isIconUnit c); [|trivial].
  intros I. right. now apply dropWhile_incl in I.
Qed.

Lemma renderTask_noNewline (t : TodoTask) :
  noNewline (content t) -> noNewline (Description.renderTask t).
Proof.
  intros H I. unfold Description.renderTask, Description.getStatusIcon in I.
  apply in_app_or in I. destruct I as [I|I].
  { vm_compute in I. repeat (destruct I as [I|I]; [discriminate I|]). exact I. }
  apply in_app_or in I. destruct I as [I|I].
  { destruct (Js.eqb (status t) s_completed);
      [|destruct (Js.eqb (status t) s_in_progress)];
      vm_compute in I; repeat (destruct I as [I|I]; [discriminate I|]); exact I. }
  apply in_app_or in I. destruct I as [I|I].
  { vm_compute in I. repeat (destruct I as [I|I]; [discriminate I|]). exact I. }
  apply H. now apply stripIcon_incl.
Qed.






(** A body without task lines is returned as it is when there are no
    tasks, and otherwise gets a blank line, the heading [## Current Tasks]
    and the rendered tasks appended. *)
Theorem reconciler_appends_section (body : Js.str) (tasks : list TodoTask) :
  Forall (fun l => Description.isTaskLine l = false) (Js.split 10 body) ->
  Description.generateUpdatedDescription body [] = body
  /\ (tasks <> [] ->
      Description.generateUpdatedDescription body tasks
      = body ++ Js.nl ++ Js.nl ++ Js.lit "## Current Tasks" ++ Js.nl
        ++ Js.join Js.nl (map Description.renderTask tasks)).
Proof.
  intros H. split.
  - unfold Description.generateUpdatedDescription.
    rewrite generate_is_join, updatedLines_without_task_lines by exact H.
    cbn. rewrite app_nil_r. apply join_split.
  - intros NE. unfold Description.generateUpdatedDescription.
    rewrite generate_is_join, updatedLines_without_task_lines by exact H.
    assert (L : (0 <? List.length tasks) = true) by (now destruct tasks).
    rewrite L, join_app, join_split; [|apply split_nonempty|discriminate].
    destruct tasks as [|t ts]; [congruence|].
    reflexivity.
Qed.

(** The section that a first pass appends does not survive a second
    pass with the same tasks: the tasks are at the end of the document,
    the loop drops them and nothing is written back, so what is left is
    the body, a blank line and the heading. *)
Theorem appended_section_lost_on_second_pass (body : Js.str)
    (tasks : list TodoTask) :
  tasks <> [] ->
  Forall (fun l => Description.isTaskLine l = false) (Js.split 10 body) ->
  Forall (fun t => noNewline (content t)) tasks ->
  let once := Description.generateUpdatedDescription body tasks in
  let twice := Description.generateUpdatedDescription once tasks in
  twice = body ++ Js.nl ++ Js.nl ++ Js.lit "## Current Tasks"
  /\ twice <> once.
Proof.
  intros NE H NL once twice.
  assert (NR : Forall (fun t => noNewline (Description.renderTask t)) tasks).
  { eapply Forall_impl; [|exact NL]. intros t. apply renderTask_noNewline. }
  destruct (@appended_section_lost Description.isTaskLine Description.renderTask
              tasks renderTask_isTaskLine eq_refl eq_refl body NE H NR)
    as [E1 E2].
  fold (Description.generateUpdatedDescription body tasks) in E1, E2.
  fold once in E1, E2.
  fold (Description.generateUpdatedDescription once tasks) in E2. fold twice in E2.
  split.
  - rewrite E2, join_app, join_split; [reflexivity|apply split_nonempty|discriminate].
  - intros Q. rewrite E1, E2 in Q.
    apply (f_equal (Js.split 10)) in Q.
    assert (N1 : Forall noNewline (Js.split 10 body ++ [[]; Js.lit "## Current Tasks"])).
    { apply Forall_app. split; [apply split_noNewline|].
      constructor; [intros []|]. constructor; [|constructor].
      intros I. vm_compute in I.
      repeat (destruct I as [I|I]; [discriminate I|]). exact I. }
    rewrite split_join in Q; [|destruct (Js.split 10 body); discriminate|exact N1].
    rewrite app_assoc, split_join in Q.
    + rewrite <- (app_nil_r (Js.split 10 body ++ _)) in Q at 1.
      apply app_inv_head in Q. symmetry in Q. apply map_eq_nil in Q. contradiction.
    + destruct (Js.split 10 body); discriminate.
    + apply Forall_app. split; [exact N1|].
      apply Forall_forall. intros l I. apply in_map_iff in I.
      destruct I as (x & <- & Ix). rewrite Forall_forall in NR. now apply NR.
Qed.

(** When the loop leaves the body outside a task section (the last
    task section is followed by a blank, [#] or [---] line), and the body
    has a task line or there are no tasks, a second pass with the same
    tasks returns its input: the reconciler is idempotent there. *)
Theorem reconcile_idempotent_when_sections_closed (body : Js.str)
    (tasks : list TodoTask) :
  Forall (fun t => noNewline (content t)) tasks ->
  ReconcilerState.endsInSection Description.isTaskLine false (Js.split 10 body)
  = false ->
  existsb Description.isTaskLine (Js.split 10 body) = true \/ tasks = [] ->
  let once := Description.generateUpdatedDescription body tasks in
  Description.generateUpdatedDescription once tasks = once.
Proof.
  intros NL C D.
  apply (@idempotent_when_closed Description.isTaskLine Description.renderTask
           tasks renderTask_isTaskLine body); trivial.
  eapply Forall_impl; [|exact NL]. intros t. apply renderTask_noNewline.
Qed.

Lemma no_task_line_by_computation (f : Js.str -> bool) (l : list Js.str) :
  forallb (fun x => negb (f x)) l = true -> Forall (fun x => f x = false) l.
Proof.
  intros H. apply Forall_forall. intros x I.
  rewrite forallb_forall in H. specialize (H x I). now destruct (f x).
Qed.


Lemma reconciler_appends_section_witness :
  Description.generateUpdatedDescription Examples.body_no_tasks [] 
  = Examples.body_no_tasks
  /\ ([Examples.task_first] <> [] ->
      Description.generateUpdatedDescription Examples.body_no_tasks
        [Examples.task_first]
      = Examples.body_no_tasks ++ Js.nl ++ Js.nl ++ Js.lit "## Current Tasks"
        ++ Js.nl ++ Js.join Js.nl (map Description.renderTask [Examples.task_first])).
Proof.
  apply (@reconciler_appends_section Examples.body_no_tasks [Examples.task_first]).
  apply no_task_line_by_computation. vm_compute. reflexivity.
Defined.

Lemma appended_section_lost_on_second_pass_witness :
  let once :=
    Description.generateUpdatedDescription Examples.body_no_tasks
      [Examples.task_first] in
  let twice := Description.generateUpdatedDescription once [Examples.task_first] in
  twice = Examples.body_no_tasks ++ Js.nl ++ Js.nl ++ Js.lit "## Current Tasks"
  /\ twice <> once.
Proof.
  apply (@appended_section_lost_on_second_pass Examples.body_no_tasks
           [Examples.task_first]).
  - discriminate.
  - apply no_task_line_by_computation. vm_compute. reflexivity.
  - repeat constructor. intros I. vm_compute in I.
    repeat (destruct I as [I|I]; [discriminate I|]). exact I.
Defined.

Lemma reconcile_idempotent_when_sections_closed_witness :
  let once :=
    Description.generateUpdatedDescription Examples.body_plan [Examples.task_new] in
  Description.generateUpdatedDescription once [Examples.task_new] = once.
Proof.
  apply (@reconcile_idempotent_when_sections_closed Examples.body_plan
           [Examples.task_new]).
  - repeat constructor. intros I. vm_compute in I.
    repeat (destruct I as [I|I]; [discriminate I|]). exact I.
  - vm_compute. reflexivity.
  - left. vm_compute. reflexivity.
Defined.

(* ================================================================= *)
(** * The session file ([utils/session.ts]) *)

(** When the session file can be written, [getActiveCard] after
    [setActiveCard] returns the card and the tasks that were set; the
    creation date of an earlier session is kept, otherwise it is the time
    of the call; and [updateSessionTasks] afterwards replaces the tasks
    and keeps the card (for a card id that is not the empty string). *)
Theorem session_set_then_get (cardId cardName : Js.str)
    (tasks : option (list TodoTask)) (d : Disk) :
  writable d = true ->
  let d' := Session.setActiveCard cardId cardName tasks d in
  Session.getActiveCard d' = (Some cardId, Some cardName, tasks)
  /\ createdAt (Session.loadSession d')
     = Some (Js.orElse (createdAt (Session.loadSession d)) (now d))
  /\ lastActivity (Session.loadSession d') = Some (now d)
  /\ (forall newTasks,
        Js.truthy (Some cardId) = true ->
        Session.getActiveCard (Session.updateSessionTasks newTasks d')
        = (Some cardId, Some cardName, Some newTasks)).
Proof.
  intros W d'. subst d'. destruct d as [f w n m lv]. cbn in W. subst w.
  conjuncts; try reflexivity.
  intros newTasks T. unfold Session.updateSessionTasks.
  cbn. cbn in T. rewrite T. reflexivity.
Qed.

(** When the session file can be written, no card is active after
    [clearSession]; a missing file is not created, an existing one (also
    an unreadable one) is overwritten with the empty session. *)
Theorem session_clear (d : Disk) :
  writable d = true ->
  Session.getActiveCard (Session.clearSession d) = (None, None, None)
  /\ (file d = Absent -> Session.clearSession d = d)
  /\ (file d <> Absent -> file (Session.clearSession d) = Stored emptySession).
Proof.
  intros W. unfold Session.getActiveCard, Session.clearSession, Session.existsSync.
  destruct (file d) eqn:F; unfold Session.loadSession, Session.writeFileSync;
    rewrite ?W; cbn [file]; rewrite ?F; conjuncts; try reflexivity; try congruence.
Qed.


Lemma session_set_then_get_witness :
  let d' :=
    Session.setActiveCard (Js.lit "card_9") (Js.lit "New card") None
      Examples.disk_tracking in
  Session.getActiveCard d' = (Some (Js.lit "card_9"), Some (Js.lit "New card"), None)
  /\ createdAt (Session.loadSession d')
     = Some (Js.orElse (createdAt (Session.loadSession Examples.disk_tracking))
               (now Examples.disk_tracking))
  /\ lastActivity (Session.loadSession d') = Some (now Examples.disk_tracking)
  /\ (forall newTasks,
        Js.truthy (Some (Js.lit "card_9")) = true ->
        Session.getActiveCard (Session.updateSessionTasks newTasks d')
        = (Some (Js.lit "card_9"), Some (Js.lit "New card"), Some newTasks)).
Proof.
  exact (@session_set_then_get (Js.lit "card_9") (Js.lit "New card") None
           Examples.disk_tracking eq_refl).
Defined.

Lemma session_clear_witness :
  Session.getActiveCard (Session.clearSession Examples.disk_tracking)
  = (None, None, None)
  /\ (file Examples.disk_tracking = Absent ->
      Session.clearSession Examples.disk_tracking = Examples.disk_tracking)
  /\ (file Examples.disk_tracking <> Absent ->
      file (Session.clearSession Examples.disk_tracking) = Stored emptySession).
Proof. exact (@session_clear Examples.disk_tracking eq_refl). Defined.


(* ================================================================= *)
(** * The sync orchestrator ([simple-auto-sync.ts]) *)

Ltac emits_goal :=
  lazymatch goal with
  | |- exists l, calls (snd (?m ?w)) = calls ?w ++ l /\ Forall ?P l =>
      apply (fun H : emits P m => H w)
  end.

Section Orchestrator.
Context {R : Type} {client : BoardClient R}.
Import Eff.
Local Abbreviation M := (@Eff.M R).

Lemma syncChecklists_onCard cardId tasks :
  emits (onCard cardId)
    (AutoSync.syncChecklistsWithTodoWrite cardId tasks : M unit).
Proof.
  unfold AutoSync.syncChecklistsWithTodoWrite.
  apply emits_tryCatch; [|emits_handler].
  apply emits_bind.
  - apply (emits_call (onCard cardId) (GetCardChecklists cardId)).
    intros o. apply Js_eqb_refl.
  - intros [|cl cls]; [apply emits_ret|].
    apply emits_forEach. intros x _. apply emits_forEach. intros t _.
    unfold AutoSync.syncItem.
    destruct (Matching.findMatchingChecklistItem _ _) as [i|]; [|apply emits_ret].
    destruct (Bool.eqb _ _); [apply emits_ret|].
    apply (emits_call (onCard cardId)
             (UpdateChecklistItem cardId (item_id i) (Matching.shouldBeCompleted t))).
    intros o. apply Js_eqb_refl.
Qed.

Lemma autoSync_body_onCard (tasks : list TodoTask) (w : World R) :
  exists l,
    calls (snd (AutoSync.syncTasksBody tasks w)) = calls w ++ l
    /\ Forall (onCard (Js.orElse (currentCardId (Session.loadSession (disk w))) [])) l.
Proof.
  unfold AutoSync.syncTasksBody.
  unfold bind at 1. unfold onDisk at 1. unfold Session.getActiveCard.
  cbn [fst snd]. rewrite world_eta.
  destruct (currentCardId (Session.loadSession (disk w))) as [[|c id]|].
  1,3: exists []; now rewrite app_nil_r.
  cbn [Js.orElse]. emits_goal.
  apply emits_bind; [apply emits_onDisk|intros _].
  apply emits_bind; [apply (emits_call _ Construct); reflexivity|intros _].
  apply emits_bind; [apply (emits_call _ Connect); reflexivity|intros _].
  apply emits_bind;
    [apply (emits_call _ (GetCard (c :: id))); intros o; apply Js_eqb_refl
    |intros card].
  apply emits_bind;
    [apply (emits_call _ (UpdateCard (c :: id) None _)); intros o;
     apply Js_eqb_refl|intros _].
  apply emits_bind; [apply syncChecklists_onCard|intros _].
  apply emits_bind; [|intros _; apply emits_ret].
  destruct (_ && _); [|apply emits_ret].
  apply (emits_call _ (AddComment (c :: id) _)). intros o. apply Js_eqb_refl.
Qed.

Lemma descOnly_body_onCard (tasks : list TodoTask) (w : World R) :
  exists l,
    calls (snd (AutoSyncDescOnly.syncTasksBody tasks w)) = calls w ++ l
    /\ Forall (onCard (Js.orElse (currentCardId (Session.loadSession (disk w))) [])) l.
Proof.
  unfold AutoSyncDescOnly.syncTasksBody.
  unfold bind at 1. unfold onDisk at 1. unfold Session.getActiveCard.
  cbn [fst snd]. rewrite world_eta.
  destruct (currentCardId (Session.loadSession (disk w))) as [[|c id]|].
  1,3: exists []; now rewrite app_nil_r.
  cbn [Js.orElse]. emits_goal.
  apply emits_bind; [apply emits_onDisk|intros _].
  apply emits_bind; [apply (emits_call _ Construct); reflexivity|intros _].
  apply emits_bind; [apply (emits_call _ Connect); reflexivity|intros _].
  apply emits_bind;
    [apply (emits_call _ (GetCard (c :: id))); intros o; apply Js_eqb_refl
    |intros card].
  apply emits_bind;
    [apply (emits_call _ (UpdateCard (c :: id) None _)); intros o;
     apply Js_eqb_refl|intros _].
  apply emits_bind; [|intros _; apply emits_ret].
  apply (emits_call _ (AddComment (c :: id) _)). intros o. apply Js_eqb_refl.
Qed.

(** A sync reads and writes one card only: every call that
    [syncTasks] makes, in both revisions, is the construction of the
    client, its connection, or a call on the card of the session
    ([getCard], [updateCard], [addComment], [getCardChecklists],
    [updateChecklistItem]); it never creates, moves or searches a card. *)
Theorem sync_touches_only_active_card (tasks : list TodoTask) (w : World R) :
  let cardId := Js.orElse (currentCardId (Session.loadSession (disk w))) [] in
  (exists l,
      calls (snd (AutoSync.syncTasks tasks w)) = calls w ++ l
      /\ Forall (onCard cardId) l)
  /\ (exists l,
      calls (snd (AutoSyncDescOnly.syncTasks tasks w)) = calls w ++ l
      /\ Forall (onCard cardId) l).
Proof.
  cbv zeta. unfold AutoSync.syncTasks, AutoSyncDescOnly.syncTasks.
  rewrite !tryCatch_log. cbn [snd].
  split; [apply autoSync_body_onCard|apply descOnly_body_onCard].
Qed.

(** [syncChecklistsWithTodoWrite] is best effort: whatever the board
    answers, it leaves the session file alone and makes only checklist
    calls ([getCardChecklists], [updateChecklistItem]); and it returns
    normally when the logger can print what the failing calls threw. *)
Theorem checklist_sync_is_best_effort (cardId : Js.str) (tasks : list TodoTask)
    (w : World R) :
  let r := AutoSync.syncChecklistsWithTodoWrite cardId tasks w in
  exists l,
    calls (snd r) = calls w ++ l
    /\ Forall checklistEvent l
    /\ disk (snd r) = disk w
    /\ (Forall printableEvent l -> fst r = Ok tt).
Proof. apply syncChecklists_quiet. Qed.

(** On a card without checklists the sync of [simple-auto-sync.ts]
    reads the checklists and does nothing more, whereas the sync of
    [slash-commands.ts] creates the checklist [Development Tasks] with
    one item per task, in the order of the tasks, when there is a task;
    a failure of that creation is not reported when the logger can print
    it. *)
Theorem card_without_checklists (cardId : Js.str) (tasks : list TodoTask)
    (w : World R) (b : R) :
  exec (GetCardChecklists cardId) (board w) = (Ok [], b) ->
  AutoSync.syncChecklistsWithTodoWrite cardId tasks w
  = (Ok tt, mkWorld (disk w) b (calls w ++ [(GetCardChecklists cardId, None)]))
  /\ (tasks = [] ->
      SlashCommands.syncTasksToChecklists cardId tasks w
      = (Ok tt, mkWorld (disk w) b (calls w ++ [(GetCardChecklists cardId, None)])))
  /\ (tasks <> [] ->
      let r := SlashCommands.syncTasksToChecklists cardId tasks w in
      exists o,
        calls (snd r)
        = calls w
          ++ [(GetCardChecklists cardId, None);
              (CreateChecklist cardId (Js.lit "Development Tasks")
                 (map content tasks), o)]
        /\ (printableEvent
              (CreateChecklist cardId (Js.lit "Development Tasks")
                 (map content tasks), o) ->
            fst r = Ok tt)).
Proof.
  intros X. conjuncts.
  - unfold AutoSync.syncChecklistsWithTodoWrite, tryCatch, bind, call.
    rewrite X. reflexivity.
  - intros ->. unfold SlashCommands.syncTasksToChecklists, tryCatch, bind, call.
    rewrite X. reflexivity.
  - intros NE. destruct tasks as [|t ts]; [congruence|]. cbv zeta.
    unfold SlashCommands.syncTasksToChecklists. rewrite tryCatch_log.
    unfold bind, call. rewrite X. cbn [outcomeOf fst snd board disk calls].
    match goal with
    | |- context [exec ?k b] => destruct (exec k b) as [[cl|e] b']
    end; cbn [outcomeOf fst snd board disk calls ret];
      eexists; (split; [rewrite <- app_assoc; reflexivity|]).
    + reflexivity.
    + intros P. now rewrite (log_printable _ _ P).
Qed.

End Orchestrator.

Lemma card_without_checklists_witness :
  let w := Examples.world_active in
  let cardId := Js.lit "card_123" in
  let tasks := [Examples.task_first] in
  let b := Examples.board_one in
  AutoSync.syncChecklistsWithTodoWrite cardId tasks w
  = (Ok tt, mkWorld (disk w) b (calls w ++ [(GetCardChecklists cardId, None)]))
  /\ (tasks = [] ->
      SlashCommands.syncTasksToChecklists cardId tasks w
      = (Ok tt, mkWorld (disk w) b (calls w ++ [(GetCardChecklists cardId, None)])))
  /\ (tasks <> [] ->
      let r := SlashCommands.syncTasksToChecklists cardId tasks w in
      exists o,
        calls (snd r)
        = calls w
          ++ [(GetCardChecklists cardId, None);
              (CreateChecklist cardId (Js.lit "Development Tasks")
                 (map content tasks), o)]
        /\ (printableEvent
              (CreateChecklist cardId (Js.lit "Development Tasks")
                 (map content tasks), o) ->
            fst r = Ok tt)).
Proof.
  exact (@card_without_checklists Board.t Board.client (Js.lit "card_123")
           [Examples.task_first] Examples.world_active Examples.board_one eq_refl).
Defined.
(* ================================================================= *)
(** * The slash commands ([slash-commands.ts]) *)

Lemma dropWhile_length (f : N -> bool) (s : Js.str) :
  List.length (Js.dropWhile f s) <= List.length s.
Proof.
  induction s as [|c s IH]; simpl; [lia|]. destruct (f c); simpl; lia.
Qed.

Lemma stripLeading_length (cls : N -> bool) (s : Js.str) :
  List.length (SlashCommands.stripLeading cls s) <= List.length s.
Proof.
  unfold SlashCommands.stripLeading. destruct s as [|c s]; [simpl; lia|].
  destruct (cls c); [|lia].
  etransitivity; [apply dropWhile_length|apply dropWhile_length].
Qed.

Lemma title_bounds (planText : option Js.str) :
  let cardTitle :=
    Js.orElse (Some (SlashCommands.extractTitleFromPlan planText))
      (Js.lit "Development Task") in
  cardTitle <> [] /\ List.length cardTitle < 100.
Proof.
  cbv zeta.
  assert (D : List.length (Js.lit "Development Task") < 100)
    by (vm_compute; lia).
  assert (B : List.length (SlashCommands.extractTitleFromPlan planText) < 100).
  { unfold SlashCommands.extractTitleFromPlan.
    destruct planText as [[|c r]|]; try exact D.
    destruct (find _ _) as [t|] eqn:F; [|exact D].
    apply find_some in F. destruct F as [_ F].
    unfold SlashCommands.isTitle in F.
    apply andb_prop in F. destruct F as [F _].
    apply andb_prop in F. destruct F as [F _].
    apply andb_prop in F. destruct F as [_ F].
    apply Nat.ltb_lt in F.
    eapply Nat.le_lt_trans; [apply stripLeading_length|exact F]. }
  destruct (SlashCommands.extractTitleFromPlan planText) as [|c s].
  - split; [discriminate|exact D].
  - split; [discriminate|exact B].
Qed.




Section SlashFacts.
Context {R : Type} {client : BoardClient R}.
Import Eff.
Local Abbreviation M := (@Eff.M R).
Variable toLocaleString : Js.str -> Js.str.

(** Without an active card (no session file, an unreadable one, no
    card id or an empty one) [completeCard], [updateCard] and [showStatus]
    return their fixed text at once: no client is made, no call goes to
    the board and the session file is not written. *)
Theorem commands_without_active_card (note : option Js.str) (w : World R) :
  Js.truthy (currentCardId (Session.loadSession (disk w))) = false ->
  SlashCommands.completeCard note w = (Ok SlashCommands.noActiveCard, w)
  /\ SlashCommands.updateCard note w = (Ok SlashCommands.noActiveCard, w)
  /\ SlashCommands.showStatus toLocaleString w = (Ok SlashCommands.statusNone, w).
Proof.
  intros T.
  unfold SlashCommands.completeCard, SlashCommands.updateCard,
    SlashCommands.showStatus, SlashCommands.completeCardBody,
    SlashCommands.updateCardBody, SlashCommands.showStatusBody,
    tryCatch, bind, onDisk, Session.getActiveCard.
  cbn [fst snd]. rewrite world_eta.
  destruct (currentCardId (Session.loadSession (disk w))) as [[|c id]|];
    [|discriminate T|]; conjuncts; reflexivity.
Qed.

Lemma completeCard_session_cases (note : option Js.str)
    (w : World R) :
  let r := SlashCommands.completeCard note w in
  disk (snd r) = disk w
  \/ exists cardId doneListId,
       currentCardId (Session.loadSession (disk w)) = Some cardId
       /\ calls (snd r)
          = calls w
            ++ [ (Construct, None); (Connect, None); (GetListId done, None);
                 (MoveCard cardId doneListId, None);
                 (AddComment cardId (SlashCommands.completionComment note), None) ]
       /\ disk (snd r) = Session.clearSession (disk w)
       /\ fst r
          = Ok (SlashCommands.cardCompleted
                  (currentCardName (Session.loadSession (disk w)))).
Proof.
  cbv zeta. unfold SlashCommands.completeCard. rewrite tryCatch_log.
  cbn [fst snd].
  remember (SlashCommands.completeCardBody note w) as res eqn:E.
  unfold SlashCommands.completeCardBody, bind, onDisk, call, ret,
    Session.getActiveCard in E.
  cbn [fst snd disk board calls] in E.
  destruct (currentCardId (Session.loadSession (disk w))) as [[|c id]|].
  1,3: subst res; left; reflexivity.
  step_call E; [|subst res; left; reflexivity].
  step_call E; [|subst res; left; reflexivity].
  step_call E; [|subst res; left; reflexivity].
  match type of E with
  | context [match ?o with Some _ => _ | None => _ end] =>
      destruct o as [[|u l]|]
  end.
  1,3: subst res; left; reflexivity.
  step_call E; [|subst res; left; reflexivity].
  step_call E; [|subst res; left; reflexivity].
  subst res. right. exists (c :: id), (u :: l).
  cbn [fst snd disk calls]. rewrite <- !app_assoc. conjuncts; reflexivity.
Qed.


Lemma ensureLabels_emits P tl cl mappings :
  (forall n c o, P (EnsureLabel n c, o)) ->
  emits P (SlashCommands.ensureLabels tl cl mappings : M _).
Proof.
  intros H. induction mappings as [|[[k n] c] rest IH]; simpl.
  - apply emits_ret.
  - apply emits_bind.
    + destruct (existsb _ k); [|apply emits_ret].
      apply emits_tryCatch; [|emits_handler].
      apply emits_bind;
        [apply (emits_call P (EnsureLabel n c)); apply H
        |intros; apply emits_ret].
    + intros here. apply emits_bind; [apply IH|intros; apply emits_ret].
Qed.

Lemma ensureLabels_keepsDisk tl cl mappings :
  keepsDisk (SlashCommands.ensureLabels tl cl mappings : M _).
Proof.
  induction mappings as [|[[k n] c] rest IH]; simpl.
  - apply keepsDisk_ret.
  - apply keepsDisk_bind.
    + destruct (existsb _ k); [|apply keepsDisk_ret].
      apply keepsDisk_tryCatch; [|keeps_handler].
      apply keepsDisk_bind; [keeps_call_tac|intros; apply keepsDisk_ret].
    + intros here. apply keepsDisk_bind; [apply IH|intros; apply keepsDisk_ret].
Qed.

Lemma addRelevantLabels_emits P cardId title content_ :
  (forall n c o, P (EnsureLabel n c, o)) ->
  (forall l o, P (AddLabelToCard cardId l, o)) ->
  emits P (SlashCommands.addRelevantLabels cardId title content_ : M unit).
Proof.
  intros H1 H2. unfold SlashCommands.addRelevantLabels.
  apply emits_tryCatch; [|emits_handler].
  apply emits_bind; [now apply ensureLabels_emits|].
  intros ls. apply emits_forEach. intros x _.
  apply emits_tryCatch; [|emits_handler].
  apply (emits_call P (AddLabelToCard cardId x)). apply H2.
Qed.

Lemma addRelevantLabels_keepsDisk cardId title content_ :
  keepsDisk (SlashCommands.addRelevantLabels cardId title content_ : M unit).
Proof.
  unfold SlashCommands.addRelevantLabels.
  apply keepsDisk_tryCatch; [|keeps_handler].
  apply keepsDisk_bind; [apply ensureLabels_keepsDisk|].
  intros ls. apply keepsDisk_forEach. intros x _.
  apply keepsDisk_tryCatch; [|keeps_handler].
  keeps_call_tac.
Qed.

Lemma ensureLabels_none tl cl mappings (w : World R) :
  (forall k n c keyword, In (k, n, c) mappings -> In keyword k ->
     Js.includes tl keyword = false /\ Js.includes cl keyword = false) ->
  SlashCommands.ensureLabels tl cl mappings w = (Ok [], w).
Proof.
  induction mappings as [|[[k n] c] rest IH]; intros H; simpl; [reflexivity|].
  assert (E : existsb (fun keyword => Js.includes tl keyword || Js.includes cl keyword) k
              = false).
  { apply not_true_is_false. intros X. apply existsb_exists in X.
    destruct X as (kw & I & X).
    destruct (H k n c kw (or_introl eq_refl) I) as [A B].
    rewrite A, B in X. discriminate X. }
  rewrite E. unfold bind at 1. cbn [ret].
  unfold bind. rewrite IH; [reflexivity|].
  intros k' n' c' kw I. apply (H k' n' c' kw). now right.
Qed.

(** [addRelevantLabels] is best effort: whatever the board answers to
    [ensureLabel] and [addLabelToCard], it leaves the session file alone
    and makes no other call than these two; and it returns normally when
    the logger can print what the failing calls threw. *)
Theorem labels_are_best_effort (cardId title content_ : Js.str) (w : World R) :
  let r := SlashCommands.addRelevantLabels cardId title content_ w in
  exists l,
    calls (snd r) = calls w ++ l
    /\ Forall labelEvent l
    /\ disk (snd r) = disk w
    /\ (Forall printableEvent l -> fst r = Ok tt).
Proof.
  cbv zeta.
  destruct (@addRelevantLabels_emits labelEvent cardId title content_
              (fun _ _ _ => eq_refl) (fun _ _ => eq_refl) w) as (l & E & F).
  exists l. conjuncts; [exact E|exact F|apply addRelevantLabels_keepsDisk|].
  intros P.
  destruct (addRelevantLabels_traced nothingElse cardId title content_ w)
    as (l' & E' & T).
  rewrite E in E'. apply app_inv_head in E'. subst l'.
  destruct (fst (SlashCommands.addRelevantLabels cardId title content_ w))
    as [[]|e] eqn:Q; [reflexivity|].
  exfalso. destruct (T P e eq_refl) as [(k & I)|[]].
  revert Q. unfold SlashCommands.addRelevantLabels.
  rewrite tryCatch_log. cbn [fst].
  destruct (fst _) as [a|e0] eqn:Q0; [discriminate|].
  revert E. unfold SlashCommands.addRelevantLabels.
  rewrite tryCatch_log. cbn [snd]. intros E.
  match type of Q0 with
  | fst (?body w) = _ =>
      assert (B : traced nothingElse body)
  end.
  { apply traced_bind; [apply ensureLabels_traced|].
    intros ls. apply traced_forEach. intros x _.
    apply traced_catch_ret with (Y := nothingElse);
      [|apply nothingElse_printable].
    traced_call_tac. }
  destruct (B w) as (l0 & E0 & T0). rewrite E in E0.
  apply app_inv_head in E0. subst l0.
  destruct (T0 P e0 Q0) as [(k0 & I0)|[]].
  rewrite (log_printable _ _ (printable_in k0 e0 P I0)). discriminate.
Qed.

(** When no keyword of the label table occurs in the lower-cased title
    or plan, [addRelevantLabels] makes no call at all. *)
Theorem no_keyword_no_label (cardId title content_ : Js.str) (w : World R) :
  existsb (fun mapping =>
             existsb (fun keyword =>
                        Js.includes (Js.toLowerCase title) keyword
                        || Js.includes (Js.toLowerCase content_) keyword)
               (fst (fst mapping)))
    SlashCommands.labelMappings = false ->
  SlashCommands.addRelevantLabels cardId title content_ w = (Ok tt, w).
Proof.
  intros H. unfold SlashCommands.addRelevantLabels, tryCatch, bind.
  rewrite ensureLabels_none; [reflexivity|].
  intros k n c kw I K.
  apply orb_false_elim.
  apply not_true_is_false. intros X.
  apply not_true_iff_false in H. apply H.
  apply existsb_exists. exists (k, n, c). split; [exact I|].
  apply existsb_exists. exists kw. now split.
Qed.

(** Every card that [createCardFromPlan] asks the board to create has a
    title that is not empty and is shorter than 100 code units, whatever
    the plan text is (a plan whose first candidate line is made of [#]
    only falls back to [Development Task]). *)
Theorem created_card_has_a_title (planText : option Js.str) (w : World R) :
  exists l,
    calls (snd (SlashCommands.createCardFromPlan planText w)) = calls w ++ l
    /\ Forall titled l.
Proof.
  apply (fun H : emits titled (SlashCommands.createCardFromPlan planText : M _) => H w).
  unfold SlashCommands.createCardFromPlan.
  apply emits_tryCatch; [|emits_handler].
  unfold SlashCommands.createCardFromPlanBody, SlashCommands.initializeIntegration.
  repeat first
    [ apply addRelevantLabels_emits; intros; exact I
    | apply emits_ret | apply emits_throw | apply emits_onDisk | apply emits_log
    | emits_true
    | apply emits_bind; [|intros ?]
    | apply emits_tryCatch; [|intros ?]
    | match goal with |- emits _ (if ?b then _ else _) => destruct b end
    | match goal with |- emits _ (match ?t with [] => _ | _ :: _ => _ end) =>
        destruct t end ].
  match goal with |- emits ?P (Eff.call ?c) => apply (emits_call P c) end.
  intros o. apply title_bounds.
Qed.



(** A search by name (an identifier that is not 24 code units long)
    that finds no card, or more than one, picks none: [pickupCard] makes
    the three calls of the search and nothing else, leaves the session
    file alone and returns the text that says so. *)
Theorem pickup_by_name_needs_one_match (cardIdentifier : Js.str)
    (results : list TrelloCard) (w : World R) (b1 b2 b3 : R) :
  List.length cardIdentifier <> 24 ->
  exec Construct (board w) = (Ok tt, b1) ->
  exec Connect b1 = (Ok tt, b2) ->
  exec (SearchCards cardIdentifier) b2 = (Ok results, b3) ->
  List.length results <> 1 ->
  SlashCommands.pickupCard cardIdentifier w
  = (Ok (match results with
         | [] => Js.lit "❌ No card found matching: " ++ Js.quote
                 ++ cardIdentifier ++ Js.quote
         | _ => SlashCommands.multipleFound results
         end),
     mkWorld (disk w) b3
       (calls w ++ [(Construct, None); (Connect, None);
                    (SearchCards cardIdentifier, None)])).
Proof.
  intros L X1 X2 X3 N.
  unfold SlashCommands.pickupCard. rewrite tryCatch_log.
  unfold SlashCommands.pickupCardBody, bind, call.
  rewrite X1. cbn [outcomeOf fst snd disk board calls]. rewrite X2.
  cbn [outcomeOf fst snd disk board calls].
  apply Nat.eqb_neq in L. rewrite L. cbv beta iota.
  cbn [outcomeOf fst snd disk board calls].
  rewrite X3. cbn [outcomeOf fst snd disk board calls].
  rewrite <- !app_assoc.
  destruct results as [|c1 [|c2 rs]]; [reflexivity|now contradiction N|reflexivity].
Qed.

End SlashFacts.

Lemma commands_without_active_card_witness :
  SlashCommands.completeCard None Examples.world_no_card
  = (Ok SlashCommands.noActiveCard, Examples.world_no_card)
  /\ SlashCommands.updateCard None Examples.world_no_card
     = (Ok SlashCommands.noActiveCard, Examples.world_no_card)
  /\ SlashCommands.showStatus (fun s => s) Examples.world_no_card
     = (Ok SlashCommands.statusNone, Examples.world_no_card).
Proof.
  exact (@commands_without_active_card Board.t Board.client (fun s => s) None
           Examples.world_no_card eq_refl).
Defined.

Lemma no_keyword_no_label_witness :
  SlashCommands.addRelevantLabels (Js.lit "card_123") (Js.lit "Holiday plans")
    (Js.lit "Book a flight") Examples.world_active
  = (Ok tt, Examples.world_active).
Proof.
  apply (@no_keyword_no_label Board.t Board.client (Js.lit "card_123")
           (Js.lit "Holiday plans") (Js.lit "Book a flight")
           Examples.world_active).
  vm_compute. reflexivity.
Defined.

Lemma pickup_by_name_needs_one_match_witness :
  SlashCommands.pickupCard (Js.lit "Missing card") Examples.world_active
  = (Ok (Js.lit "❌ No card found matching: " ++ Js.quote
         ++ Js.lit "Missing card" ++ Js.quote),
     mkWorld (disk Examples.world_active) Examples.board_one
       (calls Examples.world_active
        ++ [(Construct, None); (Connect, None);
            (SearchCards (Js.lit "Missing card"), None)])).
Proof.
  apply (@pickup_by_name_needs_one_match Board.t Board.client
           (Js.lit "Missing card") [] Examples.world_active
           Examples.board_one Examples.board_one Examples.board_one).
  - vm_compute. discriminate.
  - reflexivity.
  - reflexivity.
  - reflexivity.
  - discriminate.
Defined.
(* ================================================================= *)
(** * The per-task sync ([services/todo-sync.ts]) *)

Lemma mapGet_mapSet (m : TodoSync.TaskCards) (k v : Js.str) :
  TodoSync.mapGet (TodoSync.mapSet m k v) k = Some v.
Proof.
  unfold TodoSync.mapGet, TodoSync.mapSet.
  destruct (existsb _ m) eqn:E.
  - induction m as [|[k' v'] m IH]; [discriminate E|].
    cbn [existsb fst] in E. cbn [map find fst].
    destruct (Js.eqb k' k) eqn:K.
    + cbn [fst]. now rewrite Js_eqb_refl.
    + cbn [fst]. rewrite K. apply IH. exact E.
  - induction m as [|[k' v'] m IH].
    + cbn. now rewrite Js_eqb_refl.
    + cbn [existsb fst] in E. apply orb_false_elim in E. destruct E as [K E].
      cbn [app find fst]. rewrite K. now apply IH.
Qed.

Section TodoSyncFacts.
Context {R : Type} {client : BoardClient R}.
Import Eff.
Local Abbreviation M := (@Eff.M R).
Variable config : TrelloConfig.

Ltac sync_cases :=
  unfold TodoSync.syncTask, TodoSync.createNewCard, TodoSync.updateExistingCard;
  destruct (TodoSync.mapGet _ _) as [[|?u ?l]|] eqn:?G;
  destruct (TodoSync.getTargetListId config _) as [[|?u' ?l']|];
  unfold tryCatch, bind, onDisk, call, ret;
  cbn [fst snd disk board calls];
  repeat (match goal with
          | |- context [exec ?k ?b] => destruct (exec k b) as [[?|?] ?]
          end; cbn [fst snd disk board calls outcomeOf]);
  rewrite ?log_error; cbn [fst snd disk board calls];
  repeat match goal with
         | |- context [Logger.stringify ?e] =>
             destruct (Logger.stringify e) eqn:?;
             cbn [fst snd disk board calls]
         end;
  rewrite ?log_error; cbn [fst snd disk board calls];
  repeat match goal with
         | |- context [Logger.stringify ?e] =>
             destruct (Logger.stringify e) eqn:?;
             cbn [fst snd disk board calls]
         end.

(** A task whose status has no list in the configuration is skipped
    before any call is made: the result says which status has no list,
    and the board, the session file and the map of the session are as
    they were, whether the task has a card already or not. *)
Theorem syncTask_without_list (cardsOf : TodoSync.TaskCards) (task : TodoTask)
    (options : SyncOptions) (w : World R) :
  Js.truthy (TodoSync.getTargetListId config (status task)) = false ->
  TodoSync.syncTask config cardsOf task options w
  = (Ok (TodoSync.skippedWith None
           (Js.lit "No list configured for status: " ++ status task),
         cardsOf), w).
Proof.
  intros T. unfold TodoSync.syncTask, TodoSync.updateExistingCard,
    TodoSync.createNewCard.
  destruct (TodoSync.getTargetListId config (status task)) as [[|u l]|];
    try discriminate T;
    destruct (TodoSync.mapGet cardsOf (content task)) as [[|u' l']|];
    reflexivity.
Qed.

Lemma syncTask_success (cardsOf m' : TodoSync.TaskCards) (task : TodoTask)
    (options : SyncOptions) (res : SyncResult) (w : World R) :
  fst (TodoSync.syncTask config cardsOf task options w) = Ok (res, m') ->
  r_success res = true ->
  r_error res = None /\ r_action res <> skipped
  /\ exists id, r_cardId res = Some id
                /\ TodoSync.mapGet m' (content task) = Some id.
Proof.
  sync_cases; intros Q S; try discriminate Q; injection Q as <- <-;
    try discriminate S;
    (conjuncts;
     [ reflexivity
     | try destruct (Js.eqb (status task) s_completed); discriminate
     | eexists; split; [reflexivity|first [apply mapGet_mapSet|eassumption]] ]).
Qed.

Lemma syncTask_failure (cardsOf m' : TodoSync.TaskCards) (task : TodoTask)
    (options : SyncOptions) (res : SyncResult) (w : World R) :
  fst (TodoSync.syncTask config cardsOf task options w) = Ok (res, m') ->
  r_success res = false ->
  r_action res = skipped /\ m' = cardsOf /\ exists msg, r_error res = Some msg.
Proof.
  sync_cases; intros Q S; try discriminate Q; injection Q as <- <-;
    try discriminate S; (conjuncts; [reflexivity|reflexivity|eexists; reflexivity]).
Qed.

Lemma syncTask_keepsDisk (cardsOf : TodoSync.TaskCards) (task : TodoTask)
    (options : SyncOptions) :
  keepsDisk (TodoSync.syncTask config cardsOf task options : M _).
Proof. intros w. sync_cases; reflexivity. Qed.

Lemma syncTask_emits (cardsOf : TodoSync.TaskCards) (task : TodoTask)
    (options : SyncOptions) :
  emits taskCardEvent (TodoSync.syncTask config cardsOf task options : M _).
Proof.
  intros w. sync_cases; eexists;
    (split; [first [rewrite <- ?app_assoc; reflexivity
                   |symmetry; apply app_nil_r]|]);
    repeat constructor.
Qed.

Lemma syncTask_reuses (cardsOf : TodoSync.TaskCards) (task : TodoTask)
    (options : SyncOptions) (c : N) (id : Js.str) :
  TodoSync.mapGet cardsOf (content task) = Some (c :: id) ->
  emits (updatesCard (c :: id))
    (TodoSync.syncTask config cardsOf task options : M _).
Proof.
  intros H w. revert H. sync_cases; intros H; try discriminate H;
    injection H as <- <-; eexists;
    (split; [first [rewrite <- ?app_assoc; reflexivity
                   |symmetry; apply app_nil_r]|]);
    repeat constructor.
Qed.

(** What [syncTask] returns agrees with the map it keeps from task
    contents to cards, and it never writes the session file.  A result
    that is no success is [skipped], carries an error text and leaves the
    map as it was; a success carries no error and the id of a card, and
    the map then sends the content of the task to that card. *)
Theorem syncTask_result_is_consistent (cardsOf m' : TodoSync.TaskCards)
    (task : TodoTask) (options : SyncOptions) (res : SyncResult) (w : World R) :
  fst (TodoSync.syncTask config cardsOf task options w) = Ok (res, m') ->
  disk (snd (TodoSync.syncTask config cardsOf task options w)) = disk w
  /\ (r_success res = false ->
      r_action res = skipped /\ m' = cardsOf
      /\ exists msg, r_error res = Some msg)
  /\ (r_success res = true ->
      r_error res = None /\ r_action res <> skipped
      /\ exists id, r_cardId res = Some id
                    /\ TodoSync.mapGet m' (content task) = Some id).
Proof.
  intros Q. conjuncts.
  - apply syncTask_keepsDisk.
  - intros S. eapply syncTask_failure; eassumption.
  - intros S. eapply syncTask_success; eassumption.
Qed.

(** No second card for the same task: after a successful [syncTask]
    whose result names a card with a non-empty id, a [syncTask] for a task
    with the same content, whatever its status, makes no other calls than
    [moveCard], [updateCard] and [addComment] on that card; it creates
    none. *)
Theorem second_sync_updates_the_card (cardsOf m' : TodoSync.TaskCards)
    (task task' : TodoTask) (options options' : SyncOptions)
    (res : SyncResult) (c : N) (id : Js.str) (w w' : World R) :
  fst (TodoSync.syncTask config cardsOf task options w) = Ok (res, m') ->
  r_success res = true ->
  r_cardId res = Some (c :: id) ->
  content task' = content task ->
  exists l,
    calls (snd (TodoSync.syncTask config m' task' options' w')) = calls w' ++ l
    /\ Forall (updatesCard (c :: id)) l.
Proof.
  intros E S C T.
  destruct (syncTask_success _ _ _ _ E S) as (_ & _ & i & I1 & I2).
  rewrite C in I1. injection I1 as <-.
  apply syncTask_reuses. now rewrite T.
Qed.

(** [syncTasks] of [TodoTrelloSync] goes through the whole batch: it
    makes card calls only and leaves the session file alone, and when the
    logger can print what the failing calls threw it returns one result
    per task, so a task that fails does not stop the tasks after it. *)
Theorem batch_gives_one_result_per_task (cardsOf : TodoSync.TaskCards)
    (tasks : list TodoTask) (options : SyncOptions) (w : World R) :
  let r := TodoSyncBatch.syncTasks config cardsOf tasks options w in
  exists l,
    calls (snd r) = calls w ++ l
    /\ Forall taskCardEvent l
    /\ disk (snd r) = disk w
    /\ (Forall printableEvent l ->
        exists results m',
          fst r = Ok (results, m')
          /\ List.length results = List.length tasks).
Proof.
  cbv zeta. revert cardsOf w.
  induction tasks as [|t ts IH]; intros cardsOf w.
  - exists []. cbn. rewrite app_nil_r. conjuncts; try reflexivity;
      [constructor|]. intros _. now exists [], cardsOf.
  - cbn [TodoSyncBatch.syncTasks]. unfold bind.
    destruct (syncTask_reports config cardsOf t options w) as (l1 & C1 & P1).
    destruct (syncTask_emits cardsOf t options w) as (l1' & C1' & F1).
    pose proof (syncTask_keepsDisk cardsOf t options w) as D1.
    cbv zeta in C1, P1. rewrite C1 in C1'. apply app_inv_head in C1'.
    subst l1'.
    destruct (TodoSync.syncTask config cardsOf t options w) as [[[res m1]|e] w1];
      cbn [fst snd] in *.
    + destruct (IH m1 w1) as (l2 & C2 & F2 & D2 & P2).
      destruct (TodoSyncBatch.syncTasks config m1 ts options w1)
        as [[[results m2]|e] w2]; cbn [fst snd ret] in *;
        exists (l1 ++ l2); rewrite C2, C1, app_assoc;
        (conjuncts; [reflexivity|now apply Forall_app|congruence|]);
        intros P; apply Forall_app in P; destruct P as [Pa Pb];
        destruct (P2 Pb) as (rs & m' & Q & L).
      * injection Q as <- <-. exists (res :: results), m2.
        split; [reflexivity|]. cbn. now rewrite L.
      * discriminate Q.
    + exists l1. conjuncts; [exact C1|exact F1|exact D1|].
      intros P. destruct (P1 P) as (r0 & c0 & Q & _). discriminate Q.
Qed.

End TodoSyncFacts.

Lemma noNewline_app (a b : Js.str) :
  noNewline a -> noNewline b -> noNewline (a ++ b).
Proof.
  unfold noNewline. intros A B I. apply in_app_or in I. tauto.
Qed.

Lemma noNewline_by_computation (s : Js.str) :
  forallb (fun c => negb (c =? 10)%N) s = true -> noNewline s.
Proof.
  intros H I. rewrite forallb_forall in H. specialize (H _ I).
  discriminate H.
Qed.

Ltac one_line :=
  repeat first
    [ assumption
    | match goal with
      | |- noNewline (_ ++ _) => apply noNewline_app
      | |- noNewline (if ?b then _ else _) => destruct b
      | |- noNewline [] => intros []
      end
    | apply noNewline_by_computation; vm_compute; reflexivity ].

(** The description that [buildCardDescription] writes is one line: the
    template literals hold a backslash and the letter n where a line
    break was meant, so the text has no line break unless the status,
    the active form or the time stamp have one. *)
Theorem card_description_is_one_line (task : TodoTask) (options : SyncOptions)
    (isoNow : Js.str) :
  noNewline (status task) -> noNewline (activeForm task) -> noNewline isoNow ->
  noNewline (TodoSync.buildCardDescription task options isoNow)
  /\ Js.split 10 (TodoSync.buildCardDescription task options isoNow)
     = [TodoSync.buildCardDescription task options isoNow].
Proof.
  intros S A N.
  assert (L : noNewline (TodoSync.buildCardDescription task options isoNow)).
  { unfold TodoSync.buildCardDescription, TodoSync.backslashN. one_line. }
  split; [exact L|]. now apply split_line.
Qed.

Lemma syncTask_without_list_witness :
  TodoSync.syncTask Examples.config_no_lists [] Examples.task_todo
    Examples.options_plain Examples.world_active
  = (Ok (TodoSync.skippedWith None
           (Js.lit "No list configured for status: " ++ status Examples.task_todo),
         []), Examples.world_active).
Proof.
  exact (@syncTask_without_list Board.t Board.client Examples.config_no_lists
           [] Examples.task_todo Examples.options_plain Examples.world_active
           eq_refl).
Defined.

Lemma syncTask_result_is_consistent_witness :
  let w := Examples.world_active in
  let r :=
    TodoSync.syncTask Examples.some_config [] Examples.task_first
      Examples.options_plain w in
  disk (snd r) = disk w
  /\ (r_success Examples.result_first = false ->
      r_action Examples.result_first = skipped /\ Examples.cards_first = []
      /\ exists msg, r_error Examples.result_first = Some msg)
  /\ (r_success Examples.result_first = true ->
      r_error Examples.result_first = None
      /\ r_action Examples.result_first <> skipped
      /\ exists id, r_cardId Examples.result_first = Some id
                    /\ TodoSync.mapGet Examples.cards_first
                         (content Examples.task_first) = Some id).
Proof.
  apply (@syncTask_result_is_consistent Board.t Board.client
           Examples.some_config [] Examples.cards_first Examples.task_first
           Examples.options_plain Examples.result_first Examples.world_active).
  vm_compute. reflexivity.
Defined.

Lemma second_sync_updates_the_card_witness :
  exists l,
    calls (snd (TodoSync.syncTask Examples.some_config Examples.cards_first
                  Examples.task_first_done Examples.options_plain
                  Examples.world_active))
    = calls Examples.world_active ++ l
    /\ Forall (updatesCard (Js.lit "card1")) l.
Proof.
  apply (@second_sync_updates_the_card Board.t Board.client
           Examples.some_config [] Examples.cards_first Examples.task_first
           Examples.task_first_done Examples.options_plain
           Examples.options_plain Examples.result_first 99%N (Js.lit "ard1")
           Examples.world_active Examples.world_active).
  - vm_compute. reflexivity.
  - reflexivity.
  - reflexivity.
  - reflexivity.
Defined.

Lemma card_description_is_one_line_witness :
  let d :=
    TodoSync.buildCardDescription Examples.task_todo Examples.options_plain
      (Js.lit "2024-01-02T00:00:00.000Z") in
  noNewline d /\ Js.split 10 d = [d].
Proof.
  apply (@card_description_is_one_line Examples.task_todo Examples.options_plain
           (Js.lit "2024-01-02T00:00:00.000Z"));
    apply noNewline_by_computation; vm_compute; reflexivity.
Defined.
(* ================================================================= *)
(** * The client's cache of list ids ([autoDiscoverLists]) *)

Lemma listId_setListId (ids : ListIds) (key : ListRole) (id : Js.str) :
  Client.listId (Client.setListId ids key id) key = Some id.
Proof. now destruct key. Qed.

Lemma listId_setListId_other (ids : ListIds) (key key' : ListRole) (id : Js.str) :
  key' <> key ->
  Client.listId (Client.setListId ids key id) key' = Client.listId ids key'.
Proof. destruct key, key'; intros N; try reflexivity; now contradiction N. Qed.

Lemma discoverList_other (ids : ListIds) (l : TrelloList) (key : ListRole) :
  Client.matchRole (Js.toLowerCase (list_name l)) <> Some key ->
  Client.listId (Client.discoverList ids l) key = Client.listId ids key.
Proof.
  intros N. unfold Client.discoverList.
  destruct (Client.matchRole _) as [k|]; [|reflexivity].
  apply listId_setListId_other. congruence.
Qed.

Lemma fold_keeps_unmatched (lists : list TrelloList) (ids : ListIds)
    (key : ListRole) :
  (forall l, In l lists ->
     Client.matchRole (Js.toLowerCase (list_name l)) <> Some key) ->
  Client.listId (fold_left Client.discoverList lists ids) key
  = Client.listId ids key.
Proof.
  revert ids.
  induction lists as [|l lists IH]; intros ids H; [reflexivity|].
  cbn [fold_left]. rewrite IH.
  - apply discoverList_other. apply H. now left.
  - intros l' I. apply H. now right.
Qed.

(** Lists that are not recognised as [key] leave the id cached for
    [key] as it was; in particular a board without such a list leaves the
    role without an id. *)
Theorem autoDiscover_keeps_unmatched (lists : list TrelloList) (ids : ListIds)
    (key : ListRole) :
  (forall l, In l lists ->
     Client.matchRole (Js.toLowerCase (list_name l)) <> Some key) ->
  Client.listId (Client.autoDiscoverLists lists ids) key = Client.listId ids key.
Proof. apply fold_keeps_unmatched. Qed.

(** When several lists of the board are recognised as the same role,
    the last one in the order of the board wins: its id is the one that
    [getListId] returns afterwards. *)
Theorem autoDiscover_last_match_wins (pre post : list TrelloList)
    (l : TrelloList) (ids : ListIds) (key : ListRole) :
  Client.matchRole (Js.toLowerCase (list_name l)) = Some key ->
  (forall l', In l' post ->
     Client.matchRole (Js.toLowerCase (list_name l')) <> Some key) ->
  Client.listId (Client.autoDiscoverLists (pre ++ l :: post) ids) key
  = Some (list_id l)
  /\ Client.getListId (Client.autoDiscoverLists (pre ++ l :: post) ids) key
     = if Js.truthy (Some (list_id l)) then Some (list_id l) else None.
Proof.
  intros M H.
  assert (E : Client.listId (Client.autoDiscoverLists (pre ++ l :: post) ids) key
              = Some (list_id l)).
  { unfold Client.autoDiscoverLists. rewrite fold_left_app. cbn [fold_left].
    rewrite fold_keeps_unmatched by exact H.
    unfold Client.discoverList. rewrite M. apply listId_setListId. }
  split; [exact E|]. unfold Client.getListId. now rewrite E.
Qed.

Lemma autoDiscover_last_match_wins_witness :
  let lists :=
    Board.lists Examples.board_one
    ++ [mkList (Js.lit "list_old") (Js.lit "Done in 2023") 4] in
  Client.listId (Client.autoDiscoverLists lists Examples.some_lists) done
  = Some (Js.lit "list_old")
  /\ Client.getListId (Client.autoDiscoverLists lists Examples.some_lists) done
     = Some (Js.lit "list_old").
Proof.
  apply (@autoDiscover_last_match_wins (Board.lists Examples.board_one) []
           (mkList (Js.lit "list_old") (Js.lit "Done in 2023") 4)
           Examples.some_lists done).
  - vm_compute. reflexivity.
  - intros l' [].
Defined.

Lemma autoDiscover_keeps_unmatched_witness :
  Client.listId
    (Client.autoDiscoverLists (Board.lists Examples.board_one)
       Examples.some_lists) review
  = Client.listId Examples.some_lists review.
Proof.
  apply (@autoDiscover_keeps_unmatched (Board.lists Examples.board_one)
           Examples.some_lists review).
  intros l [<-|[<-|[<-|[]]]]; vm_compute; discriminate.
Defined.

(* ================================================================= *)
(** * The matcher ([findMatchingChecklistItem]) *)


Lemma startsWith_refl (s : Js.str) : Js.startsWith s s = true.
Proof. induction s as [|c s IH]; [reflexivity|]. cbn. now rewrite N.eqb_refl. Qed.

Lemma includes_refl (s : Js.str) : Js.includes s s = true.
Proof. destruct s as [|c s]; [reflexivity|]. cbn [Js.includes]. now rewrite startsWith_refl. Qed.

Lemma exact_is_fuzzy (c : Js.str) (i : CheckItem) :
  Matching.exactMatch c i = true -> Matching.fuzzyMatch c i = true.
Proof.
  unfold Matching.exactMatch, Matching.fuzzyMatch. intros E.
  apply Js_eqb_eq in E. rewrite E. now rewrite includes_refl.
Qed.

(** The matcher returns an item of the list it was given, which
    matches in one of the three tiers; an exact match is also a match by
    containment, so the first tier only decides which item is taken: when
    some item matches exactly the result matches exactly.  The matcher
    finds nothing exactly when no item matches by containment or by a
    keyword. *)
Theorem matcher_picks_an_item (items : list CheckItem) (todoTaskContent : Js.str) :
  let c := Matching.cleanTaskContent todoTaskContent in
  (forall i,
      Matching.findMatchingChecklistItem items todoTaskContent = Some i ->
      In i items
      /\ (Matching.fuzzyMatch c i = true \/ Matching.keywordMatch c i = true)
      /\ ((exists j, In j items /\ Matching.exactMatch c j = true) ->
          Matching.exactMatch c i = true))
  /\ (Matching.findMatchingChecklistItem items todoTaskContent = None
      <-> forall i, In i items ->
            Matching.fuzzyMatch c i = false /\ Matching.keywordMatch c i = false).
Proof.
  cbv zeta. unfold Matching.findMatchingChecklistItem.
  set (c := Matching.cleanTaskContent todoTaskContent).
  destruct (find (Matching.exactMatch c) items) as [m|] eqn:F1.
  { split.
    - intros i Q. injection Q as <-. apply find_some in F1.
      destruct F1 as [I E]. conjuncts; [exact I|left; now apply exact_is_fuzzy|].
      intros _. exact E.
    - split; [discriminate|]. intros H. exfalso. apply find_some in F1.
      destruct F1 as [I E]. destruct (H m I) as [X _].
      rewrite (exact_is_fuzzy _ _ E) in X. discriminate X. }
  assert (NX : forall j, In j items -> Matching.exactMatch c j = false).
  { intros j I. exact (find_none _ _ F1 j I). }
  destruct (find (Matching.fuzzyMatch c) items) as [m|] eqn:F2.
  { split.
    - intros i Q. injection Q as <-. apply find_some in F2.
      destruct F2 as [I E]. conjuncts; [exact I|now left|].
      intros (j & Ij & Ej). rewrite (NX j Ij) in Ej. discriminate Ej.
    - split; [discriminate|]. intros H. exfalso. apply find_some in F2.
      destruct F2 as [I E]. destruct (H m I) as [X _]. congruence. }
  split.
  - intros i Q. apply find_some in Q. destruct Q as [I E].
    conjuncts; [exact I|now right|].
    intros (j & Ij & Ej). rewrite (NX j Ij) in Ej. discriminate Ej.
  - split.
    + intros F3 i I. split; [exact (find_none _ _ F2 i I)|exact (find_none _ _ F3 i I)].
    + intros H. destruct (find (Matching.keywordMatch c) items) as [m|] eqn:F3;
        [|reflexivity].
      apply find_some in F3. destruct F3 as [I E]. destruct (H m I) as [_ X].
      congruence.
Qed.



(* ================================================================= *)
(** * The normaliser ([cleanTaskContent]) *)

Lemma nonspace_not_32 (c : N) : Js.isSpace c = false -> (32 =? c)%N = false.
Proof.
  intros S. destruct (32 =? c)%N eqn:Q; [|reflexivity].
  apply N.eqb_eq in Q. subst c. vm_compute in S. discriminate S.
Qed.

Lemma collapseSpaces_alphabet (inRun : bool) (s : Js.str) :
  Forall (fun c => Matching.isLowerAlnum c || Js.isSpace c = true) s ->
  Forall (fun c => Matching.isLowerAlnum c || (c =? 32)%N = true)
    (Matching.collapseSpaces inRun s).
Proof.
  revert inRun. induction s as [|c s IH]; intros inRun H; [constructor|].
  inversion H as [|? ? Hc Hs]; subst. cbn [Matching.collapseSpaces].
  destruct (Js.isSpace c) eqn:S.
  - destruct inRun; [now apply IH|]. constructor; [|now apply IH].
    now rewrite orb_true_r.
  - constructor; [|now apply IH]. rewrite orb_false_r in Hc. now rewrite Hc.
Qed.

Lemma collapseSpaces_single (inRun : bool) (s : Js.str) :
  Js.includes (Matching.collapseSpaces inRun s) [32%N; 32%N] = false
  /\ (inRun = true ->
      Js.startsWith [32%N] (Matching.collapseSpaces inRun s) = false).
Proof.
  revert inRun. induction s as [|c s IH]; intros inRun.
  - split; [reflexivity|]. intros _. reflexivity.
  - cbn [Matching.collapseSpaces]. destruct (Js.isSpace c) eqn:S.
    + destruct inRun.
      * apply IH.
      * destruct (IH true) as [I1 I2]. split; [|discriminate].
        cbn [Js.includes Js.startsWith]. rewrite N.eqb_refl.
        cbn [andb]. specialize (I2 eq_refl).
        destruct (Matching.collapseSpaces true s) as [|x r]; [reflexivity|].
        cbn [Js.startsWith] in I2. rewrite andb_true_r in I2.
        cbn [Js.startsWith]. rewrite andb_true_r. rewrite I2. exact I1.
    + destruct (IH false) as [I1 _]. pose proof (nonspace_not_32 c S) as Q.
      split.
      * cbn [Js.includes Js.startsWith]. rewrite Q. exact I1.
      * intros _. cbn [Js.startsWith]. now rewrite Q.
Qed.

(** What the normaliser returns holds only the letters [a-z], the
    digits and the space, and never two spaces in a row. *)
Theorem normalised_content_alphabet (content : Js.str) :
  Forall (fun c => Matching.isLowerAlnum c || (c =? 32)%N = true)
    (Matching.cleanTaskContent content)
  /\ Js.includes (Matching.cleanTaskContent content) [32%N; 32%N] = false.
Proof.
  unfold Matching.cleanTaskContent. split.
  - apply collapseSpaces_alphabet. apply Forall_forall. intros c I.
    apply filter_In in I. exact (proj2 I).
  - apply collapseSpaces_single.
Qed.


(* ================================================================= *)
(** * Values that the logger cannot print *)

Section Escapes.
Context {R : Type} {client : BoardClient R}.
Import Eff.
Local Abbreviation M := (@Eff.M R).

(** The boundary of [completeCard] has a hole: when one of its calls
    fails with a value that [JSON.stringify] refuses, the [catch] clause
    throws while it logs, at every log level, and [completeCard] throws
    what the logger threw instead of returning the failure text.  The
    session is then as it was. *)
Theorem unprintable_failure_escapes (note : option Js.str) (w : World R)
    (l : list Event) (k : Call) (e t : Thrown) :
  calls (snd (SlashCommands.completeCard note w)) = calls w ++ l ->
  In (k, Some e) l ->
  Logger.stringify e = Some t ->
  fst (SlashCommands.completeCard note w) = Throw t
  /\ disk (snd (SlashCommands.completeCard note w)) = disk w.
Proof.
  unfold SlashCommands.completeCard. rewrite tryCatch_log. cbn [fst snd].
  intros E I S. destruct (completeCardBody_failFast note w) as (l' & E' & T).
  rewrite E in E'. apply app_inv_head in E'. subst l'.
  assert (D : disk (snd (SlashCommands.completeCardBody note w)) = disk w
              \/ fst (SlashCommands.completeCardBody note w)
                 = Ok (SlashCommands.cardCompleted
                         (currentCardName (Session.loadSession (disk w))))).
  { pose proof (completeCard_session_cases note w) as C.
    cbv zeta in C. unfold SlashCommands.completeCard in C.
    rewrite tryCatch_log in C. cbn [fst snd] in C.
    destruct C as [C|(c & d & _ & _ & _ & C)]; [now left|].
    destruct (fst (SlashCommands.completeCardBody note w)) as [a|e0];
      [right; exact C|].
    exfalso. destruct T as (l0 & k0 & -> & F).
    apply in_app_or in I. destruct I as [I|[I|[]]].
    - rewrite Forall_forall in F. specialize (F _ I). discriminate F.
    - injection I as <- <-. rewrite log_error, S in C. discriminate C. }
  destruct (fst (SlashCommands.completeCardBody note w)) as [a|e0].
  - exfalso. rewrite Forall_forall in T. specialize (T _ I). discriminate T.
  - destruct T as (l0 & k0 & -> & F).
    apply in_app_or in I. destruct I as [I|[I|[]]].
    + rewrite Forall_forall in F. specialize (F _ I). discriminate F.
    + injection I as <- <-. rewrite log_error, S. split; [reflexivity|].
      destruct D as [D|D]; [exact D|discriminate D].
Qed.

End Escapes.

Lemma unprintable_failure_escapes_witness :
  fst (SlashCommands.completeCard None Examples.world_move_throws_circular)
  = Throw (ErrorObj (Js.lit "Converting circular structure to JSON"))
  /\ disk (snd (SlashCommands.completeCard None
                  Examples.world_move_throws_circular))
     = disk Examples.world_move_throws_circular.
Proof.
  apply (@unprintable_failure_escapes Board.t Board.client None
           Examples.world_move_throws_circular
           [ (Construct, None); (Connect, None); (GetListId done, None);
             (MoveCard (Js.lit "card_123") (Js.lit "list_done_789"),
              Some Examples.circular_error) ]
           (MoveCard (Js.lit "card_123") (Js.lit "list_done_789"))
           Examples.circular_error).
  - vm_compute. reflexivity.
  - right. right. right. left. reflexivity.
  - reflexivity.
Defined.
